(** * BooTTY: the terminal session / split-group state machine

    A shallow embedding of [src/terminal-manager.ts] (class
    [TerminalManager]), of the message queue of
    [src/panel-view-provider.ts] (class [BooTTYPanelViewProvider]) and
    of the state kept by [src/webview/terminal-list.ts] (class
    [TerminalList]: selection, focus, items and groups; the rendering
    is left out).

    The manager is single-threaded and event driven; every handler is
    embedded as a function from the manager state to the manager state.
    Calls into the host (the panel webview, the PTY service, VS Code
    commands and dialogs) are recorded, in order, in an effect trace; a
    posted message is recorded with the contents its arrays have when it
    is posted.  Values the host decides (fresh UUIDs, whether a PTY
    spawn succeeds) are arguments of the handlers.  A group object is
    only ever reached through the [groups] map, so an in-place update of
    its member array is an update of the map entry. *)

From stdpp Require Import gmap strings list fin_maps pretty.

(** [TerminalId] ([types/terminal.ts]) is a string (a UUID). *)
Abbreviation TerminalId := string.

(** ** JavaScript values and arrays *)

(** [if (s)] on a [string | undefined]: the empty string is falsy.  The
    result is the narrowed value. *)
Definition truthyStr (o : option string) : option string :=
  match o with
  | Some s => if decide (s = "") then None else Some s
  | None => None
  end.

(** [Array.prototype.indexOf]; [None] stands for [-1]. *)
Fixpoint indexOf (x : string) (l : list string) : option nat :=
  match l with
  | [] => None
  | y :: l' => if decide (y = x) then Some 0 else S <$> indexOf x l'
  end.

(** [l.splice(i, 1)] *)
Definition spliceOut (i : nat) (l : list string) : list string := delete i l.

(** [l.splice(i, 0, ...xs)]; a start index beyond the end is clamped. *)
Definition spliceIn (i : nat) (xs l : list string) : list string :=
  take i l ++ xs ++ drop i l.

(** [const i = l.indexOf(x); if (i >= 0) l.splice(i, 1);] *)
Definition removeFirst (x : string) (l : list string) : list string :=
  match indexOf x l with
  | Some i => spliceOut i l
  | None => l
  end.

(** [const i = l.indexOf(anchor);
     if (i >= 0) l.splice(i + 1, 0, x); else l.push(x);] *)
Definition insertAfterOrPush (anchor x : string) (l : list string) : list string :=
  match indexOf anchor l with
  | Some i => spliceIn (S i) [x] l
  | None => l ++ [x]
  end.

(** An insertion-ordered [Map<string, V>].  [set] on a present key keeps
    the key's position, [set] on a new key appends, [remove] is
    [Map.prototype.delete], iteration ([values]) follows insertion
    order. *)
Module JsMap.
Section ops.
Context {V : Type}.

Fixpoint get (k : string) (m : list (string * V)) : option V :=
  match m with
  | [] => None
  | (k', v) :: m' => if decide (k' = k) then Some v else get k m'
  end.

Fixpoint set (k : string) (v : V) (m : list (string * V)) : list (string * V) :=
  match m with
  | [] => [(k, v)]
  | (k', v') :: m' =>
      if decide (k' = k) then (k, v) :: m' else (k', v') :: set k v m'
  end.

Fixpoint remove (k : string) (m : list (string * V)) : list (string * V) :=
  match m with
  | [] => []
  | (k', v') :: m' =>
      if decide (k' = k) then remove k m' else (k', v') :: remove k m'
  end.

Definition values (m : list (string * V)) : list V := m.*2.
End ops.
End JsMap.

(** ** Data model *)

Inductive TerminalLocation := Panel | Editor.

Global Instance TerminalLocation_eq_dec : EqDecision TerminalLocation.
Proof. solve_decision. Defined.

(** [TerminalInstance] (the [id] is the key of the [terminals] map). *)
Record TerminalInstance := {
  location : TerminalLocation;
  config_cwd : option string;
  ready : bool;
  dataQueue : list string;
  title : string;
  index : option nat;
  icon : option string;
  colorKey : option string;
  color : option string;
  currentCwd : option string;
  readyTimeout : bool            (* a ready timer is armed *)
}.

(** [TerminalGroup] of [types/messages.ts]. *)
Module TerminalGroup.
Record t := { id : string; terminals : list string }.
End TerminalGroup.

Module Persisted.
  (** [PersistedTerminalState] *)
Record terminal := {
    id : string;
    index : option nat;
    userTitle : option string;
    icon : option string;
    colorKey : option string;
    color : option string;
    groupId : option string;
    orderIndex : nat
  }.

  (** [PersistedWorkspaceState] *)
Record workspace := {
    terminals : list terminal;
    groups : list TerminalGroup.t;
    activeTerminalId : option string;
    listWidth : nat
  }.
End Persisted.

(** Messages posted to a webview ([ExtensionMessage],
    [PanelExtensionMessage]); only the variants the embedded handlers
    post. *)
Inductive Message :=
| PtyData (terminalId data : string)
| UpdateSettings (terminalId : string)   (* payload: the host's display settings *)
| UpdateTheme (terminalId : string)      (* payload: the host's theme *)
| UpdateConfig                           (* payload: the host's runtime config *)
| UpdateCwd (terminalId cwd : string)
| AddTab (terminalId title : string) (makeActive : bool)
         (icon color groupId insertAfter : option string)
| RemoveTab (terminalId : string)
| ActivateTab (terminalId : string)
| FocusTerminal
| HydrateState (listWidth : nat)
| SplitTerminal (terminalId newTerminalId groupId insertAfter : string)
| UnsplitTerminal (terminalId : string)
| JoinTerminal (terminalId groupId : string)
| GroupCreated (group : TerminalGroup.t)
| GroupDestroyed (groupId : string)
| ReorderTerminals (terminalIds : list string).

(** Calls into the host, in the order the manager makes them. *)
Inductive HostEffect :=
| PanelPost (m : Message)                 (* panelProvider.postMessage *)
| EditorPost (id : string) (m : Message)  (* instance.panel.webview.postMessage *)
| PtySpawn (id : string) (cwd : option string)
| PtyKill (id : string)
| PtyResize (id : string) (cols rows : nat)
| SetReadyTimeout (id : string)
| ClearReadyTimeout (id : string)
| DisposeEditorPanel (id : string)
| ExecuteCommand (command : string)
| ShowErrorMessage (text : string)
| ShowInformationMessage (text : string).

(** Result of [ptyService.spawn]. *)
Inductive SpawnResult := SpawnOk | SpawnError (error : string).

(** The fields of [TerminalManager], the host's record of what it was
    asked to do ([effects], oldest first) and the value stored under
    [STATE_KEY] in the workspace state ([stored]; each
    [savePersistedState] replaces it by a snapshot). *)
Record State := {
  terminals : gmap string TerminalInstance;
  groups : list (string * TerminalGroup.t);
  terminalToGroup : gmap string string;
  terminalOrder : list string;
  activeTerminalId : option string;
  listWidth : nat;
  persistedTerminals : list Persisted.terminal;
  usedIndices : gset nat;
  effects : list HostEffect;
  stored : option Persisted.workspace
}.

Definition set_terminals (v : gmap string TerminalInstance) (st : State) : State :=
  {| terminals := v; groups := groups st; terminalToGroup := terminalToGroup st;
     terminalOrder := terminalOrder st; activeTerminalId := activeTerminalId st;
     listWidth := listWidth st; persistedTerminals := persistedTerminals st;
     usedIndices := usedIndices st; effects := effects st; stored := stored st |}.

Definition set_groups (v : list (string * TerminalGroup.t)) (st : State) : State :=
  {| terminals := terminals st; groups := v; terminalToGroup := terminalToGroup st;
     terminalOrder := terminalOrder st; activeTerminalId := activeTerminalId st;
     listWidth := listWidth st; persistedTerminals := persistedTerminals st;
     usedIndices := usedIndices st; effects := effects st; stored := stored st |}.

Definition set_terminalToGroup (v : gmap string string) (st : State) : State :=
  {| terminals := terminals st; groups := groups st; terminalToGroup := v;
     terminalOrder := terminalOrder st; activeTerminalId := activeTerminalId st;
     listWidth := listWidth st; persistedTerminals := persistedTerminals st;
     usedIndices := usedIndices st; effects := effects st; stored := stored st |}.

Definition set_terminalOrder (v : list string) (st : State) : State :=
  {| terminals := terminals st; groups := groups st; terminalToGroup := terminalToGroup st;
     terminalOrder := v; activeTerminalId := activeTerminalId st;
     listWidth := listWidth st; persistedTerminals := persistedTerminals st;
     usedIndices := usedIndices st; effects := effects st; stored := stored st |}.

Definition set_activeTerminalId (v : option string) (st : State) : State :=
  {| terminals := terminals st; groups := groups st; terminalToGroup := terminalToGroup st;
     terminalOrder := terminalOrder st; activeTerminalId := v;
     listWidth := listWidth st; persistedTerminals := persistedTerminals st;
     usedIndices := usedIndices st; effects := effects st; stored := stored st |}.

Definition set_persistedTerminals (v : list Persisted.terminal) (st : State) : State :=
  {| terminals := terminals st; groups := groups st; terminalToGroup := terminalToGroup st;
     terminalOrder := terminalOrder st; activeTerminalId := activeTerminalId st;
     listWidth := listWidth st; persistedTerminals := v;
     usedIndices := usedIndices st; effects := effects st; stored := stored st |}.

Definition set_usedIndices (v : gset nat) (st : State) : State :=
  {| terminals := terminals st; groups := groups st; terminalToGroup := terminalToGroup st;
     terminalOrder := terminalOrder st; activeTerminalId := activeTerminalId st;
     listWidth := listWidth st; persistedTerminals := persistedTerminals st;
     usedIndices := v; effects := effects st; stored := stored st |}.

Definition set_stored (v : option Persisted.workspace) (st : State) : State :=
  {| terminals := terminals st; groups := groups st; terminalToGroup := terminalToGroup st;
     terminalOrder := terminalOrder st; activeTerminalId := activeTerminalId st;
     listWidth := listWidth st; persistedTerminals := persistedTerminals st;
     usedIndices := usedIndices st; effects := effects st; stored := v |}.

Definition emit (e : HostEffect) (st : State) : State :=
  {| terminals := terminals st; groups := groups st; terminalToGroup := terminalToGroup st;
     terminalOrder := terminalOrder st; activeTerminalId := activeTerminalId st;
     listWidth := listWidth st; persistedTerminals := persistedTerminals st;
     usedIndices := usedIndices st; effects := effects st ++ [e]; stored := stored st |}.

(** The setters unfold under [simpl], so that a field read after a chain
    of updates reduces to its value. *)
Arguments set_terminals _ _ /.
Arguments set_groups _ _ /.
Arguments set_terminalToGroup _ _ /.
Arguments set_terminalOrder _ _ /.
Arguments set_activeTerminalId _ _ /.
Arguments set_persistedTerminals _ _ /.
Arguments set_usedIndices _ _ /.
Arguments set_stored _ _ /.
Arguments emit _ _ /.

(** The state of a freshly constructed manager before
    [loadPersistedState]. *)
Definition initial : State :=
  {| terminals := ∅; groups := []; terminalToGroup := ∅; terminalOrder := [];
     activeTerminalId := None; listWidth := 180; persistedTerminals := [];
     usedIndices := ∅; effects := []; stored := None |}.

(** ** Index allocator *)

(** The [while (this.usedIndices.has(index)) index++] loop, bounded by
    [fuel] iterations; [None] when the bound is hit. *)
Fixpoint getNextIndex_loop (fuel : nat) (used : gset nat) (index : nat) : option nat :=
  match fuel with
  | O => None
  | S fuel' =>
      if decide (index ∈ used) then getNextIndex_loop fuel' used (S index)
      else Some index
  end.

(** [getNextIndex]: the loop started at 1, then [usedIndices.add(index)].
    The loop leaves within [size used + 1] tests
    (lemma [getNextIndex_loop_total]), so the default is never used. *)
Definition getNextIndex (used : gset nat) : nat * gset nat :=
  let index := default 0 (getNextIndex_loop (S (size used)) used 1) in
  (index, {[index]} ∪ used).

(** [releaseIndex] *)
Definition releaseIndex (index : option nat) (used : gset nat) : gset nat :=
  match index with
  | Some i => used ∖ {[i]}
  | None => used
  end.

(** ** The manager's operations *)

(** How a handler ends: by returning, or by an uncaught exception (a
    [TypeError] for a property read on [undefined], a [URIError] out of
    [decodeURIComponent]). *)
Inductive Completion := Returned | Threw.

(** What [parseOSC7] does with a chunk: [decodeURIComponent] throws a
    [URIError] when the captured path holds a malformed percent escape;
    otherwise the call returns the decoded path, or [undefined] when
    the chunk holds no OSC 7 sequence. *)
Inductive Parse := URIError | Parsed (cwd : option string).

Section Manager.
(** Host-side values and functions the manager only calls:
    [getWorkspaceCwd()], [TerminalManager.resolveColorKey] (a lookup in
    the live theme), [parseOSC7] (a regular-expression match whose
    captured path goes through [decodeURIComponent]), [parseOSC9] (a
    regular-expression match), the [bootty.notifications] setting and
    the constant [MAX_DATA_QUEUE_SIZE] of [terminal-utils.ts]. *)
Variable workspaceCwd : option string.
Variable resolveColorKey : string → option string.
Variable parseOSC7 : string → Parse.
Variable parseOSC9 : string → option string.
Variable notificationsEnabled : bool.
Variable MAX_DATA_QUEUE_SIZE : nat.

(** [postToTerminal] *)
Definition postToTerminal (id : TerminalId) (message : Message) (st : State) : State :=
  match terminals st !! id with
  | None => st
  | Some instance =>
      if negb (ready instance) then st
      else match location instance with
           | Editor => emit (EditorPost id message) st
           | Panel => emit (PanelPost message) st
           end
  end.

(** [spawnPty]: the spawn request, and the error dialog on failure. *)
Definition spawnPty (id : TerminalId) (cwd : option string) (result : SpawnResult)
    (st : State) : bool * State :=
  let st := emit (PtySpawn id cwd) st in
  match result with
  | SpawnError error =>
      (false, emit (ShowErrorMessage ("Failed to start terminal: " +:+ error)) st)
  | SpawnOk => (true, st)
  end.

(** [getTerminalIds] *)
Definition getTerminalIds (st : State) : list TerminalId :=
  filter (λ id, location <$> (terminals st !! id) = Some Panel) (terminalOrder st).

(** The [for] loop of [savePersistedState] from position [i] on. *)
Fixpoint savedTerminals (st : State) (i : nat) (order : list TerminalId)
    : list Persisted.terminal :=
  match order with
  | [] => []
  | id :: rest =>
      match terminals st !! id with
      | Some instance =>
          if decide (location instance = Panel) then
            {| Persisted.id := id;
               Persisted.index := index instance;
               Persisted.userTitle := Some (title instance);
               Persisted.icon := icon instance;
               Persisted.colorKey := colorKey instance;
               Persisted.color := color instance;
               Persisted.groupId := terminalToGroup st !! id;
               Persisted.orderIndex := i |} :: savedTerminals st (S i) rest
          else savedTerminals st (S i) rest
      | None => savedTerminals st (S i) rest
      end
  end.

(** [savePersistedState] *)
Definition savePersistedState (st : State) : State :=
  set_stored
    (Some {| Persisted.terminals := savedTerminals st 0 (terminalOrder st);
             Persisted.groups := JsMap.values (groups st);
             Persisted.activeTerminalId := activeTerminalId st;
             Persisted.listWidth := listWidth st |}) st.

(** [[...this.terminals.values()].filter((t) => t.location === "panel")] *)
Definition panelTerminals (st : State) : list TerminalInstance :=
  filter (λ t, location t = Panel) (map_to_list (terminals st)).*2.

(** [hasPanelTerminals] *)
Definition hasPanelTerminals (st : State) : bool :=
  bool_decide (panelTerminals st ≠ []).

(** [instance.readyTimeout = setTimeout(...)] on the instance stored
    under [id]. *)
Definition armReadyTimeout (id : TerminalId) (instance : TerminalInstance)
    (st : State) : State :=
  emit (SetReadyTimeout id)
    (set_terminals
       (<[id := {| location := location instance; config_cwd := config_cwd instance;
                   ready := ready instance; dataQueue := dataQueue instance;
                   title := title instance; index := index instance;
                   icon := icon instance; colorKey := colorKey instance;
                   color := color instance; currentCwd := currentCwd instance;
                   readyTimeout := true |}]> (terminals st)) st).

(** [createPanelTerminal]; [id] is the value of [createTerminalId()],
    [cwd] the [config?.cwd] of the call. *)
Definition createPanelTerminal (id : TerminalId) (cwd : option string)
    (result : SpawnResult) (st : State) : option TerminalId * State :=
  let '(idx, used) := getNextIndex (usedIndices st) in
  let st := set_usedIndices used st in
  let ttl := "Terminal " +:+ pretty idx in
  let instance :=
    {| location := Panel; config_cwd := cwd; ready := false; dataQueue := [];
       title := ttl; index := Some idx; icon := None; colorKey := None;
       color := None; currentCwd := None; readyTimeout := false |} in
  let st := set_terminals (<[id := instance]> (terminals st)) st in
  let '(ok, st) := spawnPty id cwd result st in
  if negb ok then
    let st := set_terminals (delete id (terminals st)) st in
    (None, set_usedIndices (releaseIndex (Some idx) (usedIndices st)) st)
  else
    let st := armReadyTimeout id instance st in
    let st := emit (PanelPost (AddTab id ttl true None None None None)) st in
    let st := set_terminalOrder (terminalOrder st ++ [id]) st in
    let st := set_activeTerminalId (Some id) st in
    (Some id, savePersistedState st).

(** [handlePtyData]; a [URIError] out of [parseOSC7] ends the handler
    before anything is written. *)
Definition handlePtyData (id : TerminalId) (data : string) (st : State)
    : Completion * State :=
  match terminals st !! id with
  | None => (Returned, st)
  | Some instance =>
      match parseOSC7 data with
      | URIError => (Threw, st)
      | Parsed cwd =>
          let cwd := truthyStr cwd in
          let instance :=
            match cwd with
            | Some c =>
                {| location := location instance; config_cwd := config_cwd instance;
                   ready := ready instance; dataQueue := dataQueue instance;
                   title := title instance; index := index instance;
                   icon := icon instance; colorKey := colorKey instance;
                   color := color instance; currentCwd := Some c;
                   readyTimeout := readyTimeout instance |}
            | None => instance
            end in
          let st := set_terminals (<[id := instance]> (terminals st)) st in
          let st :=
            match cwd with
            | Some c => if ready instance then postToTerminal id (UpdateCwd id c) st else st
            | None => st
            end in
          let st :=
            match truthyStr (parseOSC9 data) with
            | Some notification =>
                if notificationsEnabled then emit (ShowInformationMessage notification) st
                else st
            | None => st
            end in
          (Returned,
           if negb (ready instance) then
             if decide (length (dataQueue instance) < MAX_DATA_QUEUE_SIZE) then
               set_terminals
                 (<[id := {| location := location instance;
                             config_cwd := config_cwd instance;
                             ready := ready instance;
                             dataQueue := dataQueue instance ++ [data];
                             title := title instance; index := index instance;
                             icon := icon instance; colorKey := colorKey instance;
                             color := color instance; currentCwd := currentCwd instance;
                             readyTimeout := readyTimeout instance |}]> (terminals st)) st
             else st
           else postToTerminal id (PtyData id data) st)
      end
  end.

(** The group bookkeeping of [destroyTerminal]
    ([// Remove from any group]). *)
Definition destroyTerminal_group (id : TerminalId) (st : State) : State :=
  match truthyStr (terminalToGroup st !! id) with
  | None => st
  | Some groupId =>
      let st :=
        match JsMap.get groupId (groups st) with
        | None => st
        | Some group =>
            let members := removeFirst id (TerminalGroup.terminals group) in
            let group' := {| TerminalGroup.id := TerminalGroup.id group;
                             TerminalGroup.terminals := members |} in
            let st := set_groups (JsMap.set groupId group' (groups st)) st in
            if decide (length members ≤ 1) then
              let st := set_terminalToGroup
                          (foldl (λ m tid, delete tid m) (terminalToGroup st) members) st in
              let st := set_groups (JsMap.remove groupId (groups st)) st in
              emit (PanelPost (GroupDestroyed groupId)) st
            else
              emit (PanelPost (GroupCreated {| TerminalGroup.id := groupId;
                                               TerminalGroup.terminals := members |})) st
        end in
      set_terminalToGroup (delete id (terminalToGroup st)) st
  end.

(** [// Update active terminal if this was active] *)
Definition destroyTerminal_reselect (id : TerminalId) (st : State) : State :=
  if decide (activeTerminalId st = Some id) then
    set_activeTerminalId (last (getTerminalIds st)) st
  else st.

(** The end of [destroyTerminal]: the ready timer, the PTY and the
    [// Location-aware teardown]. *)
Definition destroyTerminal_teardown (id : TerminalId) (instance : TerminalInstance)
    (st : State) : State :=
  let st := if readyTimeout instance then emit (ClearReadyTimeout id) st else st in
  let st := emit (PtyKill id) st in
  match location instance with
  | Editor => emit (DisposeEditorPanel id) st
  | Panel =>
      let st := emit (PanelPost (RemoveTab id)) st in
      let st :=
        if decide (length (panelTerminals st) = 0) then
          emit (ExecuteCommand "workbench.action.closePanel") st
        else st in
      savePersistedState st
  end.

(** [destroyTerminal] *)
Definition destroyTerminal (id : TerminalId) (st : State) : State :=
  match terminals st !! id with
  | None => st
  | Some instance =>
      let st := set_terminals (delete id (terminals st)) st in
      let st := set_usedIndices (releaseIndex (index instance) (usedIndices st)) st in
      let st := set_terminalOrder (removeFirst id (terminalOrder st)) st in
      let st := destroyTerminal_group id st in
      let st := destroyTerminal_reselect id st in
      destroyTerminal_teardown id instance st
  end.

(** [createPanelTerminalForSplit]; [id] is the value of
    [createTerminalId()]. *)
Definition createPanelTerminalForSplit (id : TerminalId) (cwd : option string)
    (insertAfter : TerminalId) (result : SpawnResult) (st : State)
    : option TerminalId * State :=
  let '(idx, used) := getNextIndex (usedIndices st) in
  let st := set_usedIndices used st in
  let ttl := "Terminal " +:+ pretty idx in
  let instance :=
    {| location := Panel; config_cwd := cwd; ready := false; dataQueue := [];
       title := ttl; index := Some idx; icon := None; colorKey := None;
       color := None; currentCwd := None; readyTimeout := false |} in
  let st := set_terminals (<[id := instance]> (terminals st)) st in
  let '(ok, st) := spawnPty id cwd result st in
  if negb ok then
    let st := set_terminals (delete id (terminals st)) st in
    (None, set_usedIndices (releaseIndex (Some idx) (usedIndices st)) st)
  else
    let st := armReadyTimeout id instance st in
    let st := emit (PanelPost (AddTab id ttl false None None None (Some insertAfter))) st in
    let st := set_terminalOrder (insertAfterOrPush insertAfter id (terminalOrder st)) st in
    (Some id, st).

(** [handleSplitTerminal]; [newGroupId] and [newId] are the values of
    the two [createTerminalId()] calls (the first is only made for a
    standalone source). *)
Definition handleSplitTerminal (sourceTerminalId : TerminalId)
    (newGroupId newId : string) (result : SpawnResult) (st : State)
    : Completion * State :=
  match terminals st !! sourceTerminalId with
  | None => (Returned, st)
  | Some sourceInstance =>
      if decide (location sourceInstance ≠ Panel) then (Returned, st)
      else
        let '(groupId, st) :=
          match truthyStr (terminalToGroup st !! sourceTerminalId) with
          | Some groupId => (groupId, st)
          | None =>
              let group := {| TerminalGroup.id := newGroupId;
                              TerminalGroup.terminals := [sourceTerminalId] |} in
              let st := set_groups (JsMap.set newGroupId group (groups st)) st in
              (newGroupId,
               set_terminalToGroup
                 (<[sourceTerminalId := newGroupId]> (terminalToGroup st)) st)
          end in
        let cwd := match currentCwd sourceInstance with
                   | Some c => Some c
                   | None => workspaceCwd
                   end in
        let '(created, st) :=
          createPanelTerminalForSplit newId cwd sourceTerminalId result st in
        match truthyStr created with
        | None => (Returned, st)
        | Some newId =>
            match JsMap.get groupId (groups st) with
            | None => (Threw, st)
            | Some group =>
                let insertIndex :=
                  match indexOf sourceTerminalId (TerminalGroup.terminals group) with
                  | Some i => S i
                  | None => 0
                  end in
                let members := spliceIn insertIndex [newId] (TerminalGroup.terminals group) in
                let st := set_groups
                            (JsMap.set groupId
                               {| TerminalGroup.id := TerminalGroup.id group;
                                  TerminalGroup.terminals := members |} (groups st)) st in
                let st := set_terminalToGroup (<[newId := groupId]> (terminalToGroup st)) st in
                let st := emit (PanelPost (GroupCreated
                                  {| TerminalGroup.id := groupId;
                                     TerminalGroup.terminals := members |})) st in
                let st := emit (PanelPost (SplitTerminal newId newId groupId
                                             sourceTerminalId)) st in
                (Returned, savePersistedState st)
            end
        end
  end.

(** The part shared, line for line, by [handleUnsplitTerminal] and
    [handleUnsplitTerminalWithoutReorder]:
    [// Check if group should be destroyed]. *)
Definition unsplit_settleGroup (groupId : string) (members : list TerminalId)
    (st : State) : State :=
  if decide (length members ≤ 1) then
    let st := set_terminalToGroup
                (foldl (λ m tid, delete tid m) (terminalToGroup st) members) st in
    let st := set_groups (JsMap.remove groupId (groups st)) st in
    emit (PanelPost (GroupDestroyed groupId)) st
  else
    emit (PanelPost (GroupCreated {| TerminalGroup.id := groupId;
                                     TerminalGroup.terminals := members |})) st.

(** [handleUnsplitTerminal] *)
Definition handleUnsplitTerminal (terminalId : TerminalId) (st : State) : State :=
  match truthyStr (terminalToGroup st !! terminalId) with
  | None => st
  | Some groupId =>
      match JsMap.get groupId (groups st) with
      | None => st
      | Some group =>
          let members := removeFirst terminalId (TerminalGroup.terminals group) in
          let st := set_groups
                      (JsMap.set groupId
                         {| TerminalGroup.id := TerminalGroup.id group;
                            TerminalGroup.terminals := members |} (groups st)) st in
          let st := set_terminalToGroup (delete terminalId (terminalToGroup st)) st in
          let lastGroupTerminal := last members in
          let order := removeFirst terminalId (terminalOrder st) in
          let order :=
            match truthyStr lastGroupTerminal with
            | Some lastMember => insertAfterOrPush lastMember terminalId order
            | None => order ++ [terminalId]
            end in
          let st := set_terminalOrder order st in
          let st := unsplit_settleGroup groupId members st in
          let st := emit (PanelPost (UnsplitTerminal terminalId)) st in
          let st := emit (PanelPost (ReorderTerminals (terminalOrder st))) st in
          savePersistedState st
      end
  end.

(** [handleUnsplitTerminalWithoutReorder] *)
Definition handleUnsplitTerminalWithoutReorder (terminalId : TerminalId)
    (st : State) : State :=
  match truthyStr (terminalToGroup st !! terminalId) with
  | None => st
  | Some groupId =>
      match JsMap.get groupId (groups st) with
      | None => st
      | Some group =>
          let members := removeFirst terminalId (TerminalGroup.terminals group) in
          let st := set_groups
                      (JsMap.set groupId
                         {| TerminalGroup.id := TerminalGroup.id group;
                            TerminalGroup.terminals := members |} (groups st)) st in
          let st := set_terminalToGroup (delete terminalId (terminalToGroup st)) st in
          let st := unsplit_settleGroup groupId members st in
          emit (PanelPost (UnsplitTerminal terminalId)) st
      end
  end.

(** [handleJoinTerminal] *)
Definition handleJoinTerminal (terminalId : TerminalId) (targetGroupId : string)
    (st : State) : State :=
  match terminals st !! terminalId with
  | None => st
  | Some instance =>
      if decide (location instance ≠ Panel) then st
      else
        let st :=
          match truthyStr (terminalToGroup st !! terminalId) with
          | Some _ => handleUnsplitTerminalWithoutReorder terminalId st
          | None => st
          end in
        match JsMap.get targetGroupId (groups st) with
        | None => st
        | Some targetGroup =>
            let before := TerminalGroup.terminals targetGroup in
            let st := set_groups
                        (JsMap.set targetGroupId
                           {| TerminalGroup.id := TerminalGroup.id targetGroup;
                              TerminalGroup.terminals := before ++ [terminalId] |}
                           (groups st)) st in
            let st := set_terminalToGroup
                        (<[terminalId := targetGroupId]> (terminalToGroup st)) st in
            let order := removeFirst terminalId (terminalOrder st) in
            (* targetGroup.terminals[length - 2], after the push *)
            let order :=
              match last before with
              | Some lastTargetMember => insertAfterOrPush lastTargetMember terminalId order
              | None => order ++ [terminalId]
              end in
            let st := set_terminalOrder order st in
            let st := emit (PanelPost (GroupCreated
                              {| TerminalGroup.id := targetGroupId;
                                 TerminalGroup.terminals := before ++ [terminalId] |})) st in
            let st := emit (PanelPost (JoinTerminal terminalId targetGroupId)) st in
            let st := emit (PanelPost (ReorderTerminals (terminalOrder st))) st in
            savePersistedState st
        end
  end.

(** [loadPersistedState], given the value found under [STATE_KEY]. *)
Definition loadPersistedState (state : option Persisted.workspace) (st : State) : State :=
  match state with
  | None => st
  | Some state =>
      {| terminals := terminals st;
         groups :=
           foldl (λ m group,
                    JsMap.set (TerminalGroup.id group)
                      {| TerminalGroup.id := TerminalGroup.id group;
                         TerminalGroup.terminals := TerminalGroup.terminals group |} m)
                 (groups st) (Persisted.groups state);
         terminalToGroup := terminalToGroup st;
         terminalOrder := terminalOrder st;
         activeTerminalId := Persisted.activeTerminalId state;
         listWidth := Persisted.listWidth state;
         persistedTerminals := Persisted.terminals state;
         usedIndices :=
           foldl (λ used terminal,
                    match Persisted.index terminal with
                    | Some i => {[i]} ∪ used
                    | None => used
                    end)
                 (usedIndices st) (Persisted.terminals state);
         effects := effects st;
         stored := stored st |}
  end.

(** [createPanelTerminalForHydration] *)
Definition createPanelTerminalForHydration (persisted : Persisted.terminal)
    (result : SpawnResult) (st : State) : option TerminalId * State :=
  let id := Persisted.id persisted in
  let '(idx, st) :=
    match Persisted.index persisted with
    | Some i => (i, st)
    | None => let '(i, used) := getNextIndex (usedIndices st) in
              (i, set_usedIndices used st)
    end in
  let ttl := match Persisted.userTitle persisted with
             | Some t => t
             | None => "Terminal " +:+ pretty idx
             end in
  let key := Persisted.colorKey persisted in
  let clr := match truthyStr key with
             | Some k => resolveColorKey k
             | None => Persisted.color persisted
             end in
  let instance :=
    {| location := Panel; config_cwd := None; ready := false; dataQueue := [];
       title := ttl; index := Some idx; icon := Persisted.icon persisted;
       colorKey := key; color := clr; currentCwd := None; readyTimeout := false |} in
  let st := set_terminals (<[id := instance]> (terminals st)) st in
  let '(ok, st) := spawnPty id workspaceCwd result st in
  if negb ok then
    let st := set_terminals (delete id (terminals st)) st in
    (None, set_usedIndices (releaseIndex (Some idx) (usedIndices st)) st)
  else
    let st := armReadyTimeout id instance st in
    let st := emit (PanelPost (AddTab id ttl false (Persisted.icon persisted) clr
                                 (Persisted.groupId persisted) None)) st in
    let st := set_terminalOrder (terminalOrder st ++ [id]) st in
    (Some id, st).

(** The first [for] loop of [handlePanelReady]; [spawnAt i] is the
    result of the spawn made for the [i]-th persisted descriptor. *)
Fixpoint hydrateTerminals (spawnAt : nat → SpawnResult) (i : nat)
    (todo : list Persisted.terminal) (st : State) : State :=
  match todo with
  | [] => st
  | persisted :: rest =>
      let '(newId, st) := createPanelTerminalForHydration persisted (spawnAt i) st in
      let st :=
        match truthyStr newId, truthyStr (Persisted.groupId persisted) with
        | Some newId, Some groupId =>
            set_terminalToGroup (<[newId := groupId]> (terminalToGroup st)) st
        | _, _ => st
        end in
      hydrateTerminals spawnAt (S i) rest st
  end.

(** The second [for] loop of [handlePanelReady]. *)
Definition emitGroups (st : State) : State :=
  foldl (λ st group,
           emit (PanelPost (GroupCreated
                   {| TerminalGroup.id := TerminalGroup.id group;
                      TerminalGroup.terminals := TerminalGroup.terminals group |})) st)
        st (JsMap.values (groups st)).

(** [handlePanelReady]; [autoId] and [autoSpawn] are the fresh id and
    the spawn result of the auto-created terminal, used only when no
    panel terminal exists after the replay. *)
Definition handlePanelReady (spawnAt : nat → SpawnResult) (autoId : TerminalId)
    (autoSpawn : SpawnResult) (st : State) : State :=
  let st := emit (PanelPost (HydrateState (listWidth st))) st in
  let savedActiveId := activeTerminalId st in
  let st := hydrateTerminals spawnAt 0 (persistedTerminals st) st in
  let st := emitGroups st in
  let st := set_persistedTerminals [] st in
  if decide (length (panelTerminals st) = 0) then
    (createPanelTerminal autoId None autoSpawn st).2
  else
    match truthyStr savedActiveId with
    | Some savedActiveId =>
        if decide (is_Some (terminals st !! savedActiveId)) then
          emit (PanelPost FocusTerminal) (emit (PanelPost (ActivateTab savedActiveId)) st)
        else st
    | None => st
    end.

(** [handleTerminalReady] *)
Definition handleTerminalReady (id : TerminalId) (cols rows : nat) (st : State) : State :=
  match terminals st !! id with
  | None => st
  | Some instance =>
      let st := if readyTimeout instance then emit (ClearReadyTimeout id) st else st in
      let st := emit (PtyResize id cols rows) st in
      let st :=
        set_terminals
          (<[id := {| location := location instance; config_cwd := config_cwd instance;
                      ready := true; dataQueue := dataQueue instance;
                      title := title instance; index := index instance;
                      icon := icon instance; colorKey := colorKey instance;
                      color := color instance; currentCwd := currentCwd instance;
                      readyTimeout := false |}]> (terminals st)) st in
      let st := postToTerminal id (UpdateSettings id) st in
      let st := postToTerminal id (UpdateTheme id) st in
      let st := postToTerminal id UpdateConfig st in
      let st := foldl (λ st data, postToTerminal id (PtyData id data) st) st
                      (dataQueue instance) in
      set_terminals
        (<[id := {| location := location instance; config_cwd := config_cwd instance;
                    ready := true; dataQueue := [];
                    title := title instance; index := index instance;
                    icon := icon instance; colorKey := colorKey instance;
                    color := color instance; currentCwd := currentCwd instance;
                    readyTimeout := false |}]> (terminals st)) st
  end.

(** [handleTerminalsReordered] *)
Definition handleTerminalsReordered (terminalIds : list TerminalId) (st : State) : State :=
  savePersistedState (set_terminalOrder terminalIds st).

(** Inbound events: the panel messages routed by [handlePanelMessage]
    to the handlers above, and the PTY data callback.  An event carries
    the values the host supplies while it is handled (fresh ids, spawn
    results).  Messages that open a prompt and editor terminals are not
    covered; the group-reorder and group-selected messages are added by
    [PanelEvent] below. *)
Inductive Event :=
| PanelReady (spawnAt : nat → SpawnResult) (autoId : string) (autoSpawn : SpawnResult)
| TerminalReady (terminalId : string) (cols rows : nat)
| TabActivated (terminalId : string) (cols rows : nat)
| TabCloseRequested (terminalId : string)
| NewTabRequested (newId : string) (result : SpawnResult)
| TerminalSelected (terminalId : string)
| SplitRequested (terminalId newGroupId newId : string) (result : SpawnResult)
| UnsplitRequested (terminalId : string)
| JoinRequested (terminalId targetGroupId : string)
| TerminalsReordered (terminalIds : list string)
| OnData (terminalId data : string).

(** [handlePanelMessage], and [onData] of [spawnPty]. *)
Definition handleEvent (e : Event) (st : State) : State :=
  match e with
  | PanelReady spawnAt autoId autoSpawn => handlePanelReady spawnAt autoId autoSpawn st
  | TerminalReady terminalId cols rows => handleTerminalReady terminalId cols rows st
  | TabActivated terminalId cols rows =>
      set_activeTerminalId (Some terminalId) (emit (PtyResize terminalId cols rows) st)
  | TabCloseRequested terminalId => destroyTerminal terminalId st
  | NewTabRequested newId result =>
      emit (PanelPost FocusTerminal) (createPanelTerminal newId workspaceCwd result st).2
  | TerminalSelected terminalId =>
      savePersistedState (set_activeTerminalId (Some terminalId) st)
  | SplitRequested terminalId newGroupId newId result =>
      (handleSplitTerminal terminalId newGroupId newId result st).2
  | UnsplitRequested terminalId => handleUnsplitTerminal terminalId st
  | JoinRequested terminalId targetGroupId => handleJoinTerminal terminalId targetGroupId st
  | TerminalsReordered terminalIds => handleTerminalsReordered terminalIds st
  | OnData terminalId data => (handlePtyData terminalId data st).2
  end.

(** The states a manager constructed on the stored snapshot [snapshot]
    goes through. *)
Inductive reachable (snapshot : option Persisted.workspace) : State → Prop :=
| reachable_constructed : reachable snapshot (loadPersistedState snapshot initial)
| reachable_event e st :
    reachable snapshot st → reachable snapshot (handleEvent e st).

End Manager.

(** ** The terminal list of the panel webview ([TerminalList]) *)

Module TerminalList.

(** [TerminalListItem] *)
Record Item := {
  id : string;
  title : string;
  icon : option string;
  color : option string;
  groupId : option string;
  hasBell : option bool
}.

(** [TerminalListState]; [selectedTerminalIds] is a [Set], kept as the
    list of its elements in insertion order. *)
Record ListState := {
  items : list Item;
  groups : list TerminalGroup.t;
  listWidth : nat;
  selectedTerminalIds : list string;
  focusedTerminalId : option string;
  lastSelectedId : option string;
  activeTerminalId : option string
}.

(** [Set.prototype.add] *)
Definition setAdd (x : string) (s : list string) : list string :=
  if decide (x ∈ s) then s else s ++ [x].

(** [const item = items.find((i) => i.id === id);
     if (item) item.hasBell = false;] *)
Fixpoint clearBell (x : string) (l : list Item) : list Item :=
  match l with
  | [] => []
  | i :: l' =>
      if decide (id i = x) then
        {| id := id i; title := title i; icon := icon i; color := color i;
           groupId := groupId i; hasBell := Some false |} :: l'
      else i :: clearBell x l'
  end.

(** [setSelected] *)
Definition setSelected (x : option string) (s : ListState) : ListState :=
  {| items := items s; groups := groups s; listWidth := listWidth s;
     selectedTerminalIds :=
       match truthyStr x with
       | Some x => setAdd x []
       | None => []
       end;
     focusedTerminalId := None;
     lastSelectedId :=
       match truthyStr x with
       | Some x => Some x
       | None => None
       end;
     activeTerminalId := activeTerminalId s |}.

(** [setFocused] *)
Definition setFocused (x : option string) (s : ListState) : ListState :=
  {| items := match truthyStr x with
              | Some x => clearBell x (items s)
              | None => items s
              end;
     groups := groups s; listWidth := listWidth s;
     selectedTerminalIds := selectedTerminalIds s;
     focusedTerminalId := x;
     lastSelectedId := lastSelectedId s;
     activeTerminalId := activeTerminalId s |}.

(** [setActive] *)
Definition setActive (x : option string) (s : ListState) : ListState :=
  match truthyStr x with
  | Some y =>
      {| items := clearBell y (items s);
         groups := groups s; listWidth := listWidth s;
         selectedTerminalIds := setAdd y [];
         focusedTerminalId := focusedTerminalId s;
         lastSelectedId := Some y;
         activeTerminalId := x |}
  | None =>
      {| items := items s; groups := groups s; listWidth := listWidth s;
         selectedTerminalIds := selectedTerminalIds s;
         focusedTerminalId := focusedTerminalId s;
         lastSelectedId := lastSelectedId s;
         activeTerminalId := x |}
  end.

End TerminalList.

(** ** Reading the effect trace *)

(** The host is asked to start a session or to show a new tab. *)
Definition opensSession (e : HostEffect) : bool :=
  match e with
  | PtySpawn _ _ => true
  | PanelPost (AddTab _ _ _ _ _ _ _) => true
  | _ => false
  end.

(** The panel is asked to change what is selected or focused:
    [activate-tab], [focus-terminal], or [add-tab] with [makeActive]. *)
Definition selectsOrFocuses (e : HostEffect) : bool :=
  match e with
  | PanelPost (ActivateTab _) => true
  | PanelPost FocusTerminal => true
  | PanelPost (AddTab _ _ makeActive _ _ _ _) => makeActive
  | _ => false
  end.

(** The [group-created] messages of a trace, in order. *)
Definition groupMessages (trace : list HostEffect) : list TerminalGroup.t :=
  omap (λ e, match e with
             | PanelPost (GroupCreated group) => Some group
             | _ => None
             end) trace.

(** The ids for which the panel was told to add a tab, in order. *)
Definition addedTabs (trace : list HostEffect) : list TerminalId :=
  omap (λ e, match e with
             | PanelPost (AddTab id _ _ _ _ _ _) => Some id
             | _ => None
             end) trace.

(** The ids for which a PTY spawn was requested, in order. *)
Definition spawnRequests (trace : list HostEffect) : list TerminalId :=
  omap (λ e, match e with
             | PtySpawn id _ => Some id
             | _ => None
             end) trace.

(** The persisted descriptors, from position [i] on, whose spawn
    succeeds. *)
Fixpoint surviving (spawnAt : nat → SpawnResult) (i : nat)
    (todo : list Persisted.terminal) : list TerminalId :=
  match todo with
  | [] => []
  | persisted :: rest =>
      match spawnAt i with
      | SpawnOk => Persisted.id persisted :: surviving spawnAt (S i) rest
      | SpawnError _ => surviving spawnAt (S i) rest
      end
  end.

(** Every group in the [groups] map has at least two members. *)
Definition groupsHaveTwo (st : State) : Prop :=
  ∀ groupId group, JsMap.get groupId (groups st) = Some group →
                   2 ≤ length (TerminalGroup.terminals group).

(** No [dataQueue] holds more than [cap] chunks. *)
Definition queuesBounded (cap : nat) (st : State) : Prop :=
  ∀ id instance, terminals st !! id = Some instance →
                 length (dataQueue instance) ≤ cap.

(** Every instance of [t'] has an empty queue or is the instance that [t]
    holds under the same id. *)
Definition queuesKept (t t' : gmap string TerminalInstance) : Prop :=
  ∀ id instance', t' !! id = Some instance' →
                  dataQueue instance' = [] ∨ t !! id = Some instance'.

(** ** Sample runs

    States reached from a fresh manager by the handlers above, used to
    evaluate the handlers on concrete inputs. *)

Module Samples.

(** A host without workspace folder, theme colors or OSC sequences in
    the output, and a queue cap of 8. *)
Definition handle : Event → State → State :=
  handleEvent None (λ _, None) (λ _, Parsed None) (λ _, None) true 8.

Definition run (events : list Event) (st : State) : State :=
  foldl (λ st e, handle e st) st events.

(** The instance a successful "new tab" registers for ordinal [n]. *)
Definition created (n : nat) : TerminalInstance :=
  {| location := Panel; config_cwd := None; ready := false; dataQueue := [];
     title := "Terminal " +:+ pretty n; index := Some n; icon := None;
     colorKey := None; color := None; currentCwd := None; readyTimeout := true |}.

(** One, two and three standalone panel terminals. *)
Definition one : State := run [NewTabRequested "t1" SpawnOk] initial.
Definition two : State := run [NewTabRequested "t2" SpawnOk] one.
Definition three : State := run [NewTabRequested "t3" SpawnOk] two.

(** Terminals 2 and 3 alive, ordinal 1 free again. *)
Definition gap : State := run [TabCloseRequested "t1"] three.

(** [t1] split once: group [g1] with panes [t1; t2]. *)
Definition pair : State := run [SplitRequested "t1" "g1" "t2" SpawnOk] one.

(** [pair] plus a standalone terminal [t3]; its snapshot is what a
    restart finds in the workspace state. *)
Definition pairAndOne : State := run [NewTabRequested "t3" SpawnOk] pair.

(** [t1] alone, after a split request whose spawn failed. *)
Definition failedSplit : State :=
  run [SplitRequested "t1" "g1" "t2" (SpawnError "ENOENT")] one.

(** Reachable on that host, from a manager constructed without a
    stored snapshot. *)
Definition reached (st : State) : Prop :=
  reachable None (λ _, None) (λ _, Parsed None) (λ _, None) true 8 None st.

(** A fresh manager after [loadPersistedState] of that snapshot. *)
Definition restarted : State := loadPersistedState (stored pairAndOne) initial.

(** A chunk with an OSC 7 sequence whose path ends in a lone [%], and a
    [parseOSC7] that throws on it as [decodeURIComponent] does. *)
Definition malformedOSC7 : string :=
  String (Ascii.ascii_of_nat 27) "]7;file://host/tmp/100%" +:+
  String (Ascii.ascii_of_nat 7) "".

Definition decodeFails (data : string) : Parse :=
  if decide (data = malformedOSC7) then URIError else Parsed None.

(** The spawn for the second persisted descriptor ([t2]) fails. *)
Definition secondFails (i : nat) : SpawnResult :=
  match i with
  | 1 => SpawnError "ENOENT"
  | _ => SpawnOk
  end.

Definition listItem (x : string) : TerminalList.Item :=
  {| TerminalList.id := x; TerminalList.title := x; TerminalList.icon := None;
     TerminalList.color := None; TerminalList.groupId := None;
     TerminalList.hasBell := None |}.

(** A list showing and focusing [a], with a second terminal [b]. *)
Definition focusedOnA : TerminalList.ListState :=
  TerminalList.setFocused (Some "a")
    (TerminalList.setActive (Some "a")
       {| TerminalList.items := [listItem "a"; listItem "b"];
          TerminalList.groups := []; TerminalList.listWidth := 180;
          TerminalList.selectedTerminalIds := [];
          TerminalList.focusedTerminalId := None;
          TerminalList.lastSelectedId := None;
          TerminalList.activeTerminalId := None |}).

End Samples.

(** ** Further observations on runs *)

(** A split request whose spawn succeeds and whose fresh terminal id is a
    non-empty string; every other event qualifies. *)
Definition splitSucceeds (e : Event) : Prop :=
  match e with
  | SplitRequested _ _ newId result => result = SpawnOk ∧ newId ≠ ""
  | _ => True
  end.


(** ** Group reordering, grouping a selection, PTY errors *)

(** What [handleGroupReordered] and [handleGroupSelectedTerminals] do
    to [terminalOrder]: [findIndex] of the first listed id; if there is
    one, [filter] the listed ids out and [splice] the list in at that
    index. *)
Definition regroupOrder (ids order : list TerminalId) : list TerminalId :=
  match list_find (λ id, id ∈ ids) order with
  | Some (firstIndex, _) => spliceIn firstIndex ids (filter (λ id, id ∉ ids) order)
  | None => order
  end.

(** [handleGroupReordered] *)
Definition handleGroupReordered (groupId : string) (terminalIds : list TerminalId)
    (st : State) : State :=
  match JsMap.get groupId (groups st) with
  | None => st
  | Some group =>
      let st := set_groups
                  (JsMap.set groupId
                     {| TerminalGroup.id := TerminalGroup.id group;
                        TerminalGroup.terminals := terminalIds |} (groups st)) st in
      let st := set_terminalOrder (regroupOrder terminalIds (terminalOrder st)) st in
      let st := emit (PanelPost (GroupCreated
                        {| TerminalGroup.id := groupId;
                           TerminalGroup.terminals := terminalIds |})) st in
      savePersistedState st
  end.

(** One round of the loop
    [// Remove any selected terminals from their current groups first]
    of [handleGroupSelectedTerminals]. *)
Definition groupSelected_detach (id : TerminalId) (st : State) : State :=
  match truthyStr (terminalToGroup st !! id) with
  | None => st
  | Some existingGroupId =>
      let st :=
        match JsMap.get existingGroupId (groups st) with
        | None => st
        | Some existingGroup =>
            let members := filter (λ tid, tid ≠ id) (TerminalGroup.terminals existingGroup) in
            let existingGroup' := {| TerminalGroup.id := TerminalGroup.id existingGroup;
                                     TerminalGroup.terminals := members |} in
            let st := set_groups (JsMap.set existingGroupId existingGroup' (groups st)) st in
            if decide (length members ≤ 1) then
              let st := set_terminalToGroup
                          (foldl (λ m remainingId, delete remainingId m)
                                 (terminalToGroup st) members) st in
              let st := set_groups (JsMap.remove existingGroupId (groups st)) st in
              emit (PanelPost (GroupDestroyed existingGroupId)) st
            else
              emit (PanelPost (GroupCreated existingGroup')) st
        end in
      set_terminalToGroup (delete id (terminalToGroup st)) st
  end.

(** [handleGroupSelectedTerminals]; [groupId] is the value of
    [createTerminalId()]. *)
Definition handleGroupSelectedTerminals (terminalIds : list TerminalId)
    (groupId : string) (st : State) : State :=
  if decide (length terminalIds < 2) then st
  else
    let validIds :=
      filter (λ id, location <$> (terminals st !! id) = Some Panel) terminalIds in
    if decide (length validIds < 2) then st
    else
      let st := foldl (λ st id, groupSelected_detach id st) st validIds in
      let group := {| TerminalGroup.id := groupId; TerminalGroup.terminals := validIds |} in
      let st := set_groups (JsMap.set groupId group (groups st)) st in
      let st := set_terminalToGroup
                  (foldl (λ m id, <[id := groupId]> m) (terminalToGroup st) validIds) st in
      let st := set_terminalOrder (regroupOrder validIds (terminalOrder st)) st in
      let st := emit (PanelPost (GroupCreated group)) st in
      savePersistedState st.

(** [String.prototype.includes] *)
Fixpoint includes (needle hay : string) : bool :=
  String.prefix needle hay ||
  match hay with
  | EmptyString => false
  | String _ rest => includes needle rest
  end.

(** [handlePtyError]; [message] is [error.message]. *)
Definition handlePtyError (id : TerminalId) (message : string) (st : State) : State :=
  match terminals st !! id with
  | None => st
  | Some _ =>
      let isExpectedClose := includes "EIO" message || includes "EOF" message in
      let st := if negb isExpectedClose
                then emit (ShowErrorMessage ("Terminal error: " +:+ message)) st
                else st in
      destroyTerminal id st
  end.

(** Every group is stored under its own id. *)
Definition groupsKeyed (st : State) : Prop :=
  Forall (λ entry, entry.1 = TerminalGroup.id entry.2) (groups st).

(** ** The color palette ([TERMINAL_COLORS], [resolveColorKey]) *)

Module Colors.

Record ColorDef := {
  id : string;
  label : string;
  description : string;
  themeKey : string;
  fallback : string
}.

Definition TERMINAL_COLORS : list ColorDef :=
  [ {| id := "red"; label := "Red"; description := "terminal.ansiRed";
       themeKey := "red"; fallback := "#f14c4c" |};
    {| id := "orange"; label := "Orange"; description := "terminal.ansiBrightRed";
       themeKey := "brightRed"; fallback := "#f5a623" |};
    {| id := "yellow"; label := "Yellow"; description := "terminal.ansiYellow";
       themeKey := "yellow"; fallback := "#e2c541" |};
    {| id := "green"; label := "Green"; description := "terminal.ansiGreen";
       themeKey := "green"; fallback := "#4fb86e" |};
    {| id := "blue"; label := "Blue"; description := "terminal.ansiBlue";
       themeKey := "blue"; fallback := "#3b8eea" |};
    {| id := "purple"; label := "Purple"; description := "terminal.ansiBrightMagenta";
       themeKey := "brightMagenta"; fallback := "#a95ec7" |};
    {| id := "magenta"; label := "Magenta"; description := "terminal.ansiMagenta";
       themeKey := "magenta"; fallback := "#e3699e" |};
    {| id := "cyan"; label := "Cyan"; description := "terminal.ansiCyan";
       themeKey := "cyan"; fallback := "#4ec9b0" |} ].

(** [resolveColorKey]; [theme] is the value of [resolveTerminalTheme()],
    read by key ([theme[colorDef.themeKey]]). *)
Definition resolveColorKey (theme : string → option string) (colorKey : string)
    : option string :=
  match list_find (λ c, id c = colorKey) TERMINAL_COLORS with
  | None => None
  | Some (_, colorDef) =>
      match theme (themeKey colorDef) with
      | Some value => Some value
      | None => Some (fallback colorDef)
      end
  end.

End Colors.

(** ** The panel view provider ([BooTTYPanelViewProvider])

    The message queue of [src/panel-view-provider.ts].  [view] is
    [_view] together with its [visible] flag, which the host changes
    only by firing [onDidChangeVisibility]; [delivered] records the
    [webview.postMessage] calls, oldest first. *)

Module PanelProvider.

Record t := {
  view : option bool;
  isReady : bool;
  messageQueue : list Message;
  delivered : list Message
}.

(** A constructed provider. *)
Definition created : t :=
  {| view := None; isReady := false; messageQueue := []; delivered := [] |}.

(** [_flushMessageQueue] *)
Definition flushMessageQueue (p : t) : t :=
  match view p with
  | None => p
  | Some _ =>
      if negb (isReady p) then p
      else {| view := view p; isReady := isReady p; messageQueue := [];
              delivered := delivered p ++ messageQueue p |}
  end.

(** [postMessage] *)
Definition postMessage (message : Message) (p : t) : t :=
  if isReady p && default false (view p) then
    {| view := view p; isReady := isReady p; messageQueue := messageQueue p;
       delivered := delivered p ++ [message] |}
  else
    {| view := view p; isReady := isReady p;
       messageQueue := messageQueue p ++ [message]; delivered := delivered p |}.

(** [resolveWebviewView]; [visible] is the new view's flag. *)
Definition resolveWebviewView (visible : bool) (p : t) : t :=
  {| view := Some visible; isReady := false; messageQueue := messageQueue p;
     delivered := delivered p |}.

(** The [onDidChangeVisibility] listener (registered on the current
    view). *)
Definition onDidChangeVisibility (visible : bool) (p : t) : t :=
  match view p with
  | None => p
  | Some _ =>
      let p := {| view := Some visible; isReady := isReady p;
                  messageQueue := messageQueue p; delivered := delivered p |} in
      if visible && isReady p then flushMessageQueue p else p
  end.

(** The [onDidDispose] listener. *)
Definition onDidDispose (p : t) : t :=
  match view p with
  | None => p
  | Some _ => {| view := None; isReady := false; messageQueue := messageQueue p;
                 delivered := delivered p |}
  end.

(** The [onDidReceiveMessage] listener on a ["panel-ready"] message,
    up to the call of the message handler. *)
Definition onPanelReady (p : t) : t :=
  match view p with
  | None => p
  | Some _ =>
      flushMessageQueue {| view := view p; isReady := true;
                           messageQueue := messageQueue p; delivered := delivered p |}
  end.

(** What happens to a provider: the host's callbacks and the manager's
    posts. *)
Inductive Step :=
| Resolve (visible : bool)
| VisibilityChanged (visible : bool)
| Disposed
| PanelReadyReceived
| Post (message : Message).

Definition step (e : Step) (p : t) : t :=
  match e with
  | Resolve visible => resolveWebviewView visible p
  | VisibilityChanged visible => onDidChangeVisibility visible p
  | Disposed => onDidDispose p
  | PanelReadyReceived => onPanelReady p
  | Post message => postMessage message p
  end.

Definition run (steps : list Step) (p : t) : t := foldl (λ p e, step e p) p steps.

(** The messages posted during the steps, in order. *)
Definition posted (steps : list Step) : list Message :=
  omap (λ e, match e with Post message => Some message | _ => None end) steps.

(** While the view is ready and visible the queue is empty. *)
Definition drained (p : t) : Prop :=
  isReady p = true → view p = Some true → messageQueue p = [].

End PanelProvider.

(** ** The items of the terminal list ([TerminalList], continued) *)

Module ListItems.
Import TerminalList.

Definition with_items (v : list Item) (s : ListState) : ListState :=
  {| items := v; groups := groups s; listWidth := listWidth s;
     selectedTerminalIds := selectedTerminalIds s;
     focusedTerminalId := focusedTerminalId s;
     lastSelectedId := lastSelectedId s;
     activeTerminalId := activeTerminalId s |}.

Definition with_groups (v : list TerminalGroup.t) (s : ListState) : ListState :=
  {| items := items s; groups := v; listWidth := listWidth s;
     selectedTerminalIds := selectedTerminalIds s;
     focusedTerminalId := focusedTerminalId s;
     lastSelectedId := lastSelectedId s;
     activeTerminalId := activeTerminalId s |}.

Arguments with_items _ _ /.
Arguments with_groups _ _ /.

(** [items.find((i) => i.id === x)] *)
Definition findItem (x : string) (l : list Item) : option Item :=
  snd <$> list_find (λ i, id i = x) l.

(** [items.findIndex((i) => i.id === x)] *)
Definition findItemIndex (x : string) (l : list Item) : option nat :=
  fst <$> list_find (λ i, id i = x) l.

(** [groups.find((g) => g.id === x)] *)
Definition findGroup (x : string) (l : list TerminalGroup.t) : option TerminalGroup.t :=
  snd <$> list_find (λ g, TerminalGroup.id g = x) l.

Definition setGroupId (v : option string) (i : Item) : Item :=
  {| id := id i; title := title i; icon := icon i; color := color i;
     groupId := v; hasBell := hasBell i |}.

(** [const item = items.find((i) => i.id === x);
     if (item) item.groupId = v;] *)
Fixpoint assignGroup (x : string) (v : option string) (l : list Item) : list Item :=
  match l with
  | [] => []
  | i :: l' => if decide (id i = x) then setGroupId v i :: l' else i :: assignGroup x v l'
  end.

(** [getTerminalIds] *)
Definition getTerminalIds (s : ListState) : list string := id <$> items s.

(** [addTerminal] *)
Definition addTerminal (item : Item) (insertAfter : option string) (s : ListState)
    : ListState :=
  with_items
    match findItemIndex (id item) (items s) with
    | Some existingIndex => <[existingIndex := item]> (items s)
    | None =>
        match truthyStr insertAfter with
        | Some insertAfter =>
            match findItemIndex insertAfter (items s) with
            | Some afterIndex =>
                take (S afterIndex) (items s) ++ item :: drop (S afterIndex) (items s)
            | None => items s ++ [item]
            end
        | None => items s ++ [item]
        end
    end s.

(** [removeTerminal] *)
Definition removeTerminal (x : string) (s : ListState) : ListState :=
  {| items := filter (λ item, id item ≠ x) (items s);
     groups := groups s; listWidth := listWidth s;
     selectedTerminalIds := filter (λ y, y ≠ x) (selectedTerminalIds s);
     focusedTerminalId :=
       if decide (focusedTerminalId s = Some x) then None else focusedTerminalId s;
     lastSelectedId :=
       if decide (lastSelectedId s = Some x) then None else lastSelectedId s;
     activeTerminalId := activeTerminalId s |}.

(** The reordering at the end of [updateGroup]
    ([// Reorder state.items to match the new group order]). *)
Definition updateGroup_reorder (members : list string) (l : list Item) : list Item :=
  match list_find (λ i, id i ∈ members) l with
  | None => l
  | Some (firstIndex, _) =>
      let groupItems := filter (λ i, id i ∈ members) l in
      let beforeItems := filter (λ i, id i ∉ members) (take firstIndex l) in
      let afterItems := filter (λ i, id i ∉ members) (drop firstIndex l) in
      let orderedGroupItems := omap (λ tid, findItem tid groupItems) members in
      beforeItems ++ orderedGroupItems ++ afterItems
  end.

(** [updateGroup] *)
Definition updateGroup (group : TerminalGroup.t) (s : ListState) : ListState :=
  let s :=
    with_groups
      match list_find (λ g, TerminalGroup.id g = TerminalGroup.id group) (groups s) with
      | Some (existingIndex, _) => <[existingIndex := group]> (groups s)
      | None => groups s ++ [group]
      end s in
  let s :=
    with_items
      (foldl (λ l terminalId, assignGroup terminalId (Some (TerminalGroup.id group)) l)
             (items s) (TerminalGroup.terminals group)) s in
  with_items (updateGroup_reorder (TerminalGroup.terminals group) (items s)) s.

(** [removeGroup] *)
Definition removeGroup (x : string) (s : ListState) : ListState :=
  let s := with_groups (filter (λ g, TerminalGroup.id g ≠ x) (groups s)) s in
  with_items
    ((λ item, if decide (groupId item = Some x) then setGroupId None item else item)
       <$> items s) s.

(** [reorderItems]; [itemMap.get(x)] is the last item with id [x]. *)
Definition reorderItems (terminalIds : list string) (s : ListState) : ListState :=
  with_items
    (omap (λ x, last (filter (λ item, id item = x) (items s))) terminalIds) s.

(** What the list reports to its owner ([TerminalListEvents]). *)
Inductive Emitted :=
| OnSelect (x : string)
| OnReorder (ids : list string)
| OnGroupReorder (groupId : string) (terminalIds : list string).

(** [handleItemClick]; the event's [metaKey], [ctrlKey] and [shiftKey]
    and whether [navigator.platform] names a Mac are arguments. *)
Definition handleItemClick (x : string) (isMac metaKey ctrlKey shiftKey : bool)
    (s : ListState) : ListState * list Emitted :=
  let ctrlOrCmd := if isMac then metaKey else ctrlKey in
  if ctrlOrCmd then
    if decide (x ∈ selectedTerminalIds s) then
      let remaining := filter (λ y, y ≠ x) (selectedTerminalIds s) in
      ({| items := items s; groups := groups s; listWidth := listWidth s;
          selectedTerminalIds := remaining;
          focusedTerminalId := None;
          lastSelectedId :=
            if decide (lastSelectedId s = Some x) then last remaining
            else lastSelectedId s;
          activeTerminalId := activeTerminalId s |}, [])
    else
      ({| items := items s; groups := groups s; listWidth := listWidth s;
          selectedTerminalIds := setAdd x (selectedTerminalIds s);
          focusedTerminalId := None;
          lastSelectedId := Some x;
          activeTerminalId := activeTerminalId s |}, [])
  else
    match (if shiftKey then truthyStr (lastSelectedId s) else None) with
    | Some anchor =>
        match findItemIndex anchor (items s), findItemIndex x (items s) with
        | Some startIndex, Some endIndex =>
            let from := if decide (startIndex < endIndex) then startIndex else endIndex in
            let to := if decide (startIndex < endIndex) then endIndex else startIndex in
            ({| items := items s; groups := groups s; listWidth := listWidth s;
                selectedTerminalIds :=
                  foldl (λ sel item, setAdd (id item) sel) (selectedTerminalIds s)
                        (take (S to - from) (drop from (items s)));
                focusedTerminalId := None;
                lastSelectedId := lastSelectedId s;
                activeTerminalId := activeTerminalId s |}, [])
        | _, _ => (s, [])
        end
    | None =>
        let clickedItem := findItem x (items s) in
        let visible :=
          match truthyStr (clickedItem ≫= groupId), truthyStr (activeTerminalId s) with
          | Some clickedGroup, Some active =>
              bool_decide ((findItem active (items s) ≫= groupId) = Some clickedGroup)
          | _, _ => false
          end in
        if visible then (s, [])
        else
          ({| items := clearBell x (items s); groups := groups s;
              listWidth := listWidth s;
              selectedTerminalIds := setAdd x [];
              focusedTerminalId := None;
              lastSelectedId := Some x;
              activeTerminalId := Some x |}, [OnSelect x])
    end.

(** One round of the outer loop of [reorderItemsToMatchGroups]; the
    accumulator is [newItems] and [renderedIds]. *)
Definition matchGroups_step (s : ListState) (acc : list Item * list string)
    (item : Item) : list Item * list string :=
  let '(newItems, renderedIds) := acc in
  if decide (id item ∈ renderedIds) then acc
  else
    match truthyStr (groupId item) with
    | Some g =>
        match findGroup g (groups s) with
        | Some group =>
            foldl (λ acc tid,
                     match findItem tid (items s) with
                     | Some groupItem =>
                         if decide (tid ∈ acc.2) then acc
                         else (acc.1 ++ [groupItem], setAdd tid acc.2)
                     | None => acc
                     end)
                  acc (TerminalGroup.terminals group)
        | None => acc
        end
    | None => (newItems ++ [item], setAdd (id item) renderedIds)
    end.

(** [reorderItemsToMatchGroups] *)
Definition reorderItemsToMatchGroups (s : ListState) : ListState :=
  with_items (foldl (matchGroups_step s) ([], []) (items s)).1 s.

(** [group.terminals.splice(sourceIdx, 1);
     group.terminals.splice(targetIdx, 0, sourceId)] on the first group
    with id [g]. *)
Fixpoint moveInGroup (g : string) (sourceIdx targetIdx : nat) (sourceId : string)
    (l : list TerminalGroup.t) : list TerminalGroup.t :=
  match l with
  | [] => []
  | group :: l' =>
      if decide (TerminalGroup.id group = g) then
        {| TerminalGroup.id := TerminalGroup.id group;
           TerminalGroup.terminals :=
             spliceIn targetIdx [sourceId]
               (spliceOut sourceIdx (TerminalGroup.terminals group)) |} :: l'
      else group :: moveInGroup g sourceIdx targetIdx sourceId l'
  end.

(** [handleReorder] *)
Definition handleReorder (sourceId targetId : string)
    (sourceGroupId targetGroupId : option string) (s : ListState)
    : ListState * list Emitted :=
  match findItem sourceId (items s), findItem targetId (items s) with
  | Some _, Some _ =>
      let notify s := (s, [OnReorder (id <$> items s)]) in
      match truthyStr sourceGroupId with
      | Some g =>
          if decide (sourceGroupId = targetGroupId) then
            (* Case 1 *)
            match findGroup g (groups s) with
            | Some group =>
                match indexOf sourceId (TerminalGroup.terminals group),
                      indexOf targetId (TerminalGroup.terminals group) with
                | Some sourceIdx, Some targetIdx =>
                    let s := with_groups
                               (moveInGroup g sourceIdx targetIdx sourceId (groups s)) s in
                    let s := reorderItemsToMatchGroups s in
                    (s, [OnGroupReorder g
                           (spliceIn targetIdx [sourceId]
                              (spliceOut sourceIdx (TerminalGroup.terminals group)))])
                | _, _ => notify s
                end
            | None => notify s
            end
          else
            (* Case 2 *)
            match findGroup g (groups s) with
            | Some _ =>
                let groupItems := filter (λ i, groupId i = Some g) (items s) in
                let others := filter (λ i, groupId i ≠ Some g) (items s) in
                match findItemIndex targetId others with
                | Some targetIndex =>
                    notify (with_items
                              (take targetIndex others ++ groupItems ++
                               drop targetIndex others) s)
                | None => notify (with_items (others ++ groupItems) s)
                end
            | None => notify s
            end
      | None =>
          (* Case 3 *)
          match findItemIndex sourceId (items s), findItemIndex targetId (items s) with
          | Some sourceIndex, Some targetIndex =>
              match items s !! sourceIndex with
              | Some removed =>
                  let rest := delete sourceIndex (items s) in
                  notify (with_items
                            (take targetIndex rest ++ removed :: drop targetIndex rest) s)
              | None => notify s
              end
          | _, _ => notify s
          end
      end
  | _, _ => (s, [])
  end.

(** The accumulator of [reorderItemsToMatchGroups] is in order:
    [renderedIds] lists the ids of [newItems], without repetition, and
    [newItems] holds items of the list. *)
Definition matched (s : ListState) (acc : list Item * list string) : Prop :=
  id <$> acc.1 = acc.2 ∧ NoDup acc.2 ∧ ∀ item, item ∈ acc.1 → item ∈ items s.

End ListItems.

(** ** Restarting on a stored snapshot *)

(** A manager constructed on the snapshot that [st] has stored, after
    its first [panel-ready], every replayed spawn succeeding. *)
Definition restart (workspaceCwd : option string)
    (resolveColorKey : string → option string) (autoId : TerminalId)
    (autoSpawn : SpawnResult) (st : State) : State :=
  handlePanelReady workspaceCwd resolveColorKey (λ _, SpawnOk) autoId autoSpawn
    (loadPersistedState (stored st) initial).

(** The instance [createPanelTerminalForHydration] registers for a
    descriptor once its spawn has succeeded, given the ordinal. *)
Definition hydrated (resolveColorKey : string → option string)
    (persisted : Persisted.terminal) (idx : nat) : TerminalInstance :=
  {| location := Panel; config_cwd := None; ready := false; dataQueue := [];
     title := match Persisted.userTitle persisted with
              | Some t => t
              | None => "Terminal " +:+ pretty idx
              end;
     index := Some idx; icon := Persisted.icon persisted;
     colorKey := Persisted.colorKey persisted;
     color := match truthyStr (Persisted.colorKey persisted) with
              | Some k => resolveColorKey k
              | None => Persisted.color persisted
              end;
     currentCwd := None; readyTimeout := true |}.

(** ** The remaining state-changing panel messages *)

(** [handleTabRenamed] *)
Definition handleTabRenamed (id : TerminalId) (newTitle : string) (st : State) : State :=
  match terminals st !! id with
  | None => st
  | Some instance =>
      savePersistedState
        (set_terminals
           (<[id := {| location := location instance; config_cwd := config_cwd instance;
                       ready := ready instance; dataQueue := dataQueue instance;
                       title := newTitle; index := index instance;
                       icon := icon instance; colorKey := colorKey instance;
                       color := color instance; currentCwd := currentCwd instance;
                       readyTimeout := readyTimeout instance |}]> (terminals st)) st)
  end.

(** [handleListWidthChanged] *)
Definition handleListWidthChanged (width : nat) (st : State) : State :=
  savePersistedState
    {| terminals := terminals st; groups := groups st;
       terminalToGroup := terminalToGroup st; terminalOrder := terminalOrder st;
       activeTerminalId := activeTerminalId st; listWidth := width;
       persistedTerminals := persistedTerminals st; usedIndices := usedIndices st;
       effects := effects st; stored := stored st |}.

Section PanelMessages.
Variable workspaceCwd : option string.
Variable resolveColorKey : string → option string.
Variable parseOSC7 : string → Parse.
Variable parseOSC9 : string → option string.
Variable notificationsEnabled : bool.
Variable MAX_DATA_QUEUE_SIZE : nat.

(** The events above together with the [tab-renamed],
    [group-reordered], [list-width-changed] and
    [group-selected-requested] messages of [handlePanelMessage];
    [newGroupId] is the value of [createTerminalId()].  Not embedded:
    the rename, color and icon prompts, and the messages
    [handlePanelMessage] passes on to [handleWebviewMessage] (terminal
    input and resize, links, file checks, the bell). *)
Inductive PanelEvent :=
| Embedded (e : Event)
| TabRenamed (terminalId newTitle : string)
| GroupReordered (groupId : string) (terminalIds : list string)
| ListWidthChanged (width : nat)
| GroupSelectedRequested (terminalIds : list string) (newGroupId : string).

Definition handlePanelEvent (e : PanelEvent) (st : State) : State :=
  match e with
  | Embedded e =>
      handleEvent workspaceCwd resolveColorKey parseOSC7 parseOSC9 notificationsEnabled
        MAX_DATA_QUEUE_SIZE e st
  | TabRenamed terminalId newTitle => handleTabRenamed terminalId newTitle st
  | GroupReordered groupId terminalIds => handleGroupReordered groupId terminalIds st
  | ListWidthChanged width => handleListWidthChanged width st
  | GroupSelectedRequested terminalIds newGroupId =>
      handleGroupSelectedTerminals terminalIds newGroupId st
  end.
End PanelMessages.

(** A split request whose spawn succeeds (with a non-empty fresh id), a
    [group-reordered] message that lists at least two ids; every other
    event qualifies. *)
Definition keepsPairs (e : PanelEvent) : Prop :=
  match e with
  | Embedded e => splitSucceeds e
  | GroupReordered _ terminalIds => 2 ≤ length terminalIds
  | _ => True
  end.

(** * Properties *)

(** ** The index allocator *)

Section Allocator.
Implicit Types (used : gset nat) (index fuel : nat).

Lemma getNextIndex_loop_sound fuel used index n :
  getNextIndex_loop fuel used index = Some n →
  index ≤ n ∧ (n ∉ used) ∧ ∀ k, (index ≤ k < n) → k ∈ used.
Proof.
  revert index. induction fuel as [|fuel IH]; intros index; simpl; [done|].
  destruct (decide (index ∈ used)) as [Hin|Hnin].
  - intros Hn. destruct (IH _ Hn) as (Hle & Hfree & Hbelow).
    split; [lia|]. split; [done|].
    intros k Hk. destruct (decide (k = index)) as [->|Hne]; [done|].
    apply Hbelow. lia.
  - intros [= <-]. split; [lia|]. split; [done|]. intros k Hk. lia.
Qed.

(** The loop leaves once it has stepped over every used index that is
    at least [index]: [X] bounds those still ahead. *)
Lemma getNextIndex_loop_enough fuel used index (X : gset nat) :
  (∀ x, x ∈ used → index ≤ x → x ∈ X) →
  size X < fuel →
  is_Some (getNextIndex_loop fuel used index).
Proof.
  revert index X. induction fuel as [|fuel IH]; intros index X Hcover Hsize; [lia|].
  simpl. destruct (decide (index ∈ used)) as [Hin|Hnin]; [|by eexists].
  apply (IH (S index) (X ∖ {[index]})).
  - intros x Hx Hle. apply elem_of_difference. split.
    + apply Hcover; [done|lia].
    + rewrite elem_of_singleton. lia.
  - assert (index ∈ X) as HX by (apply Hcover; [done|lia]).
    rewrite size_difference by (apply singleton_subseteq_l; done).
    rewrite size_singleton.
    assert (size X ≠ 0); [|lia].
    intros Hz. apply size_empty_inv in Hz. set_solver.
Qed.

Lemma getNextIndex_loop_total used :
  is_Some (getNextIndex_loop (S (size used)) used 1).
Proof. apply (getNextIndex_loop_enough _ _ _ used); [done|lia]. Qed.

Lemma getNextIndex_spec used :
  1 ≤ (getNextIndex used).1 ∧
  ((getNextIndex used).1 ∉ used) ∧
  (∀ k, (1 ≤ k < (getNextIndex used).1) → k ∈ used) ∧
  (getNextIndex used).2 = {[(getNextIndex used).1]} ∪ used.
Proof.
  destruct (getNextIndex_loop_total used) as [n Hn].
  unfold getNextIndex. rewrite Hn. simpl.
  destruct (getNextIndex_loop_sound _ _ _ _ Hn) as (? & ? & ?). done.
Qed.

(** The smallest free index is determined by its specification. *)
Lemma getNextIndex_unique used n :
  1 ≤ n → n ∉ used → (∀ k, (1 ≤ k < n) → k ∈ used) →
  (getNextIndex used).1 = n.
Proof.
  intros Hpos Hfree Hbelow.
  destruct (getNextIndex_spec used) as (Hpos' & Hfree' & Hbelow' & _).
  destruct (Nat.lt_trichotomy (getNextIndex used).1 n) as [Hlt|[Heq|Hgt]]; [|done|].
  - exfalso. apply Hfree'. apply Hbelow. lia.
  - exfalso. apply Hfree. apply Hbelow'. lia.
Qed.
End Allocator.

(** ** Frame lemmas *)

(** Case analysis on every [match], [if] and [decide] a handler goes
    through. *)
Ltac branches :=
  repeat (simpl in *;
          first [ progress simplify_eq
                | case_decide
                | case_match ]);
  simpl in *.

Lemma destroyTerminal_group_terminals id st :
  terminals (destroyTerminal_group id st) = terminals st.
Proof. unfold destroyTerminal_group. branches; reflexivity. Qed.

Lemma destroyTerminal_group_terminalOrder id st :
  terminalOrder (destroyTerminal_group id st) = terminalOrder st.
Proof. unfold destroyTerminal_group. branches; reflexivity. Qed.

Lemma destroyTerminal_group_activeTerminalId id st :
  activeTerminalId (destroyTerminal_group id st) = activeTerminalId st.
Proof. unfold destroyTerminal_group. branches; reflexivity. Qed.

Lemma destroyTerminal_group_usedIndices id st :
  usedIndices (destroyTerminal_group id st) = usedIndices st.
Proof. unfold destroyTerminal_group. branches; reflexivity. Qed.

Lemma destroyTerminal_teardown_frame id instance st :
  terminals (destroyTerminal_teardown id instance st) = terminals st ∧
  groups (destroyTerminal_teardown id instance st) = groups st ∧
  terminalToGroup (destroyTerminal_teardown id instance st) = terminalToGroup st ∧
  terminalOrder (destroyTerminal_teardown id instance st) = terminalOrder st ∧
  usedIndices (destroyTerminal_teardown id instance st) = usedIndices st ∧
  activeTerminalId (destroyTerminal_teardown id instance st) = activeTerminalId st.
Proof.
  unfold destroyTerminal_teardown, savePersistedState.
  repeat split; branches; reflexivity.
Qed.

Lemma destroyTerminal_reselect_frame id st :
  terminals (destroyTerminal_reselect id st) = terminals st ∧
  groups (destroyTerminal_reselect id st) = groups st ∧
  terminalToGroup (destroyTerminal_reselect id st) = terminalToGroup st ∧
  terminalOrder (destroyTerminal_reselect id st) = terminalOrder st ∧
  usedIndices (destroyTerminal_reselect id st) = usedIndices st ∧
  effects (destroyTerminal_reselect id st) = effects st.
Proof. unfold destroyTerminal_reselect. repeat split; branches; reflexivity. Qed.

(** What [destroyTerminal] leaves in the fields a later selection reads. *)
Lemma destroyTerminal_fields id st instance :
  terminals st !! id = Some instance →
  terminals (destroyTerminal id st) = delete id (terminals st) ∧
  terminalOrder (destroyTerminal id st) = removeFirst id (terminalOrder st) ∧
  usedIndices (destroyTerminal id st) = releaseIndex (index instance) (usedIndices st) ∧
  activeTerminalId (destroyTerminal id st) =
    if decide (activeTerminalId st = Some id)
    then last (filter (λ x, location <$> (delete id (terminals st) !! x) = Some Panel)
                      (removeFirst id (terminalOrder st)))
    else activeTerminalId st.
Proof.
  intros Hget. unfold destroyTerminal. rewrite Hget. cbv zeta.
  set (st0 := set_terminalOrder _ _).
  destruct (destroyTerminal_teardown_frame id instance
              (destroyTerminal_reselect id (destroyTerminal_group id st0)))
    as (-> & _ & _ & -> & -> & ->).
  destruct (destroyTerminal_reselect_frame id (destroyTerminal_group id st0))
    as (-> & _ & _ & -> & -> & _).
  rewrite destroyTerminal_group_terminals, destroyTerminal_group_terminalOrder,
    destroyTerminal_group_usedIndices.
  repeat split.
  unfold destroyTerminal_reselect, getTerminalIds.
  rewrite destroyTerminal_group_activeTerminalId.
  destruct (decide (activeTerminalId st0 = Some id)) as [Ha|Ha]; simpl in Ha.
  - rewrite decide_True by done. simpl.
    by rewrite destroyTerminal_group_terminals, destroyTerminal_group_terminalOrder.
  - rewrite decide_False by done. by rewrite destroyTerminal_group_activeTerminalId.
Qed.

(** ** JavaScript arrays and maps *)

Section Arrays.
Implicit Types (x y : string) (l : list string).

Lemma indexOf_None x l : indexOf x l = None ↔ x ∉ l.
Proof.
  induction l as [|y l IH]; simpl.
  - split; [intros _; apply not_elem_of_nil|done].
  - destruct (decide (y = x)) as [->|Hne].
    + split; [done|]. intros Hn. exfalso. apply Hn. left.
    + rewrite not_elem_of_cons. destruct (indexOf x l); simpl.
      * split; [done|]. intros [_ Hn]. apply IH in Hn. done.
      * split; [|done]. intros _. split; [done|]. by apply IH.
Qed.

Lemma indexOf_Some x l i :
  indexOf x l = Some i →
  ∃ pre post, l = pre ++ x :: post ∧ (x ∉ pre) ∧ length pre = i.
Proof.
  revert i. induction l as [|y l IH]; intros i; simpl; [done|].
  destruct (decide (y = x)) as [->|Hne].
  - intros [= <-]. exists [], l. split; [done|]. split; [apply not_elem_of_nil|done].
  - destruct (indexOf x l) as [j|] eqn:Hj; simpl; [|done].
    intros [= <-]. destruct (IH j eq_refl) as (pre & post & -> & Hpre & Hlen).
    exists (y :: pre), post. split; [done|]. split.
    + rewrite not_elem_of_cons. done.
    + simpl. by rewrite Hlen.
Qed.

Lemma indexOf_elem x l : x ∈ l → is_Some (indexOf x l).
Proof.
  intros Hin. destruct (indexOf x l) eqn:Hi; [by eexists|].
  apply indexOf_None in Hi. done.
Qed.

(** [removeFirst] takes out the first occurrence and nothing else. *)
Lemma removeFirst_split x l :
  x ∈ l →
  ∃ pre post, l = pre ++ x :: post ∧ (x ∉ pre) ∧ removeFirst x l = pre ++ post.
Proof.
  intros Hin. unfold removeFirst, spliceOut.
  destruct (indexOf_elem _ _ Hin) as [i Hi]. rewrite Hi.
  destruct (indexOf_Some _ _ _ Hi) as (pre & post & -> & Hpre & Hlen).
  exists pre, post. split; [done|]. split; [done|].
  subst i. clear. induction pre as [|p pre IH]; simpl; [done|]. by rewrite IH.
Qed.

Lemma removeFirst_absent x l : x ∉ l → removeFirst x l = l.
Proof. intros Hn. unfold removeFirst. apply indexOf_None in Hn. by rewrite Hn. Qed.

Lemma removeFirst_elem_ne x y l : y ≠ x → y ∈ removeFirst x l ↔ y ∈ l.
Proof.
  intros Hne. destruct (decide (x ∈ l)) as [Hin|Hn].
  - destruct (removeFirst_split _ _ Hin) as (pre & post & -> & _ & ->).
    rewrite !elem_of_app, elem_of_cons. tauto.
  - by rewrite removeFirst_absent.
Qed.

Lemma removeFirst_NoDup x l :
  NoDup l → NoDup (removeFirst x l) ∧ x ∉ removeFirst x l.
Proof.
  intros Hnd. destruct (decide (x ∈ l)) as [Hin|Hn].
  - destruct (removeFirst_split _ _ Hin) as (pre & post & -> & Hpre & ->).
    apply NoDup_app in Hnd as (Hndpre & Hdisj & Hndpost).
    apply NoDup_cons in Hndpost as (Hxpost & Hndpost).
    split.
    + apply NoDup_app. split; [done|]. split; [|done].
      intros z Hz Hz'. apply (Hdisj z Hz). by right.
    + rewrite elem_of_app. intros [?|?]; done.
  - rewrite removeFirst_absent by done. done.
Qed.

Lemma removeFirst_length x l :
  x ∈ l → S (length (removeFirst x l)) = length l.
Proof.
  intros Hin. destruct (removeFirst_split _ _ Hin) as (pre & post & -> & _ & ->).
  rewrite !length_app. simpl. lia.
Qed.

(** With the anchor present, the new element lands right behind the
    anchor's first occurrence. *)
Lemma insertAfterOrPush_present anchor x l :
  anchor ∈ l →
  ∃ pre post, l = pre ++ anchor :: post ∧ (anchor ∉ pre) ∧
              insertAfterOrPush anchor x l = pre ++ anchor :: x :: post.
Proof.
  intros Hin. unfold insertAfterOrPush, spliceIn.
  destruct (indexOf_elem _ _ Hin) as [i Hi]. rewrite Hi.
  destruct (indexOf_Some _ _ _ Hi) as (pre & post & -> & Hpre & Hlen).
  exists pre, post. split; [done|]. split; [done|]. subst i.
  replace (S (length pre)) with (length (pre ++ [anchor]))
    by (rewrite length_app; simpl; lia).
  replace (pre ++ anchor :: post) with ((pre ++ [anchor]) ++ post)
    by (by rewrite <- app_assoc).
  rewrite take_app_length, drop_app_length. by rewrite <- app_assoc.
Qed.

Lemma insertAfterOrPush_absent anchor x l :
  anchor ∉ l → insertAfterOrPush anchor x l = l ++ [x].
Proof. intros Hn. unfold insertAfterOrPush. apply indexOf_None in Hn. by rewrite Hn. Qed.
End Arrays.

Section JsMapFacts.
Context {V : Type}.
Implicit Types (k : string) (v : V) (m : list (string * V)).

Lemma JsMap_get_set_eq k v m : JsMap.get k (JsMap.set k v m) = Some v.
Proof.
  induction m as [|[k' v'] m IH]; simpl.
  - case_decide; done.
  - destruct (decide (k' = k)) as [->|Hne]; simpl; case_decide; done.
Qed.

Lemma JsMap_get_set_ne k k' v m :
  k ≠ k' → JsMap.get k' (JsMap.set k v m) = JsMap.get k' m.
Proof.
  intros Hne. induction m as [|[k0 v0] m IH]; simpl.
  - case_decide; done.
  - destruct (decide (k0 = k)) as [->|Hne0]; simpl; repeat case_decide; done.
Qed.

Lemma JsMap_get_remove_eq k m : JsMap.get k (JsMap.remove k m) = None.
Proof.
  induction m as [|[k' v'] m IH]; simpl; [done|].
  destruct (decide (k' = k)) as [->|Hne]; simpl; [done|].
  case_decide; done.
Qed.

Lemma JsMap_get_remove_ne k k' m :
  k ≠ k' → JsMap.get k' (JsMap.remove k m) = JsMap.get k' m.
Proof.
  intros Hne. induction m as [|[k0 v0] m IH]; simpl; [done|].
  destruct (decide (k0 = k)) as [->|Hne0]; simpl; repeat case_decide; done.
Qed.
End JsMapFacts.

(** [for (const tid of members) this.terminalToGroup.delete(tid)] *)
Lemma lookup_delete_all (m : gmap string string) (members : list string) (k : string) :
  foldl (λ m tid, delete tid m) m members !! k =
  if decide (k ∈ members) then None else m !! k.
Proof.
  revert m. induction members as [|x members IH]; intros m; cbn [foldl].
  - destruct (decide (k ∈ [])) as [Hin|_]; [|done]. by apply not_elem_of_nil in Hin.
  - rewrite IH. rewrite lookup_delete.
    destruct (decide (k ∈ members)) as [Hin|Hn];
      destruct (decide (k ∈ x :: members)) as [Hin'|Hn'];
      destruct (decide (x = k)) as [->|Hne]; try done.
    + exfalso. apply Hn'. by right.
    + exfalso. apply Hn'. by right.
    + exfalso. apply elem_of_cons in Hin' as [->|?]; done.
    + exfalso. apply Hn'. left.
Qed.

(** ** The sample runs *)

Lemma run_reachable workspaceCwd resolveColorKey parseOSC7 parseOSC9
    notificationsEnabled cap snapshot events st :
  reachable workspaceCwd resolveColorKey parseOSC7 parseOSC9 notificationsEnabled cap
    snapshot st →
  reachable workspaceCwd resolveColorKey parseOSC7 parseOSC9 notificationsEnabled cap
    snapshot
    (foldl (λ st e, handleEvent workspaceCwd resolveColorKey parseOSC7 parseOSC9
                      notificationsEnabled cap e st) st events).
Proof.
  revert st. induction events as [|e events IH]; intros st Hst; simpl; [done|].
  apply IH. by constructor.
Qed.

Lemma run_reached events st :
  Samples.reached st → Samples.reached (Samples.run events st).
Proof. apply run_reachable. Qed.

Lemma one_reached : Samples.reached Samples.one.
Proof. apply run_reached. apply reachable_constructed. Qed.

Lemma one_terminals : terminals Samples.one = {["t1" := Samples.created 1]}.
Proof. by vm_compute. Qed.

Lemma one_only id instance :
  terminals Samples.one !! id = Some instance → id = "t1" ∧ instance = Samples.created 1.
Proof.
  rewrite one_terminals. intros Hget.
  apply lookup_singleton_Some in Hget as [<- <-]. done.
Qed.

(** ** Destroying a terminal *)

Lemma panelTerminals_ext st st' :
  terminals st = terminals st' → panelTerminals st = panelTerminals st'.
Proof. unfold panelTerminals. by intros ->. Qed.

Lemma elem_of_panelTerminals st instance :
  instance ∈ panelTerminals st ↔
  location instance = Panel ∧ ∃ id, terminals st !! id = Some instance.
Proof.
  unfold panelTerminals. rewrite list_elem_of_filter, list_elem_of_fmap.
  split.
  - intros (Hloc & [id inst] & -> & Hin). apply elem_of_map_to_list in Hin.
    split; [done|]. by exists id.
  - intros (Hloc & id & Hget). split; [done|].
    exists (id, instance). split; [done|]. by apply elem_of_map_to_list.
Qed.

Lemma panelTerminals_nil st :
  panelTerminals st = [] ↔
  ∀ id instance, terminals st !! id = Some instance → location instance ≠ Panel.
Proof.
  split.
  - intros Hnil id instance Hget Hloc.
    assert (instance ∈ panelTerminals st) as Hin
      by (apply elem_of_panelTerminals; eauto).
    rewrite Hnil in Hin. by apply not_elem_of_nil in Hin.
  - intros Hnone. destruct (panelTerminals st) as [|instance rest] eqn:Hp; [done|].
    assert (instance ∈ panelTerminals st) as Hin by (rewrite Hp; left).
    apply elem_of_panelTerminals in Hin as (Hloc & id & Hget).
    by destruct (Hnone id instance Hget).
Qed.

(** Without panel terminals [getTerminalIds] is empty, whatever the
    order list holds. *)
Lemma getTerminalIds_nil st : panelTerminals st = [] → getTerminalIds st = [].
Proof.
  intros Hnil. unfold getTerminalIds.
  destruct (filter _ (terminalOrder st)) as [|x rest] eqn:Hf; [done|].
  assert (x ∈ filter (λ id, location <$> terminals st !! id = Some Panel)
                     (terminalOrder st)) as Hin by (rewrite Hf; left).
  apply list_elem_of_filter in Hin as [Hloc _].
  destruct (terminals st !! x) as [instance|] eqn:Hget; [|done].
  simpl in Hloc. injection Hloc as Hloc.
  by destruct (proj1 (panelTerminals_nil st) Hnil x instance Hget).
Qed.

(** The trace of the group bookkeeping: at most one group message. *)
Lemma destroyTerminal_group_effects id st :
  ∃ added, effects (destroyTerminal_group id st) = effects st ++ added ∧
           Forall (λ e, opensSession e = false ∧ selectsOrFocuses e = false) added.
Proof.
  unfold destroyTerminal_group. branches;
    first [ by exists []; rewrite app_nil_r
          | eexists; split; [reflexivity|]; repeat constructor ].
Qed.

(** The panel terminals in order, after a destroy. *)
Lemma destroyTerminal_getTerminalIds id st instance :
  terminals st !! id = Some instance →
  getTerminalIds (destroyTerminal id st) =
    filter (λ x, location <$> (delete id (terminals st) !! x) = Some Panel)
           (removeFirst id (terminalOrder st)).
Proof.
  intros Hget.
  destruct (destroyTerminal_fields id st instance Hget) as (Ht & Ho & _).
  unfold getTerminalIds. by rewrite Ht, Ho.
Qed.

(** C10.  [destroyTerminal] of a registered terminal: if it was the
    selected one ([activeTerminalId]), the selection moves to the last
    panel terminal of the remaining order list, and to [null] when that
    list holds no panel terminal; otherwise [activeTerminalId] is left
    alone.  The remaining list is the old order without the destroyed
    id, filtered by [getTerminalIds]. *)
Theorem destroyTerminal_activeTerminalId id st instance :
  terminals st !! id = Some instance →
  (activeTerminalId st = Some id →
     activeTerminalId (destroyTerminal id st) =
       last (getTerminalIds (destroyTerminal id st))) ∧
  (activeTerminalId st ≠ Some id →
     activeTerminalId (destroyTerminal id st) = activeTerminalId st) ∧
  getTerminalIds (destroyTerminal id st) =
    filter (λ x, location <$> (delete id (terminals st) !! x) = Some Panel)
           (removeFirst id (terminalOrder st)).
Proof.
  intros Hget.
  destruct (destroyTerminal_fields id st instance Hget) as (_ & _ & _ & Ha).
  pose proof (destroyTerminal_getTerminalIds id st instance Hget) as Hg.
  split; [|split; [|done]].
  - intros Hactive. rewrite Ha, Hg. by rewrite decide_True.
  - intros Hother. rewrite Ha. by rewrite decide_False.
Qed.

Lemma destroyTerminal_activeTerminalId_witness :
  terminals Samples.two !! "t2" = Some (Samples.created 2) ∧
  activeTerminalId Samples.two = Some "t2" ∧
  activeTerminalId (destroyTerminal "t2" Samples.two) = Some "t1".
Proof.
  split; [reflexivity|]. split; [reflexivity|].
  rewrite (proj1 (destroyTerminal_activeTerminalId "t2" Samples.two
                    (Samples.created 2) eq_refl) eq_refl).
  reflexivity.
Defined.

(** The trace [destroyTerminal] adds for a panel terminal: group
    bookkeeping, the timer, the kill, the tab removal and, with no panel
    terminal left, the request to close the panel. *)
Lemma destroyTerminal_panel_effects id st instance :
  terminals st !! id = Some instance →
  location instance = Panel →
  ∃ added,
    Forall (λ e, opensSession e = false ∧ selectsOrFocuses e = false) added ∧
    effects (destroyTerminal id st) =
      effects st ++ added ++ [PtyKill id; PanelPost (RemoveTab id)] ++
      (if decide (length (panelTerminals (destroyTerminal id st)) = 0)
       then [ExecuteCommand "workbench.action.closePanel"] else []).
Proof.
  intros Hget Hloc.
  destruct (destroyTerminal_fields id st instance Hget) as (Ht & _).
  rewrite (panelTerminals_ext (destroyTerminal id st)
             (set_terminals (delete id (terminals st)) st)) by (by rewrite Ht).
  unfold destroyTerminal. rewrite Hget. cbv zeta.
  set (st0 := set_terminalOrder _ _).
  destruct (destroyTerminal_group_effects id st0) as (g & Hg & Hquiet).
  destruct (destroyTerminal_reselect_frame id (destroyTerminal_group id st0))
    as (Ht1 & _ & _ & _ & _ & He1).
  rewrite destroyTerminal_group_terminals in Ht1. rewrite Hg in He1.
  set (st1 := destroyTerminal_reselect id _) in *. clearbody st1.
  simpl in Ht1, He1.
  unfold destroyTerminal_teardown, savePersistedState. rewrite Hloc.
  destruct (readyTimeout instance); simpl.
  - exists (g ++ [ClearReadyTimeout id]). split.
    { apply Forall_app. split; [done|]. repeat constructor. }
    erewrite (panelTerminals_ext _ (set_terminals (delete id (terminals st)) st))
      by (simpl; exact Ht1).
    destruct (decide (length _ = 0)); simpl; rewrite He1, <- ?app_assoc; reflexivity.
  - exists g. split; [done|].
    erewrite (panelTerminals_ext _ (set_terminals (delete id (terminals st)) st))
      by (simpl; exact Ht1).
    destruct (decide (length _ = 0)); simpl; rewrite He1, <- ?app_assoc; reflexivity.
Qed.

(** C2, as the code has it.  Destroying the only panel terminal removes
    it and creates nothing in its place: no panel terminal is left, the
    selection (if it was on that terminal) becomes [null], no session is
    spawned and no tab is added, selected or focused; the last thing the
    handler asks of the host is to close the panel. *)
Theorem destroyTerminal_last_panel_terminal id st instance :
  terminals st !! id = Some instance →
  location instance = Panel →
  (∀ id' instance', terminals st !! id' = Some instance' →
                    location instance' = Panel → id' = id) →
  terminals (destroyTerminal id st) = delete id (terminals st) ∧
  panelTerminals (destroyTerminal id st) = [] ∧
  (activeTerminalId st = Some id → activeTerminalId (destroyTerminal id st) = None) ∧
  ∃ added, effects (destroyTerminal id st) = effects st ++ added ∧
           last added = Some (ExecuteCommand "workbench.action.closePanel") ∧
           Forall (λ e, opensSession e = false ∧ selectsOrFocuses e = false) added.
Proof.
  intros Hget Hloc Honly.
  destruct (destroyTerminal_fields id st instance Hget) as (Ht & Ho & _ & Ha).
  assert (panelTerminals (destroyTerminal id st) = []) as Hnone.
  { apply panelTerminals_nil. intros id' instance' Hget' Hloc'. rewrite Ht in Hget'.
    apply lookup_delete_Some in Hget' as [Hne Hget']. apply Hne. symmetry. eauto. }
  split; [done|]. split; [done|]. split.
  - intros Hactive. rewrite Ha, decide_True by done.
    rewrite <- (destroyTerminal_getTerminalIds id st instance Hget).
    by rewrite (getTerminalIds_nil _ Hnone).
  - destruct (destroyTerminal_panel_effects id st instance Hget Hloc)
      as (g & Hquiet & He).
    rewrite Hnone in He. simpl in He.
    eexists. split; [exact He|]. split.
    + rewrite last_app. reflexivity.
    + apply Forall_app. split; [done|]. repeat constructor.
Qed.

Lemma destroyTerminal_last_panel_terminal_witness :
  terminals Samples.one !! "t1" = Some (Samples.created 1) ∧
  panelTerminals (destroyTerminal "t1" Samples.one) = [] ∧
  activeTerminalId (destroyTerminal "t1" Samples.one) = None.
Proof.
  assert (∀ id' instance', terminals Samples.one !! id' = Some instance' →
                           location instance' = Panel → id' = "t1") as Honly.
  { intros id' instance' Hget _. by destruct (one_only id' instance' Hget). }
  destruct (destroyTerminal_last_panel_terminal "t1" Samples.one (Samples.created 1)
              eq_refl eq_refl Honly) as (_ & Hnone & Hactive & _).
  split; [reflexivity|]. split; [exact Hnone|]. apply Hactive. reflexivity.
Defined.

(** C2, as the spec words it, fails on a manager with one panel
    terminal: after [destroyTerminal] no session exists, nothing is
    selected, and the host was asked for nothing but the kill, the tab
    removal and closing the panel. *)
Lemma destroyTerminal_last_panel_terminal_counterexample :
  size (terminals Samples.one) = 1 ∧
  terminals (destroyTerminal "t1" Samples.one) = ∅ ∧
  activeTerminalId (destroyTerminal "t1" Samples.one) = None ∧
  effects (destroyTerminal "t1" Samples.one) =
    effects Samples.one ++
    [ClearReadyTimeout "t1"; PtyKill "t1"; PanelPost (RemoveTab "t1");
     ExecuteCommand "workbench.action.closePanel"].
Proof. vm_compute. repeat split; reflexivity. Qed.

(** ** Ordinals across destroy and create *)

(** A successful [createPanelTerminal] registers the new terminal with
    the smallest free ordinal. *)
Lemma createPanelTerminal_index id cwd st :
  index <$> (terminals (createPanelTerminal id cwd SpawnOk st).2 !! id) =
  Some (Some (getNextIndex (usedIndices st)).1).
Proof.
  unfold createPanelTerminal.
  destruct (getNextIndex (usedIndices st)) as [idx used] eqn:Hnext.
  unfold savePersistedState, armReadyTimeout. simpl.
  by rewrite lookup_insert_eq.
Qed.

(** C7, as the code has it.  [getNextIndex] returns the smallest
    positive integer not in [usedIndices] and adds it to the set.
    Destroying a terminal that holds ordinal [N] and then creating a
    terminal therefore yields the smallest ordinal free at that moment,
    which is [N] again when every ordinal below [N] is still in use. *)
Theorem getNextIndex_smallest_free_and_reuse :
  (∀ used : gset nat,
     1 ≤ (getNextIndex used).1 ∧
     ((getNextIndex used).1 ∉ used) ∧
     (∀ k, (1 ≤ k < (getNextIndex used).1) → k ∈ used) ∧
     (getNextIndex used).2 = {[(getNextIndex used).1]} ∪ used) ∧
  (∀ st id instance N newId cwd,
     terminals st !! id = Some instance →
     index instance = Some N →
     1 ≤ N →
     (∀ k, (1 ≤ k < N) → k ∈ usedIndices st) →
     index <$> (terminals (createPanelTerminal newId cwd SpawnOk
                             (destroyTerminal id st)).2 !! newId) =
     Some (Some N)).
Proof.
  split; [apply getNextIndex_spec|].
  intros st id instance N newId cwd Hget Hidx Hpos Hbelow.
  rewrite createPanelTerminal_index. do 2 f_equal.
  destruct (destroyTerminal_fields id st instance Hget) as (_ & _ & -> & _).
  rewrite Hidx. simpl. apply getNextIndex_unique; [done| |].
  - rewrite elem_of_difference, elem_of_singleton. intros [_ Hne]. by apply Hne.
  - intros k Hk. apply elem_of_difference. split; [by apply Hbelow|].
    rewrite elem_of_singleton. lia.
Qed.

Lemma getNextIndex_smallest_free_and_reuse_witness :
  terminals Samples.two !! "t2" = Some (Samples.created 2) ∧
  (∀ k, (1 ≤ k < 2) → k ∈ usedIndices Samples.two) ∧
  index <$> (terminals (createPanelTerminal "t3" None SpawnOk
                          (destroyTerminal "t2" Samples.two)).2 !! "t3") =
  Some (Some 2).
Proof.
  assert (∀ k, (1 ≤ k < 2) → k ∈ usedIndices Samples.two) as Hbelow.
  { intros k Hk. replace k with 1 by lia. apply (bool_decide_unpack _). by vm_compute. }
  split; [reflexivity|]. split; [exact Hbelow|].
  apply (proj2 getNextIndex_smallest_free_and_reuse Samples.two "t2"
           (Samples.created 2) 2 "t3" None eq_refl eq_refl); [lia|exact Hbelow].
Defined.

(** C7, as the spec words it, fails once a smaller ordinal has been
    released: with terminals 2 and 3 alive ([t1] was closed earlier),
    closing [t3] and opening a terminal does not give 3 again but 1. *)
Lemma ordinal_reuse_counterexample :
  index <$> (terminals Samples.gap !! "t3") = Some (Some 3) ∧
  index <$> (terminals (createPanelTerminal "t4" None SpawnOk
                          (destroyTerminal "t3" Samples.gap)).2 !! "t4") =
  Some (Some 1).
Proof. vm_compute. split; reflexivity. Qed.

(** ** Buffering PTY output *)

Section PtyData.
Variable parseOSC7 : string → Parse.
Variable parseOSC9 : string → option string.
Variable notificationsEnabled : bool.
Variable MAX_DATA_QUEUE_SIZE : nat.

Abbreviation onPtyData :=
  (handlePtyData parseOSC7 parseOSC9 notificationsEnabled MAX_DATA_QUEUE_SIZE).

Lemma postToTerminal_terminals id message st :
  terminals (postToTerminal id message st) = terminals st.
Proof. unfold postToTerminal. branches; reflexivity. Qed.

(** A [URIError] out of [parseOSC7] ends [handlePtyData] with the state
    as it was. *)
Lemma handlePtyData_threw id data st :
  parseOSC7 data = URIError →
  (onPtyData id data st).2 = st.
Proof.
  intros Hthrow. unfold handlePtyData. rewrite Hthrow.
  by destruct (terminals st !! id).
Qed.

(** When [parseOSC7] returns, [handlePtyData] rewrites only the
    instance it was called for, and of that instance's [ready] and
    [dataQueue] only the queue, and only while the instance is not
    ready. *)
Lemma handlePtyData_terminals id data st instance cwd :
  terminals st !! id = Some instance →
  parseOSC7 data = Parsed cwd →
  ∃ instance',
    (onPtyData id data st).1 = Returned ∧
    terminals (onPtyData id data st).2 = <[id := instance']> (terminals st) ∧
    ready instance' = ready instance ∧
    dataQueue instance' =
      if ready instance then dataQueue instance
      else if decide (length (dataQueue instance) < MAX_DATA_QUEUE_SIZE)
           then dataQueue instance ++ [data]
           else dataQueue instance.
Proof.
  intros Hget Hparsed. unfold handlePtyData. rewrite Hget, Hparsed.
  destruct (truthyStr cwd) as [c|];
    destruct (truthyStr (parseOSC9 data)) as [notification|];
    destruct notificationsEnabled;
    destruct (ready instance) eqn:Hready; simpl; rewrite ?Hready; simpl;
    rewrite ?postToTerminal_terminals; simpl;
    try destruct (decide (length (dataQueue instance) < MAX_DATA_QUEUE_SIZE));
    simpl; rewrite ?postToTerminal_terminals; simpl;
    rewrite ?insert_insert_eq;
    (eexists; split; [reflexivity|]; split; [reflexivity|]; simpl; rewrite ?Hready;
     split; [reflexivity|]; try rewrite decide_True by done;
     try rewrite decide_False by done; reflexivity).
Qed.

(** [handlePtyData] keeps every queue within the cap. *)
Lemma handlePtyData_queuesBounded id data st :
  queuesBounded MAX_DATA_QUEUE_SIZE st →
  queuesBounded MAX_DATA_QUEUE_SIZE (onPtyData id data st).2.
Proof.
  intros Hbounded.
  destruct (parseOSC7 data) as [|cwd] eqn:Hparse;
    [by rewrite handlePtyData_threw|].
  intros id' instance' Hget'.
  destruct (terminals st !! id) as [instance|] eqn:Hget.
  - destruct (handlePtyData_terminals id data st instance cwd Hget Hparse)
      as (updated & _ & Ht & _ & Hq).
    rewrite Ht in Hget'. destruct (decide (id = id')) as [<-|Hne].
    + rewrite lookup_insert_eq in Hget'. injection Hget' as <-.
      rewrite Hq. pose proof (Hbounded id instance Hget) as Hlen.
      destruct (ready instance); [done|].
      case_decide; [|done]. rewrite length_app. simpl. lia.
    + rewrite lookup_insert_ne in Hget' by done. by apply (Hbounded id').
  - unfold handlePtyData in Hget'. rewrite Hget in Hget'. by apply (Hbounded id').
Qed.

(** C8.  The chunk is not always buffered while the queue has room: for
    a session that is not ready and whose [dataQueue] holds fewer than
    [MAX_DATA_QUEUE_SIZE] chunks, a chunk on which [parseOSC7] throws
    (an OSC 7 sequence whose path has a malformed percent escape) ends
    [handlePtyData] with an uncaught [URIError] before the buffering
    step; the state is as before, so the chunk is in no queue and is
    never delivered. *)
Theorem handlePtyData_URIError_drops_chunk id data st instance :
  terminals st !! id = Some instance →
  ready instance = false →
  length (dataQueue instance) < MAX_DATA_QUEUE_SIZE →
  parseOSC7 data = URIError →
  handlePtyData parseOSC7 parseOSC9 notificationsEnabled MAX_DATA_QUEUE_SIZE
    id data st = (Threw, st) ∧
  terminals (handlePtyData parseOSC7 parseOSC9 notificationsEnabled MAX_DATA_QUEUE_SIZE
               id data st).2 !! id = Some instance ∧
  dataQueue instance ≠ dataQueue instance ++ [data].
Proof.
  intros Hget _ _ Hthrow. unfold handlePtyData. rewrite Hget, Hthrow.
  split; [done|]. split; [done|].
  intros Heq. apply (f_equal length) in Heq. rewrite length_app in Heq. simpl in Heq. lia.
Qed.

(** X18.  When [parseOSC7] returns on the chunk, [handlePtyData] on a
    session that is not ready appends the chunk to the session's
    [dataQueue] exactly when the queue holds fewer than
    [MAX_DATA_QUEUE_SIZE] chunks and otherwise leaves the queue as it
    is; chunks already buffered stay in place.  Whatever [parseOSC7]
    does, queues within the cap stay within the cap. *)
Theorem handlePtyData_buffers_when_parsed :
  (∀ id data st instance cwd,
     terminals st !! id = Some instance →
     ready instance = false →
     parseOSC7 data = Parsed cwd →
     ∃ instance',
       (onPtyData id data st).1 = Returned ∧
       terminals (onPtyData id data st).2 !! id = Some instance' ∧
       ready instance' = false ∧
       dataQueue instance' =
         (if decide (length (dataQueue instance) < MAX_DATA_QUEUE_SIZE)
          then dataQueue instance ++ [data]
          else dataQueue instance) ∧
       dataQueue instance `prefix_of` dataQueue instance') ∧
  (∀ id data st,
     queuesBounded MAX_DATA_QUEUE_SIZE st →
     queuesBounded MAX_DATA_QUEUE_SIZE (onPtyData id data st).2).
Proof.
  split.
  - intros id data st instance cwd Hget Hready Hparse.
    destruct (handlePtyData_terminals id data st instance cwd Hget Hparse)
      as (instance' & Hret & Ht & Hr & Hq).
    rewrite Hready in Hr, Hq.
    exists instance'. rewrite Ht, lookup_insert_eq. repeat split; try done.
    rewrite Hq. case_decide; [by apply prefix_app_r|done].
  - intros id data st. apply handlePtyData_queuesBounded.
Qed.
End PtyData.

Lemma handlePtyData_URIError_drops_chunk_witness :
  terminals Samples.one !! "t1" = Some (Samples.created 1) ∧
  ready (Samples.created 1) = false ∧
  length (dataQueue (Samples.created 1)) < 8 ∧
  Samples.decodeFails Samples.malformedOSC7 = URIError ∧
  handlePtyData Samples.decodeFails (λ _, None) true 8 "t1" Samples.malformedOSC7
    Samples.one = (Threw, Samples.one).
Proof.
  split; [reflexivity|]. split; [reflexivity|]. split; [simpl; lia|].
  split; [reflexivity|].
  apply (handlePtyData_URIError_drops_chunk Samples.decodeFails (λ _, None) true 8
           "t1" Samples.malformedOSC7 Samples.one (Samples.created 1));
    [reflexivity|reflexivity|simpl; lia|reflexivity].
Defined.

Lemma handlePtyData_buffers_when_parsed_witness :
  terminals Samples.one !! "t1" = Some (Samples.created 1) ∧
  ready (Samples.created 1) = false ∧
  queuesBounded 2 Samples.one ∧
  (∃ instance',
     (handlePtyData (λ _, Parsed None) (λ _, None) true 2 "t1" "ls" Samples.one).1 =
       Returned ∧
     terminals (handlePtyData (λ _, Parsed None) (λ _, None) true 2 "t1" "ls"
                  Samples.one).2 !! "t1" = Some instance' ∧
     ready instance' = false ∧
     dataQueue instance' =
       (if decide (length (dataQueue (Samples.created 1)) < 2)
        then dataQueue (Samples.created 1) ++ ["ls"]
        else dataQueue (Samples.created 1)) ∧
     dataQueue (Samples.created 1) `prefix_of` dataQueue instance') ∧
  queuesBounded 2
    (handlePtyData (λ _, Parsed None) (λ _, None) true 2 "t1" "ls" Samples.one).2.
Proof.
  assert (queuesBounded 2 Samples.one) as Hbounded.
  { intros id instance Hget. destruct (one_only id instance Hget) as [_ ->].
    simpl. lia. }
  split; [reflexivity|]. split; [reflexivity|]. split; [exact Hbounded|]. split.
  - apply (proj1 (handlePtyData_buffers_when_parsed (λ _, Parsed None) (λ _, None) true 2)
             "t1" "ls" Samples.one (Samples.created 1) None); reflexivity.
  - apply (proj2 (handlePtyData_buffers_when_parsed (λ _, Parsed None) (λ _, None) true 2)
             "t1" "ls" Samples.one Hbounded).
Defined.

(** ** Splitting *)

(** [createPanelTerminalForSplit] touches neither the selection nor the
    group tables, and asks the panel for nothing that selects or
    focuses: its [add-tab] carries [makeActive: false]. *)
Lemma createPanelTerminalForSplit_frame id cwd insertAfter result st :
  activeTerminalId (createPanelTerminalForSplit id cwd insertAfter result st).2 =
    activeTerminalId st ∧
  groups (createPanelTerminalForSplit id cwd insertAfter result st).2 = groups st ∧
  terminalToGroup (createPanelTerminalForSplit id cwd insertAfter result st).2 =
    terminalToGroup st ∧
  stored (createPanelTerminalForSplit id cwd insertAfter result st).2 = stored st ∧
  ∃ added,
    effects (createPanelTerminalForSplit id cwd insertAfter result st).2 =
      effects st ++ added ∧
    Forall (λ e, selectsOrFocuses e = false) added.
Proof.
  unfold createPanelTerminalForSplit, spawnPty, armReadyTimeout.
  destruct (getNextIndex (usedIndices st)) as [idx used].
  destruct result; simpl; repeat split; try reflexivity;
    rewrite <- ?app_assoc; (eexists; split; [reflexivity|]; repeat constructor).
Qed.

(** C9.  [handleSplitTerminal] never changes [activeTerminalId],
    whatever the source, whether or not the spawn succeeds and however
    the handler ends; and nothing it posts selects or focuses a
    terminal (no [activate-tab], no [focus-terminal], and the new
    terminal's [add-tab] has [makeActive: false]). *)
Theorem handleSplitTerminal_keeps_selection
    workspaceCwd sourceTerminalId newGroupId newId result st :
  activeTerminalId
    (handleSplitTerminal workspaceCwd sourceTerminalId newGroupId newId result st).2 =
    activeTerminalId st ∧
  ∃ added,
    effects
      (handleSplitTerminal workspaceCwd sourceTerminalId newGroupId newId result st).2 =
      effects st ++ added ∧
    Forall (λ e, selectsOrFocuses e = false) added.
Proof.
  unfold handleSplitTerminal.
  destruct (terminals st !! sourceTerminalId) as [sourceInstance|];
    [|split; [done|]; by exists []; rewrite app_nil_r].
  destruct (decide (location sourceInstance ≠ Panel));
    [split; [done|]; by exists []; rewrite app_nil_r|].
  set (cwd := match currentCwd sourceInstance with
              | Some c => Some c
              | None => workspaceCwd
              end).
  destruct (truthyStr (terminalToGroup st !! sourceTerminalId)) as [groupId|].
  - destruct (createPanelTerminalForSplit_frame newId cwd sourceTerminalId result st)
      as (Ha & _ & _ & _ & added & He & Hquiet).
    destruct (createPanelTerminalForSplit newId cwd sourceTerminalId result st)
      as [created st1]. simpl in Ha, He.
    destruct (truthyStr created); [|by eauto].
    destruct (JsMap.get groupId (groups st1)); [|by eauto].
    unfold savePersistedState. simpl. split; [done|].
    rewrite He, <- !app_assoc. eexists. split; [reflexivity|].
    apply Forall_app. split; [done|]. repeat constructor.
  - set (st0 := set_terminalToGroup _ _).
    destruct (createPanelTerminalForSplit_frame newId cwd sourceTerminalId result st0)
      as (Ha & _ & _ & _ & added & He & Hquiet).
    destruct (createPanelTerminalForSplit newId cwd sourceTerminalId result st0)
      as [created st1]. simpl in Ha, He.
    destruct (truthyStr created); [|by eauto].
    destruct (JsMap.get newGroupId (groups st1)); [|by eauto].
    unfold savePersistedState. simpl. split; [done|].
    rewrite He, <- !app_assoc. eexists. split; [reflexivity|].
    apply Forall_app. split; [done|]. repeat constructor.
Qed.

(** ** Unsplitting *)

Lemma truthyStr_Some (s : string) : s ≠ "" → truthyStr (Some s) = Some s.
Proof. intros Hne. unfold truthyStr. by rewrite decide_False. Qed.

(** C6.  [handleUnsplitTerminal m] in a state where [terminalToGroup]
    records [g] as the group of [m], the members of [g] are distinct
    and include [m], and [g] keeps at least one other member, the last
    of which is [l] (ids and the group id being non-empty strings): [m]
    leaves the member list and loses its [terminalToGroup] entry; in
    [terminalOrder] [m] is taken out and put back immediately after
    [l], at the position [l] has once [m] is out, when [l] is listed
    there, and at the end when it is not; if exactly one member
    remains, [g] is deleted and that member has no [terminalToGroup]
    entry either; otherwise [g] stays with the remaining members in
    their order. *)
Theorem handleUnsplitTerminal_spec m g group l st :
  terminalToGroup st !! m = Some g →
  g ≠ "" →
  JsMap.get g (groups st) = Some group →
  NoDup (TerminalGroup.terminals group) →
  m ∈ TerminalGroup.terminals group →
  last (removeFirst m (TerminalGroup.terminals group)) = Some l →
  l ≠ "" →
  (m ∉ removeFirst m (TerminalGroup.terminals group)) ∧
  terminalToGroup (handleUnsplitTerminal m st) !! m = None ∧
  (l ∈ terminalOrder st →
   ∃ pre post,
     removeFirst m (terminalOrder st) = pre ++ l :: post ∧
     (l ∉ pre) ∧
     terminalOrder (handleUnsplitTerminal m st) = pre ++ l :: m :: post) ∧
  (l ∉ terminalOrder st →
   terminalOrder (handleUnsplitTerminal m st) =
     removeFirst m (terminalOrder st) ++ [m]) ∧
  (length (removeFirst m (TerminalGroup.terminals group)) = 1 →
     JsMap.get g (groups (handleUnsplitTerminal m st)) = None ∧
     terminalToGroup (handleUnsplitTerminal m st) !! l = None) ∧
  (2 ≤ length (removeFirst m (TerminalGroup.terminals group)) →
     JsMap.get g (groups (handleUnsplitTerminal m st)) =
       Some {| TerminalGroup.id := TerminalGroup.id group;
               TerminalGroup.terminals :=
                 removeFirst m (TerminalGroup.terminals group) |}).
Proof.
  intros Httg Hg Hgroup Hnd Hm Hlast Hl.
  destruct (removeFirst_NoDup m _ Hnd) as [_ Hgone].
  set (remaining := removeFirst m (TerminalGroup.terminals group)) in *.
  assert (l ∈ remaining) as Hlrem by (by apply last_Some_elem_of).
  assert (l ≠ m) as Hlm by (intros ->; done).
  assert (terminalOrder (handleUnsplitTerminal m st) =
          insertAfterOrPush l m (removeFirst m (terminalOrder st))) as Horder.
  { unfold handleUnsplitTerminal. rewrite Httg, (truthyStr_Some g Hg), Hgroup.
    cbv zeta. cbn [terminalOrder set_groups set_terminalToGroup].
    fold remaining. rewrite Hlast, (truthyStr_Some l Hl).
    unfold savePersistedState, unsplit_settleGroup.
    by destruct (decide (length remaining ≤ 1)). }
  split; [done|]. rewrite Horder.
  assert (terminalToGroup (handleUnsplitTerminal m st) !! m = None ∧
          (length remaining = 1 →
           JsMap.get g (groups (handleUnsplitTerminal m st)) = None ∧
           terminalToGroup (handleUnsplitTerminal m st) !! l = None) ∧
          (2 ≤ length remaining →
           JsMap.get g (groups (handleUnsplitTerminal m st)) =
             Some {| TerminalGroup.id := TerminalGroup.id group;
                     TerminalGroup.terminals := remaining |})) as (Hmap & Hone & Htwo).
  { unfold handleUnsplitTerminal. rewrite Httg, (truthyStr_Some g Hg), Hgroup.
    cbv zeta. cbn [terminalOrder set_groups set_terminalToGroup].
    fold remaining. rewrite Hlast, (truthyStr_Some l Hl).
    unfold savePersistedState, unsplit_settleGroup. simpl.
    destruct (decide (length remaining ≤ 1)) as [Hshort|Hlong]; simpl.
    - split.
      { rewrite lookup_delete_all. case_decide; [done|]. by rewrite lookup_delete_eq. }
      split.
      + intros _. split; [apply JsMap_get_remove_eq|].
        rewrite lookup_delete_all. by rewrite decide_True.
      + intros Hlen. lia.
    - split; [by rewrite lookup_delete_eq|]. split.
      + intros Hlen. lia.
      + intros _. apply JsMap_get_set_eq. }
  split; [done|].
  split.
  { intros Hin. apply insertAfterOrPush_present. by apply removeFirst_elem_ne. }
  split.
  { intros Hout. apply insertAfterOrPush_absent. by rewrite removeFirst_elem_ne. }
  done.
Qed.

Lemma handleUnsplitTerminal_spec_witness :
  terminalToGroup Samples.pair !! "t2" = Some "g1" ∧
  JsMap.get "g1" (groups Samples.pair) =
    Some {| TerminalGroup.id := "g1"; TerminalGroup.terminals := ["t1"; "t2"] |} ∧
  terminalOrder (handleUnsplitTerminal "t2" Samples.pair) = ["t1"; "t2"] ∧
  JsMap.get "g1" (groups (handleUnsplitTerminal "t2" Samples.pair)) = None ∧
  terminalToGroup (handleUnsplitTerminal "t2" Samples.pair) !! "t1" = None ∧
  terminalToGroup (handleUnsplitTerminal "t2" Samples.pair) !! "t2" = None.
Proof.
  assert (NoDup ["t1"; "t2"]) as Hnd by (apply (bool_decide_unpack _); by vm_compute).
  assert ("t2" ∈ ["t1"; "t2"]) as Hin by (apply (bool_decide_unpack _); by vm_compute).
  destruct (handleUnsplitTerminal_spec "t2" "g1"
              {| TerminalGroup.id := "g1"; TerminalGroup.terminals := ["t1"; "t2"] |}
              "t1" Samples.pair eq_refl ltac:(done) eq_refl Hnd Hin eq_refl
              ltac:(done))
    as (_ & Hm & _ & _ & Hone & _).
  destruct (Hone eq_refl) as [Hgone Hl].
  split; [reflexivity|]. split; [reflexivity|].
  split; [reflexivity|]. split; [exact Hgone|]. split; [exact Hl|exact Hm].
Defined.

(** C6, as the spec words it ("for every group g with member m"), fails
    in the state a restart reaches when the spawn for the second of two
    grouped sessions fails: the group [g1] still lists [t1; t2], [t2]
    has no instance, no place in the order list and no
    [terminalToGroup] entry.  Unsplitting the member [t2] changes
    nothing, so [t2] stays in the member list; unsplitting the member
    [t1] puts [t1] at the end of the order list, behind [t3], and not
    behind the last remaining member [t2]. *)
Lemma handleUnsplitTerminal_spec_counterexample :
  let st := handlePanelReady None (λ _, None) Samples.secondFails "t4" SpawnOk
              Samples.restarted in
  reachable None (λ _, None) (λ _, Parsed None) (λ _, None) true 8
    (stored Samples.pairAndOne) st ∧
  groups st = [("g1", {| TerminalGroup.id := "g1";
                         TerminalGroup.terminals := ["t1"; "t2"] |})] ∧
  terminalOrder st = ["t1"; "t3"] ∧
  handleUnsplitTerminal "t2" st = st ∧
  terminalOrder (handleUnsplitTerminal "t1" st) = ["t3"; "t1"].
Proof.
  split.
  - apply (reachable_event None (λ _, None) (λ _, Parsed None) (λ _, None) true 8
             (stored Samples.pairAndOne)
             (PanelReady Samples.secondFails "t4" SpawnOk)).
    apply reachable_constructed.
  - vm_compute. repeat split; reflexivity.
Qed.

(** ** The two-member invariant of groups *)

(** [destroyTerminal] keeps every group at two members or more: a group
    that would drop below is deleted in the same call. *)
Lemma destroyTerminal_groupsHaveTwo id st :
  groupsHaveTwo st → groupsHaveTwo (destroyTerminal id st).
Proof.
  intros Hinv. unfold destroyTerminal.
  destruct (terminals st !! id) as [instance|]; [|done]. cbv zeta.
  set (st0 := set_terminalOrder _ _).
  assert (groupsHaveTwo st0) as Hinv0 by done. clearbody st0.
  intros k group.
  destruct (destroyTerminal_teardown_frame id instance
              (destroyTerminal_reselect id (destroyTerminal_group id st0)))
    as (_ & -> & _).
  destruct (destroyTerminal_reselect_frame id (destroyTerminal_group id st0))
    as (_ & -> & _).
  unfold destroyTerminal_group.
  destruct (truthyStr (terminalToGroup st0 !! id)) as [groupId|]; [|apply Hinv0].
  destruct (JsMap.get groupId (groups st0)) as [old|] eqn:Hold; [|apply Hinv0].
  simpl. destruct (decide (length (removeFirst id (TerminalGroup.terminals old)) ≤ 1));
    simpl; destruct (decide (groupId = k)) as [->|Hne].
  - by rewrite JsMap_get_remove_eq.
  - rewrite JsMap_get_remove_ne, JsMap_get_set_ne by done. apply Hinv0.
  - rewrite JsMap_get_set_eq. intros [= <-]. simpl. lia.
  - rewrite JsMap_get_set_ne by done. apply Hinv0.
Qed.

(** What a split of a standalone panel terminal leaves behind when the
    spawn fails: the group made for the split, with the source as its
    only member. *)
Lemma handleSplitTerminal_spawn_error
    workspaceCwd sourceTerminalId sourceInstance newGroupId newId error st :
  terminals st !! sourceTerminalId = Some sourceInstance →
  location sourceInstance = Panel →
  truthyStr (terminalToGroup st !! sourceTerminalId) = None →
  JsMap.get newGroupId
    (groups (handleSplitTerminal workspaceCwd sourceTerminalId newGroupId newId
               (SpawnError error) st).2) =
  Some {| TerminalGroup.id := newGroupId;
          TerminalGroup.terminals := [sourceTerminalId] |}.
Proof.
  intros Hget Hloc Hfree. unfold handleSplitTerminal.
  rewrite Hget, Hfree. rewrite decide_False by (intros Hn; by apply Hn).
  unfold createPanelTerminalForSplit, spawnPty.
  destruct (getNextIndex _) as [idx used]. simpl. apply JsMap_get_set_eq.
Qed.

(** [handleUnsplitTerminal] keeps every group at two members or more. *)
Lemma handleUnsplitTerminal_groupsHaveTwo terminalId st :
  groupsHaveTwo st → groupsHaveTwo (handleUnsplitTerminal terminalId st).
Proof.
  intros Hinv. unfold handleUnsplitTerminal.
  destruct (truthyStr (terminalToGroup st !! terminalId)) as [groupId|]; [|done].
  destruct (JsMap.get groupId (groups st)) as [old|] eqn:Hold; [|done].
  unfold savePersistedState, unsplit_settleGroup. intros k group. simpl.
  destruct (decide (length (removeFirst terminalId (TerminalGroup.terminals old)) ≤ 1));
    simpl; destruct (decide (groupId = k)) as [->|Hne].
  - by rewrite JsMap_get_remove_eq.
  - rewrite JsMap_get_remove_ne, JsMap_get_set_ne by done. apply Hinv.
  - rewrite JsMap_get_set_eq. intros [= <-]. simpl. lia.
  - rewrite JsMap_get_set_ne by done. apply Hinv.
Qed.

Lemma createPanelTerminalForSplit_ok id cwd insertAfter st :
  (createPanelTerminalForSplit id cwd insertAfter SpawnOk st).1 = Some id.
Proof.
  unfold createPanelTerminalForSplit, spawnPty.
  by destruct (getNextIndex (usedIndices st)).
Qed.

Lemma spliceIn_length i xs l : length (spliceIn i xs l) = length xs + length l.
Proof.
  unfold spliceIn. rewrite !length_app.
  rewrite <- (take_drop i l) at 3. rewrite length_app. lia.
Qed.

(** A split whose spawn succeeds keeps every group at two members or
    more: a new group starts with the source and the new terminal, an
    existing group grows by one. *)
Lemma handleSplitTerminal_ok_groupsHaveTwo
    workspaceCwd sourceTerminalId newGroupId newId st :
  newId ≠ "" →
  groupsHaveTwo st →
  groupsHaveTwo
    (handleSplitTerminal workspaceCwd sourceTerminalId newGroupId newId SpawnOk st).2.
Proof.
  intros Hid Hinv. unfold handleSplitTerminal.
  destruct (terminals st !! sourceTerminalId) as [sourceInstance|]; [|done].
  destruct (decide (location sourceInstance ≠ Panel)); [done|].
  set (cwd := match currentCwd sourceInstance with
              | Some c => Some c
              | None => workspaceCwd
              end).
  destruct (truthyStr (terminalToGroup st !! sourceTerminalId)) as [groupId|].
  - destruct (createPanelTerminalForSplit_frame newId cwd sourceTerminalId SpawnOk st)
      as (_ & Hg & _).
    pose proof (createPanelTerminalForSplit_ok newId cwd sourceTerminalId st) as Hok.
    destruct (createPanelTerminalForSplit newId cwd sourceTerminalId SpawnOk st)
      as [created st1]. simpl in Hg, Hok. subst created.
    rewrite (truthyStr_Some newId Hid).
    destruct (JsMap.get groupId (groups st1)) as [old|] eqn:Hold.
    + unfold savePersistedState. intros k group. simpl.
      destruct (decide (groupId = k)) as [->|Hne].
      * rewrite JsMap_get_set_eq. intros [= <-]. simpl.
        rewrite Hg in Hold. apply Hinv in Hold.
        rewrite spliceIn_length. simpl. lia.
      * rewrite JsMap_get_set_ne, Hg by done. apply Hinv.
    + intros k group. simpl. rewrite Hg. apply Hinv.
  - set (st0 := set_terminalToGroup _ _).
    destruct (createPanelTerminalForSplit_frame newId cwd sourceTerminalId SpawnOk st0)
      as (_ & Hg & _).
    pose proof (createPanelTerminalForSplit_ok newId cwd sourceTerminalId st0) as Hok.
    destruct (createPanelTerminalForSplit newId cwd sourceTerminalId SpawnOk st0)
      as [created st1]. subst st0. simpl in Hg, Hok. subst created.
    rewrite (truthyStr_Some newId Hid), Hg, JsMap_get_set_eq.
    unfold savePersistedState. intros k group. simpl.
    destruct (decide (newGroupId = k)) as [->|Hne].
    + rewrite JsMap_get_set_eq. intros [= <-]. simpl.
      rewrite spliceIn_length. simpl. lia.
    + rewrite !JsMap_get_set_ne by done. apply Hinv.
Qed.

(** C1 on the input where it fails.  A manager with the single
    standalone panel terminal [t1] satisfies the invariant; a split of
    [t1] whose spawn fails returns normally and leaves group [g1] in the
    [groups] map with [t1] as its only member (and [t1] mapped to [g1]):
    a reachable state with a group of fewer than two members. *)
Theorem handleSplitTerminal_failed_spawn_singleton_group :
  groupsHaveTwo Samples.one ∧
  handleSplitTerminal None "t1" "g1" "t2" (SpawnError "ENOENT") Samples.one =
    (Returned, Samples.failedSplit) ∧
  Samples.reached Samples.failedSplit ∧
  groups Samples.failedSplit =
    [("g1", {| TerminalGroup.id := "g1"; TerminalGroup.terminals := ["t1"] |})] ∧
  terminalToGroup Samples.failedSplit !! "t1" = Some "g1" ∧
  ¬ groupsHaveTwo Samples.failedSplit.
Proof.
  split; [intros k group Hk; by vm_compute in Hk|].
  split; [by vm_compute|].
  split; [apply run_reached, one_reached|].
  split; [by vm_compute|]. split; [by vm_compute|].
  intros Hinv.
  pose proof (Hinv "g1" {| TerminalGroup.id := "g1"; TerminalGroup.terminals := ["t1"] |}
                (handleSplitTerminal_spawn_error None "t1" (Samples.created 1) "g1" "t2"
                   "ENOENT" Samples.one eq_refl eq_refl eq_refl)) as Hlen.
  simpl in Hlen. lia.
Qed.

(** ** Joining *)

(** For a standalone panel terminal, or one that is no panel terminal,
    a join into a group that does not exist is a no-op. *)
Lemma handleJoinTerminal_missing_target_standalone terminalId targetGroupId st :
  JsMap.get targetGroupId (groups st) = None →
  truthyStr (terminalToGroup st !! terminalId) = None →
  handleJoinTerminal terminalId targetGroupId st = st.
Proof.
  intros Hmissing Hfree. unfold handleJoinTerminal.
  destruct (terminals st !! terminalId) as [instance|]; [|done].
  destruct (decide (location instance ≠ Panel)); [done|].
  by rewrite Hfree, Hmissing.
Qed.

(** C3 on the input where it fails.  In a reachable state, [t2] is a
    member of group [g1] (panes [t1; t2]) and no group [missing] exists.
    [handleJoinTerminal t2 missing] first unsplits [t2]: group [g1] is
    dissolved, both [terminalToGroup] entries are dropped and the panel
    is told so; only then the target is looked up and the handler
    returns.  The order list and the stored snapshot are left as they
    were, so the snapshot still describes the group. *)
Theorem handleJoinTerminal_missing_target_mutates :
  Samples.reached Samples.pair ∧
  JsMap.get "missing" (groups Samples.pair) = None ∧
  terminalToGroup Samples.pair !! "t2" = Some "g1" ∧
  groups Samples.pair =
    [("g1", {| TerminalGroup.id := "g1"; TerminalGroup.terminals := ["t1"; "t2"] |})] ∧
  groups (handleJoinTerminal "t2" "missing" Samples.pair) = [] ∧
  terminalToGroup (handleJoinTerminal "t2" "missing" Samples.pair) = ∅ ∧
  effects (handleJoinTerminal "t2" "missing" Samples.pair) =
    effects Samples.pair ++
    [PanelPost (GroupDestroyed "g1"); PanelPost (UnsplitTerminal "t2")] ∧
  terminalOrder (handleJoinTerminal "t2" "missing" Samples.pair) =
    terminalOrder Samples.pair ∧
  stored (handleJoinTerminal "t2" "missing" Samples.pair) = stored Samples.pair ∧
  handleJoinTerminal "t2" "missing" Samples.pair ≠ Samples.pair.
Proof.
  split; [apply run_reached, one_reached|].
  repeat (split; [by vm_compute|]).
  intros Heq. apply (f_equal groups) in Heq. by vm_compute in Heq.
Qed.

(** ** Selection and focus in the terminal list *)

(** [setSelected] clears the focus whatever the state and the argument. *)
Lemma setSelected_clears_focus x s :
  TerminalList.focusedTerminalId (TerminalList.setSelected x s) = None.
Proof. reflexivity. Qed.

(** [setActive] never writes [focusedTerminalId]. *)
Lemma setActive_keeps_focus x s :
  TerminalList.focusedTerminalId (TerminalList.setActive x s) =
  TerminalList.focusedTerminalId s.
Proof. unfold TerminalList.setActive. by destruct (truthyStr x). Qed.

(** C4 on the input where it fails.  The list shows and focuses [a];
    [setActive b] moves the selection to [b] and leaves the focus on
    [a], which is no longer selected.  ([setSelected b] from the same
    state clears the focus.) *)
Theorem setActive_changes_selection_keeps_focus :
  TerminalList.selectedTerminalIds Samples.focusedOnA = ["a"] ∧
  TerminalList.focusedTerminalId Samples.focusedOnA = Some "a" ∧
  TerminalList.selectedTerminalIds
    (TerminalList.setActive (Some "b") Samples.focusedOnA) = ["b"] ∧
  TerminalList.focusedTerminalId
    (TerminalList.setActive (Some "b") Samples.focusedOnA) = Some "a" ∧
  TerminalList.focusedTerminalId
    (TerminalList.setSelected (Some "b") Samples.focusedOnA) = None.
Proof.
  split; [reflexivity|]. split; [reflexivity|]. split; [reflexivity|].
  split; [|apply setSelected_clears_focus].
  by rewrite setActive_keeps_focus.
Qed.

(** ** Hydration *)

Section Hydration.
Variable workspaceCwd : option string.
Variable resolveColorKey : string → option string.

(** One persisted descriptor: the spawn is always requested; the tab is
    added and the id appended to the order list exactly when the spawn
    succeeds; the group table is not touched and no group message is
    posted. *)
Lemma createPanelTerminalForHydration_trace persisted result st :
  let r := createPanelTerminalForHydration workspaceCwd resolveColorKey
             persisted result st in
  let kept := match result with
              | SpawnOk => [Persisted.id persisted]
              | SpawnError _ => []
              end in
  groups r.2 = groups st ∧
  terminalOrder r.2 = terminalOrder st ++ kept ∧
  spawnRequests (effects r.2) = spawnRequests (effects st) ++ [Persisted.id persisted] ∧
  addedTabs (effects r.2) = addedTabs (effects st) ++ kept ∧
  groupMessages (effects r.2) = groupMessages (effects st).
Proof.
  unfold createPanelTerminalForHydration, spawnPty, armReadyTimeout.
  unfold spawnRequests, addedTabs, groupMessages.
  destruct (Persisted.index persisted) as [i|];
    [|destruct (getNextIndex (usedIndices st)) as [i used]];
    destruct result; simpl; rewrite ?omap_app, ?app_nil_r; simpl;
    rewrite ?app_nil_r, <- ?app_assoc; done.
Qed.

Lemma hydrateTerminals_trace spawnAt i todo st :
  groups (hydrateTerminals workspaceCwd resolveColorKey spawnAt i todo st) = groups st ∧
  terminalOrder (hydrateTerminals workspaceCwd resolveColorKey spawnAt i todo st) =
    terminalOrder st ++ surviving spawnAt i todo ∧
  spawnRequests (effects (hydrateTerminals workspaceCwd resolveColorKey spawnAt i todo st)) =
    spawnRequests (effects st) ++ (Persisted.id <$> todo) ∧
  addedTabs (effects (hydrateTerminals workspaceCwd resolveColorKey spawnAt i todo st)) =
    addedTabs (effects st) ++ surviving spawnAt i todo ∧
  groupMessages (effects (hydrateTerminals workspaceCwd resolveColorKey spawnAt i todo st)) =
    groupMessages (effects st).
Proof.
  revert i st. induction todo as [|persisted rest IH]; intros i st; simpl.
  - by rewrite !app_nil_r.
  - pose proof (createPanelTerminalForHydration_trace persisted (spawnAt i) st)
      as (Hg & Ho & Hs & Ha & Hm).
    destruct (createPanelTerminalForHydration workspaceCwd resolveColorKey
                persisted (spawnAt i) st) as [newId st1].
    simpl in Hg, Ho, Hs, Ha, Hm.
    set (st2 := match truthyStr newId with
                | Some _ => _
                | None => _
                end).
    assert (groups st2 = groups st1 ∧ terminalOrder st2 = terminalOrder st1 ∧
            effects st2 = effects st1) as (Hg2 & Ho2 & He2).
    { subst st2. destruct (truthyStr newId); [|done].
      by destruct (truthyStr (Persisted.groupId persisted)). }
    destruct (IH (S i) st2) as (-> & -> & -> & -> & ->).
    rewrite Hg2, Ho2, He2, Hg, Ho, Hs, Ha, Hm.
    destruct (spawnAt i); rewrite <- ?app_assoc, ?app_nil_r; done.
Qed.

Lemma emitGroups_trace st :
  effects (emitGroups st) =
    effects st ++ ((λ group, PanelPost (GroupCreated group)) <$> JsMap.values (groups st)).
Proof.
  unfold emitGroups. generalize (JsMap.values (groups st)). intros l.
  revert st. induction l as [|[gid members] l IH]; intros st; simpl.
  - by rewrite app_nil_r.
  - rewrite IH. simpl. by rewrite <- app_assoc.
Qed.

Lemma groupMessages_posts (l : list TerminalGroup.t) :
  groupMessages ((λ group, PanelPost (GroupCreated group)) <$> l) = l.
Proof.
  unfold groupMessages. induction l as [|group l IH]; simpl; [done|]. by f_equal.
Qed.

Lemma createPanelTerminal_groupMessages id cwd result st :
  groupMessages (effects (createPanelTerminal id cwd result st).2) =
  groupMessages (effects st).
Proof.
  unfold createPanelTerminal, spawnPty, armReadyTimeout, savePersistedState, groupMessages.
  destruct (getNextIndex (usedIndices st)) as [i used].
  destruct result; simpl; rewrite ?omap_app; simpl; by rewrite ?app_nil_r.
Qed.

(** X19.  The replay asks for a spawn for every persisted descriptor,
    in saved order, whatever the earlier results; exactly the
    descriptors whose spawn succeeds get a tab and a place in the order
    list, in that order, the others are left out.  [handlePanelReady]
    posts one [group-created] message for every group in the [groups]
    map, in map order, with the member list as it is in the map,
    whatever the spawn results. *)
Theorem handlePanelReady_replay spawnAt :
  (∀ i todo st,
     spawnRequests (effects (hydrateTerminals workspaceCwd resolveColorKey
                               spawnAt i todo st)) =
       spawnRequests (effects st) ++ (Persisted.id <$> todo) ∧
     addedTabs (effects (hydrateTerminals workspaceCwd resolveColorKey
                           spawnAt i todo st)) =
       addedTabs (effects st) ++ surviving spawnAt i todo ∧
     terminalOrder (hydrateTerminals workspaceCwd resolveColorKey spawnAt i todo st) =
       terminalOrder st ++ surviving spawnAt i todo) ∧
  (∀ autoId autoSpawn st,
     groupMessages (effects (handlePanelReady workspaceCwd resolveColorKey
                               spawnAt autoId autoSpawn st)) =
       groupMessages (effects st) ++ JsMap.values (groups st)).
Proof.
  split.
  - intros i todo st.
    destruct (hydrateTerminals_trace spawnAt i todo st) as (_ & ? & ? & ? & _). done.
  - intros autoId autoSpawn st. unfold handlePanelReady. cbv zeta.
    set (st0 := emit (PanelPost (HydrateState (listWidth st))) st).
    destruct (hydrateTerminals_trace spawnAt 0 (persistedTerminals st0) st0)
      as (Hg & _ & _ & _ & Hm).
    set (st1 := hydrateTerminals _ _ _ _ _ _) in *.
    assert (groupMessages (effects (set_persistedTerminals [] (emitGroups st1))) =
            groupMessages (effects st) ++ JsMap.values (groups st)) as Hmsgs.
    { simpl. rewrite emitGroups_trace. unfold groupMessages at 1.
      rewrite omap_app. fold (groupMessages (effects st1)).
      fold (groupMessages ((λ group, PanelPost (GroupCreated group)) <$>
                             JsMap.values (groups st1))).
      rewrite groupMessages_posts, Hm, Hg. subst st0. simpl.
      unfold groupMessages. rewrite omap_app. simpl. by rewrite app_nil_r. }
    set (st2 := set_persistedTerminals [] (emitGroups st1)) in *. clearbody st2.
    destruct (decide (length (panelTerminals st2) = 0)).
    + by rewrite createPanelTerminal_groupMessages.
    + destruct (truthyStr (activeTerminalId st0)) as [saved|]; [|done].
      destruct (decide (is_Some (terminals st2 !! saved))); [|done].
      simpl. unfold groupMessages in *. rewrite !omap_app. simpl.
      by rewrite !app_nil_r.
Qed.
End Hydration.

(** C5.  The group table is not reconciled with a failed spawn.  A
    manager restarted on the snapshot of [Samples.pairAndOne] (group
    [g1] with panes [t1; t2], and a standalone [t3]) whose spawn for
    [t2] fails reaches, by its first [panel-ready], a state where [t2]
    has no instance and no tab, and the user was shown the spawn error;
    yet the [group-created] message for [g1] still lists [t2], and the
    [groups] map keeps [g1] with the members [t1; t2], only one of
    which is alive: the id is not stripped and the group is neither
    dissolved nor left unannounced. *)
Theorem handlePanelReady_failed_spawn_keeps_group :
  let st := handlePanelReady None (λ _, None) Samples.secondFails "t4" SpawnOk
              Samples.restarted in
  reachable None (λ _, None) (λ _, Parsed None) (λ _, None) true 8
    (stored Samples.pairAndOne) st ∧
  stored Samples.pairAndOne =
    Some {| Persisted.terminals := persistedTerminals Samples.restarted;
            Persisted.groups :=
              [{| TerminalGroup.id := "g1"; TerminalGroup.terminals := ["t1"; "t2"] |}];
            Persisted.activeTerminalId := Some "t3";
            Persisted.listWidth := 180 |} ∧
  Persisted.id <$> persistedTerminals Samples.restarted = ["t1"; "t2"; "t3"] ∧
  terminals st !! "t2" = None ∧
  spawnRequests (effects st) = ["t1"; "t2"; "t3"] ∧
  addedTabs (effects st) = ["t1"; "t3"] ∧
  terminalOrder st = ["t1"; "t3"] ∧
  effects st !! 5 = Some (ShowErrorMessage "Failed to start terminal: ENOENT") ∧
  groupMessages (effects st) =
    [{| TerminalGroup.id := "g1"; TerminalGroup.terminals := ["t1"; "t2"] |}] ∧
  groups st = [("g1", {| TerminalGroup.id := "g1";
                         TerminalGroup.terminals := ["t1"; "t2"] |})] ∧
  terminalToGroup st !! "t1" = Some "g1".
Proof.
  split.
  - apply (reachable_event None (λ _, None) (λ _, Parsed None) (λ _, None) true 8
             (stored Samples.pairAndOne)
             (PanelReady Samples.secondFails "t4" SpawnOk)).
    apply reachable_constructed.
  - vm_compute. repeat split; reflexivity.
Qed.


(** ** Queues along a run *)

Section Queues.
Implicit Types (t : gmap string TerminalInstance).

Lemma queuesKept_refl t : queuesKept t t.
Proof. intros id instance' Hget. by right. Qed.


Lemma queuesKept_insert t t' id instance :
  dataQueue instance = [] → queuesKept t t' → queuesKept t (<[id := instance]> t').
Proof.
  intros Hempty Hkept id' instance' Hget.
  destruct (decide (id = id')) as [<-|Hne].
  - rewrite lookup_insert_eq in Hget. injection Hget as <-. by left.
  - rewrite lookup_insert_ne in Hget by done. by apply Hkept.
Qed.

Lemma queuesKept_delete t t' id :
  queuesKept t t' → queuesKept t (delete id t').
Proof.
  intros Hkept id' instance' Hget.
  apply lookup_delete_Some in Hget as [_ Hget]. by apply Hkept.
Qed.


(** Steps of a proof that a handler only adds instances with an empty
    queue and removes instances. *)
Ltac kept :=
  repeat first [ apply queuesKept_refl
               | apply queuesKept_delete
               | apply queuesKept_insert; [reflexivity|] ].





Lemma emitGroups_terminals st : terminals (emitGroups st) = terminals st.
Proof.
  unfold emitGroups. generalize (JsMap.values (groups st)). intros l.
  revert st. induction l as [|group l IH]; intros st; simpl; [done|]. by rewrite IH.
Qed.









Variable workspaceCwd : option string.
Variable resolveColorKey : string → option string.
Variable parseOSC7 : string → Parse.
Variable parseOSC9 : string → option string.
Variable notificationsEnabled : bool.
Variable MAX_DATA_QUEUE_SIZE : nat.


End Queues.

(** * Further properties of the manager *)

(** ** Destroying twice *)

(** X1.  [destroyTerminal] is idempotent: a second call for the same id
    finds the terminal gone (the "idempotency guard") and changes
    nothing, whatever the state and whether or not the id was ever
    registered. *)
Theorem destroyTerminal_idempotent id st :
  destroyTerminal id (destroyTerminal id st) = destroyTerminal id st.
Proof.
  destruct (terminals st !! id) as [instance|] eqn:Hget.
  - destruct (destroyTerminal_fields id st instance Hget) as (Ht & _).
    unfold destroyTerminal at 1. by rewrite Ht, lookup_delete_eq.
  - assert (destroyTerminal id st = st) as -> by (unfold destroyTerminal; by rewrite Hget).
    unfold destroyTerminal. by rewrite Hget.
Qed.

(** ** A failed spawn *)

(** X2.  A "new tab" whose spawn fails retains no model state: for a
    fresh id, [createPanelTerminal] returns [null] and leaves the
    manager as it was, apart from the spawn request and the error
    message shown to the user.  In particular the ordinal taken for the
    attempt is free again. *)
Theorem createPanelTerminal_spawn_error id cwd error st :
  terminals st !! id = None →
  createPanelTerminal id cwd (SpawnError error) st =
    (None, emit (ShowErrorMessage ("Failed to start terminal: " +:+ error))
             (emit (PtySpawn id cwd) st)).
Proof.
  intros Hfresh. unfold createPanelTerminal, spawnPty.
  destruct (getNextIndex_spec (usedIndices st)) as (_ & Hfree & _ & Hused).
  destruct (getNextIndex (usedIndices st)) as [idx used]. simpl in Hfree, Hused.
  subst used. simpl. f_equal. destruct st as [t g ttg o a w p u e s]. simpl in *.
  f_equal.
  - rewrite delete_insert_eq. by apply delete_id.
  - apply set_eq. intros k. rewrite elem_of_difference, elem_of_union, !elem_of_singleton.
    split; [intros [[->|?] ?]; done|]. intros Hk. split; [by right|]. by intros ->.
Qed.

Lemma createPanelTerminal_spawn_error_witness :
  terminals Samples.one !! "t2" = None ∧
  createPanelTerminal "t2" None (SpawnError "ENOENT") Samples.one =
    (None, emit (ShowErrorMessage "Failed to start terminal: ENOENT")
             (emit (PtySpawn "t2" None) Samples.one)).
Proof.
  split; [reflexivity|].
  apply (createPanelTerminal_spawn_error "t2" None "ENOENT" Samples.one). reflexivity.
Defined.

(** ** Becoming ready *)

(** A ready terminal's messages go out at once: to the panel for a panel
    terminal, to the terminal's own webview for an editor terminal. *)
Lemma postToTerminal_ready id message st instance :
  terminals st !! id = Some instance →
  ready instance = true →
  postToTerminal id message st =
    emit (match location instance with
          | Panel => PanelPost message
          | Editor => EditorPost id message
          end) st.
Proof.
  intros Hget Hready. unfold postToTerminal. rewrite Hget, Hready. simpl.
  by destruct (location instance).
Qed.

Lemma flush_effects id (queue : list string) st instance :
  terminals st !! id = Some instance →
  ready instance = true →
  effects (foldl (λ st data, postToTerminal id (PtyData id data) st) st queue) =
    effects st ++
    ((λ data, match location instance with
              | Panel => PanelPost (PtyData id data)
              | Editor => EditorPost id (PtyData id data)
              end) <$> queue).
Proof.
  intros Hget Hready. revert st Hget.
  induction queue as [|data queue IH]; intros st Hget; simpl.
  - by rewrite app_nil_r.
  - rewrite IH by (by rewrite postToTerminal_terminals).
    rewrite (postToTerminal_ready id _ st instance Hget Hready). simpl.
    by rewrite <- app_assoc.
Qed.

(** X3.  [handleTerminalReady] for a registered terminal: the ready
    timer is cancelled if armed, the PTY is resized, and then the
    terminal's webview receives the settings, the theme, the runtime
    config and every buffered output chunk, oldest first, none left out
    and none twice; afterwards the terminal is ready, its buffer is
    empty and no timer is armed. *)
Theorem handleTerminalReady_flush id cols rows st instance :
  terminals st !! id = Some instance →
  effects (handleTerminalReady id cols rows st) =
    effects st ++
    (if readyTimeout instance then [ClearReadyTimeout id] else []) ++
    [PtyResize id cols rows] ++
    ((λ message, match location instance with
                 | Panel => PanelPost message
                 | Editor => EditorPost id message
                 end) <$>
       [UpdateSettings id; UpdateTheme id; UpdateConfig] ++
       (PtyData id <$> dataQueue instance)) ∧
  ∃ instance',
    terminals (handleTerminalReady id cols rows st) !! id = Some instance' ∧
    ready instance' = true ∧ dataQueue instance' = [] ∧
    readyTimeout instance' = false ∧ location instance' = location instance.
Proof.
  intros Hget. unfold handleTerminalReady. rewrite Hget. cbv zeta.
  set (readyInstance :=
         {| location := location instance; config_cwd := config_cwd instance;
            ready := true; dataQueue := dataQueue instance;
            title := title instance; index := index instance;
            icon := icon instance; colorKey := colorKey instance;
            color := color instance; currentCwd := currentCwd instance;
            readyTimeout := false |}).
  set (st0 := if readyTimeout instance then emit (ClearReadyTimeout id) st else st).
  set (st1 := set_terminals (<[id := readyInstance]> (terminals (emit (PtyResize id cols rows) st0)))
                (emit (PtyResize id cols rows) st0)).
  assert (terminals st1 !! id = Some readyInstance) as Hget1
    by (subst st1; simpl; apply lookup_insert_eq).
  assert (effects st1 =
          effects st ++ (if readyTimeout instance then [ClearReadyTimeout id] else []) ++
          [PtyResize id cols rows]) as He1.
  { subst st1 st0. destruct (readyTimeout instance); simpl;
      by rewrite <- ?app_assoc, ?app_nil_r. }
  clearbody st1.
  rewrite (postToTerminal_ready id (UpdateSettings id) st1 readyInstance Hget1 eq_refl).
  set (st2 := emit _ st1).
  rewrite (postToTerminal_ready id (UpdateTheme id) st2 readyInstance Hget1 eq_refl).
  set (st3 := emit _ st2).
  rewrite (postToTerminal_ready id UpdateConfig st3 readyInstance Hget1 eq_refl).
  set (st4 := emit _ st3).
  split.
  - simpl. rewrite (flush_effects id _ st4 readyInstance Hget1 eq_refl).
    subst st4 st3 st2. simpl. rewrite He1, <- !app_assoc. simpl.
    do 6 f_equal. by rewrite <- list_fmap_compose.
  - eexists. simpl. rewrite lookup_insert_eq. split; [reflexivity|]. done.
Qed.

Lemma handleTerminalReady_flush_witness :
  terminals Samples.one !! "t1" = Some (Samples.created 1) ∧
  effects (handleTerminalReady "t1" 80 24
             (handlePtyData (λ _, Parsed None) (λ _, None) true 8 "t1" "b"
                (handlePtyData (λ _, Parsed None) (λ _, None) true 8 "t1" "a"
                   Samples.one).2).2) =
    effects Samples.one ++
    [ClearReadyTimeout "t1"; PtyResize "t1" 80 24;
     PanelPost (UpdateSettings "t1"); PanelPost (UpdateTheme "t1"); PanelPost UpdateConfig;
     PanelPost (PtyData "t1" "a"); PanelPost (PtyData "t1" "b")].
Proof.
  split; [reflexivity|].
  set (st := (handlePtyData _ _ _ _ "t1" "b" _).2).
  assert (∃ instance, terminals st !! "t1" = Some instance ∧
            readyTimeout instance = true ∧ location instance = Panel ∧
            dataQueue instance = ["a"; "b"] ∧ effects st = effects Samples.one)
    as (instance & Hget & Htimer & Hloc & Hqueue & He).
  { eexists. split; [by vm_compute|]. by vm_compute. }
  rewrite (proj1 (handleTerminalReady_flush "t1" 80 24 st instance Hget)).
  rewrite Htimer, Hloc, Hqueue, He. reflexivity.
Defined.

(** ** Where a split puts the new terminal *)

(** A successful [createPanelTerminalForSplit]: the id is returned, the
    group tables are not touched, and the id enters the order list
    behind [insertAfter] (at the end if [insertAfter] is not listed). *)
Lemma createPanelTerminalForSplit_ok_fields id cwd insertAfter st :
  (createPanelTerminalForSplit id cwd insertAfter SpawnOk st).1 = Some id ∧
  groups (createPanelTerminalForSplit id cwd insertAfter SpawnOk st).2 = groups st ∧
  terminalToGroup (createPanelTerminalForSplit id cwd insertAfter SpawnOk st).2 =
    terminalToGroup st ∧
  terminalOrder (createPanelTerminalForSplit id cwd insertAfter SpawnOk st).2 =
    insertAfterOrPush insertAfter id (terminalOrder st).
Proof.
  unfold createPanelTerminalForSplit, spawnPty, armReadyTimeout.
  by destruct (getNextIndex (usedIndices st)).
Qed.

(** What a successful [createPanelTerminalForSplit] asks of the host:
    the spawn, the ready timer, and an [add-tab] that does not
    activate. *)
Lemma createPanelTerminalForSplit_ok_effects id cwd insertAfter st :
  effects (createPanelTerminalForSplit id cwd insertAfter SpawnOk st).2 =
    effects st ++
    [PtySpawn id cwd; SetReadyTimeout id;
     PanelPost (AddTab id ("Terminal " +:+ pretty (getNextIndex (usedIndices st)).1)
                  false None None None (Some insertAfter))].
Proof.
  unfold createPanelTerminalForSplit, spawnPty, armReadyTimeout.
  destruct (getNextIndex (usedIndices st)). simpl. by rewrite <- !app_assoc.
Qed.

(** Where [insertAfterOrPush] puts the new element. *)
Lemma insertAfterOrPush_spec anchor x l :
  (anchor ∈ l →
   ∃ pre post, l = pre ++ anchor :: post ∧ (anchor ∉ pre) ∧
               insertAfterOrPush anchor x l = pre ++ anchor :: x :: post) ∧
  (anchor ∉ l → insertAfterOrPush anchor x l = l ++ [x]).
Proof.
  split; [apply insertAfterOrPush_present|apply insertAfterOrPush_absent].
Qed.

(** Replacing the value of a present key keeps the keys and their order. *)
Lemma JsMap_set_keys {V} k (v : V) m :
  is_Some (JsMap.get k m) → (JsMap.set k v m).*1 = m.*1.
Proof.
  induction m as [|[k' v'] m IH]; simpl; [by intros [? ?]|].
  destruct (decide (k' = k)) as [->|Hne]; [done|].
  intros Hsome. rewrite fmap_cons. simpl. by rewrite IH.
Qed.

(** X4.  Splitting a standalone panel terminal (spawn succeeding, the
    fresh terminal id a non-empty string): the handler returns; a new
    group with exactly the panes [source; new] is registered under the
    fresh group id and both terminals are mapped to it; in the order
    list the new terminal sits immediately after the first occurrence
    of the source, or at the end when the source is not listed; the
    host is asked, in this order, for the spawn, the ready timer, an
    [add-tab] that does not activate, [group-created] and
    [split-terminal]. *)
Theorem handleSplitTerminal_standalone
    workspaceCwd sourceTerminalId sourceInstance newGroupId newId st :
  terminals st !! sourceTerminalId = Some sourceInstance →
  location sourceInstance = Panel →
  truthyStr (terminalToGroup st !! sourceTerminalId) = None →
  newId ≠ "" →
  let r := handleSplitTerminal workspaceCwd sourceTerminalId newGroupId newId
             SpawnOk st in
  let cwd := match currentCwd sourceInstance with
             | Some c => Some c
             | None => workspaceCwd
             end in
  let group := {| TerminalGroup.id := newGroupId;
                  TerminalGroup.terminals := [sourceTerminalId; newId] |} in
  r.1 = Returned ∧
  JsMap.get newGroupId (groups r.2) = Some group ∧
  terminalToGroup r.2 !! sourceTerminalId = Some newGroupId ∧
  terminalToGroup r.2 !! newId = Some newGroupId ∧
  (sourceTerminalId ∈ terminalOrder st →
   ∃ pre post,
     terminalOrder st = pre ++ sourceTerminalId :: post ∧
     (sourceTerminalId ∉ pre) ∧
     terminalOrder r.2 = pre ++ sourceTerminalId :: newId :: post) ∧
  (sourceTerminalId ∉ terminalOrder st →
   terminalOrder r.2 = terminalOrder st ++ [newId]) ∧
  effects r.2 =
    effects st ++
    [PtySpawn newId cwd; SetReadyTimeout newId;
     PanelPost (AddTab newId ("Terminal " +:+ pretty (getNextIndex (usedIndices st)).1)
                  false None None None (Some sourceTerminalId));
     PanelPost (GroupCreated group);
     PanelPost (SplitTerminal newId newId newGroupId sourceTerminalId)].
Proof.
  intros Hget Hloc Hfree Hid r cwd group. subst r group.
  unfold handleSplitTerminal. rewrite Hget, Hfree.
  rewrite decide_False by (intros Hn; by apply Hn).
  fold cwd.
  set (st0 := set_terminalToGroup _ _).
  destruct (createPanelTerminalForSplit_ok_fields newId cwd sourceTerminalId st0)
    as (Hok & Hg & Httg & Ho).
  pose proof (createPanelTerminalForSplit_ok_effects newId cwd sourceTerminalId st0)
    as He.
  destruct (createPanelTerminalForSplit newId cwd sourceTerminalId SpawnOk st0)
    as [created st1]. subst st0. simpl in Hok, Hg, Httg, Ho, He. subst created.
  rewrite (truthyStr_Some newId Hid), Hg, JsMap_get_set_eq.
  unfold savePersistedState. simpl. rewrite decide_True by done. simpl.
  split; [done|]. split; [apply JsMap_get_set_eq|].
  rewrite Httg, Ho, He. split.
  { destruct (decide (newId = sourceTerminalId)) as [->|Hne].
    - by rewrite lookup_insert_eq.
    - by rewrite lookup_insert_ne, lookup_insert_eq. }
  split; [by rewrite lookup_insert_eq|].
  split; [apply insertAfterOrPush_present|].
  split; [apply insertAfterOrPush_absent|].
  by rewrite <- !app_assoc.
Qed.

Lemma handleSplitTerminal_standalone_witness :
  terminals Samples.two !! "t1" = Some (Samples.created 1) ∧
  terminalOrder Samples.two = ["t1"; "t2"] ∧
  JsMap.get "g1"
    (groups (handleSplitTerminal None "t1" "g1" "t3" SpawnOk Samples.two).2) =
    Some {| TerminalGroup.id := "g1"; TerminalGroup.terminals := ["t1"; "t3"] |} ∧
  terminalOrder (handleSplitTerminal None "t1" "g1" "t3" SpawnOk Samples.two).2 =
    ["t1"; "t3"; "t2"] ∧
  effects (handleSplitTerminal None "t1" "g1" "t3" SpawnOk Samples.two).2 =
    effects Samples.two ++
    [PtySpawn "t3" None; SetReadyTimeout "t3";
     PanelPost (AddTab "t3" "Terminal 3" false None None None (Some "t1"));
     PanelPost (GroupCreated {| TerminalGroup.id := "g1";
                                TerminalGroup.terminals := ["t1"; "t3"] |});
     PanelPost (SplitTerminal "t3" "t3" "g1" "t1")].
Proof.
  destruct (handleSplitTerminal_standalone None "t1" (Samples.created 1) "g1" "t3"
              Samples.two eq_refl eq_refl eq_refl ltac:(done))
    as (_ & Hgroup & _ & _ & _ & _ & Heffects).
  split; [reflexivity|]. split; [reflexivity|]. split; [exact Hgroup|].
  split; [reflexivity|]. rewrite Heffects. reflexivity.
Defined.

(** X5.  Splitting a panel terminal that [terminalToGroup] places in a
    group listing it (spawn succeeding, the fresh terminal id a
    non-empty string; the group id is a non-empty string): the handler
    returns; the group gains the new terminal immediately after the
    first occurrence of the source in pane order and the other panes
    keep their places; the new terminal is mapped to that group; no
    group is added or removed and every other group is as before; in
    the order list the new terminal sits immediately after the first
    occurrence of the source, or at the end when the source is not
    listed; the host is asked, in this order, for the spawn, the ready
    timer, an [add-tab] that does not activate, [group-created] and
    [split-terminal]. *)
Theorem handleSplitTerminal_grouped
    workspaceCwd sourceTerminalId sourceInstance groupId group newGroupId newId st :
  terminals st !! sourceTerminalId = Some sourceInstance →
  location sourceInstance = Panel →
  terminalToGroup st !! sourceTerminalId = Some groupId →
  groupId ≠ "" →
  JsMap.get groupId (groups st) = Some group →
  sourceTerminalId ∈ TerminalGroup.terminals group →
  newId ≠ "" →
  let r := handleSplitTerminal workspaceCwd sourceTerminalId newGroupId newId
             SpawnOk st in
  let cwd := match currentCwd sourceInstance with
             | Some c => Some c
             | None => workspaceCwd
             end in
  r.1 = Returned ∧
  terminalToGroup r.2 !! newId = Some groupId ∧
  (∃ pre post,
     TerminalGroup.terminals group = pre ++ sourceTerminalId :: post ∧
     (sourceTerminalId ∉ pre) ∧
     JsMap.get groupId (groups r.2) =
       Some {| TerminalGroup.id := TerminalGroup.id group;
               TerminalGroup.terminals := pre ++ sourceTerminalId :: newId :: post |} ∧
     effects r.2 =
       effects st ++
       [PtySpawn newId cwd; SetReadyTimeout newId;
        PanelPost (AddTab newId
                     ("Terminal " +:+ pretty (getNextIndex (usedIndices st)).1)
                     false None None None (Some sourceTerminalId));
        PanelPost (GroupCreated
                     {| TerminalGroup.id := groupId;
                        TerminalGroup.terminals :=
                          pre ++ sourceTerminalId :: newId :: post |});
        PanelPost (SplitTerminal newId newId groupId sourceTerminalId)]) ∧
  (groups r.2).*1 = (groups st).*1 ∧
  (∀ k, k ≠ groupId → JsMap.get k (groups r.2) = JsMap.get k (groups st)) ∧
  (sourceTerminalId ∈ terminalOrder st →
   ∃ pre post,
     terminalOrder st = pre ++ sourceTerminalId :: post ∧
     (sourceTerminalId ∉ pre) ∧
     terminalOrder r.2 = pre ++ sourceTerminalId :: newId :: post) ∧
  (sourceTerminalId ∉ terminalOrder st →
   terminalOrder r.2 = terminalOrder st ++ [newId]).
Proof.
  intros Hget Hloc Httg0 Hgid Hgroup Hmember Hid r cwd. subst r.
  destruct (insertAfterOrPush_present sourceTerminalId newId _ Hmember)
    as (pre & post & Hsplit & Hpre & Hins).
  destruct (indexOf_elem _ _ Hmember) as [i Hi].
  unfold insertAfterOrPush in Hins. rewrite Hi in Hins.
  unfold handleSplitTerminal. rewrite Hget, Httg0, (truthyStr_Some groupId Hgid).
  rewrite decide_False by (intros Hn; by apply Hn).
  fold cwd.
  destruct (createPanelTerminalForSplit_ok_fields newId cwd sourceTerminalId st)
    as (Hok & Hg & Httg & Ho).
  pose proof (createPanelTerminalForSplit_ok_effects newId cwd sourceTerminalId st)
    as He.
  destruct (createPanelTerminalForSplit newId cwd sourceTerminalId SpawnOk st)
    as [created st1]. simpl in Hok, Hg, Httg, Ho, He. subst created.
  rewrite (truthyStr_Some newId Hid), Hg, Hgroup, Hi.
  unfold savePersistedState. simpl. rewrite ?Hg, ?Ho, ?He, ?Hins.
  split; [done|]. split; [by rewrite lookup_insert_eq|]. split.
  { exists pre, post. split; [done|]. split; [done|].
    split; [apply JsMap_get_set_eq|]. by rewrite <- !app_assoc. }
  split; [apply JsMap_set_keys; by rewrite Hgroup|].
  split; [intros k Hk; by apply JsMap_get_set_ne|].
  split; [apply insertAfterOrPush_present|apply insertAfterOrPush_absent].
Qed.

Lemma handleSplitTerminal_grouped_witness :
  terminalToGroup Samples.pair !! "t1" = Some "g1" ∧
  JsMap.get "g1" (groups Samples.pair) =
    Some {| TerminalGroup.id := "g1"; TerminalGroup.terminals := ["t1"; "t2"] |} ∧
  groups (handleSplitTerminal None "t1" "g9" "t3" SpawnOk Samples.pair).2 =
    [("g1", {| TerminalGroup.id := "g1";
               TerminalGroup.terminals := ["t1"; "t3"; "t2"] |})] ∧
  terminalOrder (handleSplitTerminal None "t1" "g9" "t3" SpawnOk Samples.pair).2 =
    ["t1"; "t3"; "t2"].
Proof.
  assert ("t1" ∈ ["t1"; "t2"]) as Hin by (apply (bool_decide_unpack _); by vm_compute).
  assert (∃ instance, terminals Samples.pair !! "t1" = Some instance ∧
                      location instance = Panel) as (instance & Hget & Hloc)
    by (eexists; split; by vm_compute).
  destruct (handleSplitTerminal_grouped None "t1" instance "g1"
              {| TerminalGroup.id := "g1"; TerminalGroup.terminals := ["t1"; "t2"] |}
              "g9" "t3" Samples.pair Hget Hloc eq_refl ltac:(done) eq_refl Hin ltac:(done))
    as (_ & _ & _ & Hkeys & _).
  split; [reflexivity|]. split; [reflexivity|]. split; reflexivity.
Defined.

(** ** Joining a group *)

(** X6.  A panel terminal without group joining an existing group: it
    becomes the group's last pane and is mapped to the group; every
    other group is as before; in the order list it is taken out and,
    when the group's previous last member is listed in what remains,
    put back immediately after that member's first occurrence; when
    that member is not listed, or the group had no member, it is put at
    the end.  The panel is sent the updated group, the join and the new
    order, in that order. *)
Theorem handleJoinTerminal_standalone terminalId instance targetGroupId targetGroup st :
  terminals st !! terminalId = Some instance →
  location instance = Panel →
  truthyStr (terminalToGroup st !! terminalId) = None →
  JsMap.get targetGroupId (groups st) = Some targetGroup →
  let st' := handleJoinTerminal terminalId targetGroupId st in
  let members := TerminalGroup.terminals targetGroup ++ [terminalId] in
  let rest := removeFirst terminalId (terminalOrder st) in
  JsMap.get targetGroupId (groups st') =
    Some {| TerminalGroup.id := TerminalGroup.id targetGroup;
            TerminalGroup.terminals := members |} ∧
  (∀ k, k ≠ targetGroupId → JsMap.get k (groups st') = JsMap.get k (groups st)) ∧
  terminalToGroup st' !! terminalId = Some targetGroupId ∧
  (∀ lastMember,
     last (TerminalGroup.terminals targetGroup) = Some lastMember →
     lastMember ∈ rest →
     ∃ pre post,
       rest = pre ++ lastMember :: post ∧
       (lastMember ∉ pre) ∧
       terminalOrder st' = pre ++ lastMember :: terminalId :: post) ∧
  ((∀ lastMember,
      last (TerminalGroup.terminals targetGroup) = Some lastMember →
      lastMember ∉ rest) →
   terminalOrder st' = rest ++ [terminalId]) ∧
  effects st' =
    effects st ++
    [PanelPost (GroupCreated {| TerminalGroup.id := targetGroupId;
                                TerminalGroup.terminals := members |});
     PanelPost (JoinTerminal terminalId targetGroupId);
     PanelPost (ReorderTerminals (terminalOrder st'))].
Proof.
  intros Hget Hloc Hfree Htarget st' members rest. subst st' members rest.
  unfold handleJoinTerminal. rewrite Hget, Hfree, Htarget.
  rewrite decide_False by (intros Hn; by apply Hn).
  unfold savePersistedState. simpl.
  split; [apply JsMap_get_set_eq|].
  split; [intros k Hk; by apply JsMap_get_set_ne|].
  split; [apply lookup_insert_eq|].
  split.
  { intros lastMember Hlast Hin. rewrite Hlast.
    by apply insertAfterOrPush_present. }
  split.
  { intros Habsent. destruct (last (TerminalGroup.terminals targetGroup))
      as [lastMember|] eqn:Hlast; [|done].
    apply insertAfterOrPush_absent. by apply Habsent. }
  by rewrite <- !app_assoc.
Qed.

Lemma handleJoinTerminal_standalone_witness :
  JsMap.get "g1" (groups Samples.pairAndOne) =
    Some {| TerminalGroup.id := "g1"; TerminalGroup.terminals := ["t1"; "t2"] |} ∧
  terminalOrder Samples.pairAndOne = ["t1"; "t2"; "t3"] ∧
  JsMap.get "g1" (groups (handleJoinTerminal "t3" "g1" Samples.pairAndOne)) =
    Some {| TerminalGroup.id := "g1"; TerminalGroup.terminals := ["t1"; "t2"; "t3"] |} ∧
  terminalToGroup (handleJoinTerminal "t3" "g1" Samples.pairAndOne) !! "t3" = Some "g1" ∧
  terminalOrder (handleJoinTerminal "t3" "g1" Samples.pairAndOne) = ["t1"; "t2"; "t3"].
Proof.
  assert (∃ instance, terminals Samples.pairAndOne !! "t3" = Some instance ∧
                      location instance = Panel) as (instance & Hget & Hloc)
    by (eexists; split; by vm_compute).
  destruct (handleJoinTerminal_standalone "t3" instance "g1"
              {| TerminalGroup.id := "g1"; TerminalGroup.terminals := ["t1"; "t2"] |}
              Samples.pairAndOne Hget Hloc eq_refl eq_refl)
    as (Hgroup & _ & Httg & _).
  split; [reflexivity|]. split; [reflexivity|]. split; [exact Hgroup|].
  split; [exact Httg|reflexivity].
Defined.

(** ** What the snapshot holds *)

Lemma savedTerminals_ids st i order :
  Persisted.id <$> savedTerminals st i order =
  filter (λ id, location <$> (terminals st !! id) = Some Panel) order.
Proof.
  revert i. induction order as [|id rest IH]; intros i; simpl; [done|].
  rewrite filter_cons. case_decide as Hpanel.
  - destruct (terminals st !! id) as [instance|]; [|done].
    injection Hpanel as Hloc. rewrite decide_True by done. simpl. by rewrite IH.
  - destruct (terminals st !! id) as [instance|]; [|apply IH].
    rewrite decide_False; [apply IH|]. intros Hloc. apply Hpanel. simpl. by rewrite Hloc.
Qed.

Lemma savedTerminals_descriptor st i order descriptor :
  descriptor ∈ savedTerminals st i order →
  ∃ k instance,
    Persisted.orderIndex descriptor = i + k ∧
    order !! k = Some (Persisted.id descriptor) ∧
    terminals st !! Persisted.id descriptor = Some instance ∧
    location instance = Panel ∧
    Persisted.index descriptor = index instance ∧
    Persisted.userTitle descriptor = Some (title instance) ∧
    Persisted.icon descriptor = icon instance ∧
    Persisted.colorKey descriptor = colorKey instance ∧
    Persisted.color descriptor = color instance ∧
    Persisted.groupId descriptor = terminalToGroup st !! Persisted.id descriptor.
Proof.
  revert i. induction order as [|id rest IH]; intros i; simpl.
  - intros Hin. by apply not_elem_of_nil in Hin.
  - assert (descriptor ∈ savedTerminals st (S i) rest →
            ∃ k instance,
              Persisted.orderIndex descriptor = i + k ∧
              (id :: rest) !! k = Some (Persisted.id descriptor) ∧
              terminals st !! Persisted.id descriptor = Some instance ∧
              location instance = Panel ∧
              Persisted.index descriptor = index instance ∧
              Persisted.userTitle descriptor = Some (title instance) ∧
              Persisted.icon descriptor = icon instance ∧
              Persisted.colorKey descriptor = colorKey instance ∧
              Persisted.color descriptor = color instance ∧
              Persisted.groupId descriptor =
                terminalToGroup st !! Persisted.id descriptor) as Hrest.
    { intros Hin. destruct (IH (S i) Hin) as (k & instance & Hidx & Hk & Hfields).
      exists (S k), instance. split; [lia|]. split; [done|]. exact Hfields. }
    destruct (terminals st !! id) as [instance|] eqn:Hget; [|exact Hrest].
    destruct (decide (location instance = Panel)) as [Hloc|Hloc]; [|exact Hrest].
    intros Hin. apply elem_of_cons in Hin as [->|Hin]; [|by apply Hrest].
    exists 0, instance. simpl. rewrite Hget. repeat split; try done; lia.
Qed.

(** X7.  [savePersistedState] stores a snapshot that lists exactly the
    panel terminals of the order list, in list order (editor terminals
    and ids without an instance are left out); each descriptor's
    [orderIndex] is the terminal's position in the full order list, and
    its title, ordinal, icon, color key, color and group id are the live
    ones.  The snapshot also carries the groups in map order, the
    selection and the list width. *)
Theorem savePersistedState_snapshot st :
  ∃ snapshot,
    stored (savePersistedState st) = Some snapshot ∧
    Persisted.id <$> Persisted.terminals snapshot = getTerminalIds st ∧
    (∀ descriptor, descriptor ∈ Persisted.terminals snapshot →
       ∃ instance,
         terminalOrder st !! Persisted.orderIndex descriptor =
           Some (Persisted.id descriptor) ∧
         terminals st !! Persisted.id descriptor = Some instance ∧
         location instance = Panel ∧
         Persisted.index descriptor = index instance ∧
         Persisted.userTitle descriptor = Some (title instance) ∧
         Persisted.icon descriptor = icon instance ∧
         Persisted.colorKey descriptor = colorKey instance ∧
         Persisted.color descriptor = color instance ∧
         Persisted.groupId descriptor = terminalToGroup st !! Persisted.id descriptor) ∧
    Persisted.groups snapshot = JsMap.values (groups st) ∧
    Persisted.activeTerminalId snapshot = activeTerminalId st ∧
    Persisted.listWidth snapshot = listWidth st.
Proof.
  eexists. split; [reflexivity|]. simpl. split; [apply savedTerminals_ids|].
  split; [|done]. intros descriptor Hin.
  destruct (savedTerminals_descriptor st 0 _ descriptor Hin)
    as (k & instance & Hidx & Hk & Hfields).
  exists instance. rewrite Hidx. simpl. split; [done|]. exact Hfields.
Qed.





(** ** Groups along a run *)

Lemma handleUnsplitTerminalWithoutReorder_groupsHaveTwo terminalId st :
  groupsHaveTwo st → groupsHaveTwo (handleUnsplitTerminalWithoutReorder terminalId st).
Proof.
  intros Hinv. unfold handleUnsplitTerminalWithoutReorder.
  destruct (truthyStr (terminalToGroup st !! terminalId)) as [groupId|]; [|done].
  destruct (JsMap.get groupId (groups st)) as [old|] eqn:Hold; [|done].
  unfold unsplit_settleGroup. intros k group. simpl.
  destruct (decide (length (removeFirst terminalId (TerminalGroup.terminals old)) ≤ 1));
    simpl; destruct (decide (groupId = k)) as [->|Hne].
  - by rewrite JsMap_get_remove_eq.
  - rewrite JsMap_get_remove_ne, JsMap_get_set_ne by done. apply Hinv.
  - rewrite JsMap_get_set_eq. intros [= <-]. simpl. lia.
  - rewrite JsMap_get_set_ne by done. apply Hinv.
Qed.

Lemma handleJoinTerminal_groupsHaveTwo terminalId targetGroupId st :
  groupsHaveTwo st → groupsHaveTwo (handleJoinTerminal terminalId targetGroupId st).
Proof.
  intros Hinv. unfold handleJoinTerminal.
  destruct (terminals st !! terminalId) as [instance|]; [|done].
  destruct (decide (location instance ≠ Panel)); [done|].
  set (st1 := match truthyStr (terminalToGroup st !! terminalId) with
              | Some _ => handleUnsplitTerminalWithoutReorder terminalId st
              | None => st
              end).
  assert (groupsHaveTwo st1) as Hinv1
    by (subst st1; destruct (truthyStr _);
        [by apply handleUnsplitTerminalWithoutReorder_groupsHaveTwo|done]).
  clearbody st1.
  destruct (JsMap.get targetGroupId (groups st1)) as [target|] eqn:Htarget; [|done].
  apply Hinv1 in Htarget as Hlen. unfold savePersistedState.
  intros k group. simpl. destruct (decide (targetGroupId = k)) as [->|Hne].
  - rewrite JsMap_get_set_eq. intros [= <-]. simpl. rewrite length_app. simpl. lia.
  - rewrite JsMap_get_set_ne by done. apply Hinv1.
Qed.

Lemma createPanelTerminal_groups id cwd result st :
  groups (createPanelTerminal id cwd result st).2 = groups st.
Proof.
  unfold createPanelTerminal, spawnPty, armReadyTimeout, savePersistedState.
  destruct (getNextIndex (usedIndices st)). by destruct result.
Qed.

Lemma emitGroups_groups st : groups (emitGroups st) = groups st.
Proof.
  unfold emitGroups. generalize (JsMap.values (groups st)). intros l.
  revert st. induction l as [|group l IH]; intros st; simpl; [done|]. by rewrite IH.
Qed.

Lemma handlePanelReady_groups workspaceCwd resolveColorKey spawnAt autoId autoSpawn st :
  groups (handlePanelReady workspaceCwd resolveColorKey spawnAt autoId autoSpawn st) =
  groups st.
Proof.
  unfold handlePanelReady. cbv zeta.
  set (st0 := emit (PanelPost (HydrateState (listWidth st))) st).
  destruct (hydrateTerminals_trace workspaceCwd resolveColorKey spawnAt 0
              (persistedTerminals st0) st0) as (Hg & _).
  set (st1 := hydrateTerminals _ _ _ _ _ _) in *.
  assert (groups (set_persistedTerminals [] (emitGroups st1)) = groups st) as Hg2
    by (simpl; by rewrite emitGroups_groups, Hg).
  set (st2 := set_persistedTerminals [] (emitGroups st1)) in *. clearbody st2.
  destruct (decide (length (panelTerminals st2) = 0)).
  - by rewrite createPanelTerminal_groups.
  - destruct (truthyStr (activeTerminalId st0)) as [saved|]; [|done].
    destruct (decide (is_Some (terminals st2 !! saved))); done.
Qed.

Lemma postToTerminal_groups id message st :
  groups (postToTerminal id message st) = groups st.
Proof. unfold postToTerminal. branches; reflexivity. Qed.

Lemma handleTerminalReady_groups id cols rows st :
  groups (handleTerminalReady id cols rows st) = groups st.
Proof.
  unfold handleTerminalReady. destruct (terminals st !! id) as [instance|]; [|done].
  simpl.
  assert (∀ queue st', groups (foldl (λ st data, postToTerminal id (PtyData id data) st)
                                 st' queue) = groups st') as Hflush.
  { induction queue as [|data queue IH]; intros st'; simpl; [done|].
    by rewrite IH, postToTerminal_groups. }
  rewrite Hflush, !postToTerminal_groups. by destruct (readyTimeout instance).
Qed.

Lemma handlePtyData_groups parseOSC7 parseOSC9 notificationsEnabled cap id data st :
  groups (handlePtyData parseOSC7 parseOSC9 notificationsEnabled cap id data st).2 =
  groups st.
Proof.
  unfold handlePtyData. destruct (terminals st !! id) as [instance|]; [|done].
  destruct (parseOSC7 data) as [|cwd]; [done|].
  destruct (truthyStr cwd); destruct (truthyStr (parseOSC9 data));
    destruct notificationsEnabled; destruct (ready instance) eqn:Hready; simpl;
    rewrite ?Hready; simpl; rewrite ?postToTerminal_groups; simpl;
    try case_decide; simpl; rewrite ?postToTerminal_groups; done.
Qed.

Section GroupRuns.
Variable workspaceCwd : option string.
Variable resolveColorKey : string → option string.
Variable parseOSC7 : string → Parse.
Variable parseOSC9 : string → option string.
Variable notificationsEnabled : bool.
Variable MAX_DATA_QUEUE_SIZE : nat.

Lemma handleEvent_groupsHaveTwo e st :
  splitSucceeds e →
  groupsHaveTwo st →
  groupsHaveTwo
    (handleEvent workspaceCwd resolveColorKey parseOSC7 parseOSC9
       notificationsEnabled MAX_DATA_QUEUE_SIZE e st).
Proof.
  intros Hok Hinv. destruct e; simpl.
  - intros k group. rewrite handlePanelReady_groups. apply Hinv.
  - intros k group. rewrite handleTerminalReady_groups. apply Hinv.
  - done.
  - by apply destroyTerminal_groupsHaveTwo.
  - intros k group. simpl. rewrite createPanelTerminal_groups. apply Hinv.
  - done.
  - destruct Hok as [-> Hid]. by apply handleSplitTerminal_ok_groupsHaveTwo.
  - by apply handleUnsplitTerminal_groupsHaveTwo.
  - by apply handleJoinTerminal_groupsHaveTwo.
  - done.
  - intros k group. rewrite handlePtyData_groups. apply Hinv.
Qed.

End GroupRuns.

(** ** Moving the members of a group together *)

Lemma filter_all {A} (P : A → Prop) `{∀ x, Decision (P x)} (l : list A) :
  Forall P l → filter P l = l.
Proof.
  induction 1 as [|x l Hx _ IH]; [done|].
  rewrite filter_cons, decide_True by done. by rewrite IH.
Qed.

Lemma filter_none {A} (P : A → Prop) `{∀ x, Decision (P x)} (l : list A) :
  Forall (λ x, ¬ P x) l → filter P l = [].
Proof.
  induction 1 as [|x l Hx _ IH]; [done|].
  by rewrite filter_cons, decide_False.
Qed.

(** Up to the first element with [P], nothing has [P]. *)
Lemma list_find_before {A} (P : A → Prop) `{∀ x, Decision (P x)} (l : list A) i x :
  list_find P l = Some (i, x) →
  Forall (λ y, ¬ P y) (take i l) ∧ length (take i l) = i.
Proof.
  intros (Hi & _ & Hbefore)%list_find_Some. split.
  - apply Forall_forall. intros y (j & Hj & Hlt)%elem_of_take. by apply (Hbefore j).
  - apply length_take_le. apply lookup_lt_Some in Hi. lia.
Qed.

(** The order after a regrouping: the part before the first listed id
    stays, then come the listed ids, then the rest without them. *)
Lemma regroupOrder_found ids order i x :
  list_find (λ id, id ∈ ids) order = Some (i, x) →
  regroupOrder ids order =
    take i order ++ ids ++ filter (λ id, id ∉ ids) (drop i order).
Proof.
  intros Hfind. unfold regroupOrder, spliceIn. rewrite Hfind.
  destruct (list_find_before _ _ _ _ Hfind) as [Hbefore Hlen].
  rewrite <- (take_drop i order) at 1 2. rewrite filter_app.
  rewrite (filter_all (λ id, id ∉ ids) (take i order)) by done.
  rewrite take_app_length', drop_app_length' by done. done.
Qed.




(** ** Grouping a selection *)

Lemma insert_all_lookup (m : gmap string string) (ids : list string) (g k : string) :
  foldl (λ m id, <[id := g]> m) m ids !! k =
  if decide (k ∈ ids) then Some g else m !! k.
Proof.
  revert m. induction ids as [|x ids IH]; intros m; cbn [foldl].
  - destruct (decide (k ∈ [])) as [Hin|_]; [|done]. by apply not_elem_of_nil in Hin.
  - rewrite IH. destruct (decide (k ∈ ids)) as [Hin|Hn].
    + rewrite decide_True; [done|by right].
    + destruct (decide (x = k)) as [->|Hne].
      * rewrite lookup_insert_eq, decide_True; [done|left].
      * rewrite lookup_insert_ne by done. rewrite decide_False; [done|].
        intros [->|?]%elem_of_cons; done.
Qed.

Lemma groupSelected_detach_groupsHaveTwo id st :
  groupsHaveTwo st → groupsHaveTwo (groupSelected_detach id st).
Proof.
  intros Hinv. unfold groupSelected_detach.
  destruct (truthyStr (terminalToGroup st !! id)) as [g|]; [|done].
  destruct (JsMap.get g (groups st)) as [old|] eqn:Hold; [|done].
  intros k group. simpl.
  destruct (decide (length (filter (λ tid, tid ≠ id) (TerminalGroup.terminals old)) ≤ 1));
    simpl; destruct (decide (g = k)) as [->|Hne].
  - by rewrite JsMap_get_remove_eq.
  - rewrite JsMap_get_remove_ne, JsMap_get_set_ne by done. apply Hinv.
  - rewrite JsMap_get_set_eq. intros [= <-]. simpl. lia.
  - rewrite JsMap_get_set_ne by done. apply Hinv.
Qed.

Lemma groupSelected_detach_frame id st :
  terminals (groupSelected_detach id st) = terminals st ∧
  terminalOrder (groupSelected_detach id st) = terminalOrder st ∧
  activeTerminalId (groupSelected_detach id st) = activeTerminalId st.
Proof. unfold groupSelected_detach. repeat split; branches; reflexivity. Qed.

Lemma groupSelected_detachAll ids st :
  let st' := foldl (λ st id, groupSelected_detach id st) st ids in
  (groupsHaveTwo st → groupsHaveTwo st') ∧
  terminals st' = terminals st ∧
  terminalOrder st' = terminalOrder st ∧
  activeTerminalId st' = activeTerminalId st.
Proof.
  revert st. induction ids as [|id ids IH]; intros st; simpl; [done|].
  destruct (IH (groupSelected_detach id st)) as (Hinv & -> & -> & ->).
  destruct (groupSelected_detach_frame id st) as (-> & -> & ->).
  split; [|done]. intros H. by apply Hinv, groupSelected_detach_groupsHaveTwo.
Qed.

(** X11.  [handleGroupSelectedTerminals] groups the panel terminals
    among the listed ids: with fewer than two of them the call changes
    nothing; otherwise the new group holds exactly these ids in the
    listed order, each of them maps to the new group, they are moved
    together in [terminalOrder], no terminal and no selection changes,
    and groups that lose members keep at least two or are dissolved, so
    every group still has two or more members. *)
Theorem handleGroupSelectedTerminals_spec terminalIds groupId st :
  let validIds :=
    filter (λ id, location <$> (terminals st !! id) = Some Panel) terminalIds in
  let st' := handleGroupSelectedTerminals terminalIds groupId st in
  (length validIds < 2 → st' = st) ∧
  (2 ≤ length validIds →
     JsMap.get groupId (groups st') =
       Some {| TerminalGroup.id := groupId; TerminalGroup.terminals := validIds |} ∧
     (∀ id, id ∈ validIds → terminalToGroup st' !! id = Some groupId) ∧
     terminalOrder st' = regroupOrder validIds (terminalOrder st) ∧
     terminals st' = terminals st ∧
     activeTerminalId st' = activeTerminalId st ∧
     last (effects st') =
       Some (PanelPost (GroupCreated {| TerminalGroup.id := groupId;
                                        TerminalGroup.terminals := validIds |})) ∧
     (groupsHaveTwo st → groupsHaveTwo st')).
Proof.
  intros validIds st'. subst st'. unfold handleGroupSelectedTerminals.
  fold validIds.
  assert (length validIds ≤ length terminalIds) as Hle by apply length_filter.
  split.
  - intros Hlt. destruct (decide (length terminalIds < 2)); [done|].
    by rewrite decide_True.
  - intros Hge. rewrite !decide_False by lia. cbv zeta.
    destruct (groupSelected_detachAll validIds st) as (Hinv & Ht & Ho & Ha).
    set (st1 := foldl _ st validIds) in *. clearbody st1.
    unfold savePersistedState. simpl.
    split; [apply JsMap_get_set_eq|].
    split; [intros id Hin; by rewrite insert_all_lookup, decide_True|].
    split; [by rewrite Ho|].
    split; [done|]. split; [done|].
    split; [by rewrite last_snoc|].
    intros H k g. simpl. destruct (decide (groupId = k)) as [->|Hne].
    + rewrite JsMap_get_set_eq. intros [= <-]. simpl. lia.
    + rewrite JsMap_get_set_ne by done. by apply Hinv.
Qed.

Lemma handleGroupSelectedTerminals_spec_witness :
  let st' := handleGroupSelectedTerminals ["t3"; "t1"; "missing"] "g2" Samples.pairAndOne in
  groups st' = [("g2", {| TerminalGroup.id := "g2";
                          TerminalGroup.terminals := ["t3"; "t1"] |})] ∧
  terminalOrder st' = ["t3"; "t1"; "t2"] ∧
  terminalToGroup st' !! "t2" = None ∧
  groupsHaveTwo st'.
Proof.
  assert (groupsHaveTwo Samples.pairAndOne) as Hinv.
  { intros k g.
    assert (groups Samples.pairAndOne =
            [("g1", {| TerminalGroup.id := "g1";
                       TerminalGroup.terminals := ["t1"; "t2"] |})]) as -> by reflexivity.
    simpl. case_decide; [intros [= <-]; simpl; lia|done]. }
  destruct (handleGroupSelectedTerminals_spec ["t3"; "t1"; "missing"] "g2"
              Samples.pairAndOne) as [_ Hspec].
  destruct Hspec as (_ & _ & _ & _ & _ & _ & Htwo); [vm_compute; lia|].
  split; [reflexivity|]. split; [reflexivity|]. split; [reflexivity|].
  exact (Htwo Hinv).
Defined.

(** ** PTY errors *)

(** X12.  [handlePtyError] never leaves the terminal behind: whatever
    the state, the id is not in [terminals] afterwards.  For a known
    terminal the error dialog is shown exactly when the message
    contains neither ["EIO"] nor ["EOF"], and it is the first thing the
    handler does; the rest is [destroyTerminal]. *)
Theorem handlePtyError_destroys id message st :
  terminals (handlePtyError id message st) !! id = None ∧
  (is_Some (terminals st !! id) →
   ∃ st0,
     handlePtyError id message st = destroyTerminal id st0 ∧
     effects st0 =
       effects st ++
       (if includes "EIO" message || includes "EOF" message then []
        else [ShowErrorMessage ("Terminal error: " +:+ message)]) ∧
     terminals st0 = terminals st ∧ groups st0 = groups st ∧
     terminalToGroup st0 = terminalToGroup st ∧ terminalOrder st0 = terminalOrder st ∧
     activeTerminalId st0 = activeTerminalId st ∧ usedIndices st0 = usedIndices st ∧
     stored st0 = stored st).
Proof.
  unfold handlePtyError. destruct (terminals st !! id) as [instance|] eqn:Hget.
  - split.
    + set (st0 := if negb _ then _ else _).
      assert (terminals st0 = terminals st) as Ht by (subst st0; by destruct (negb _)).
      assert (terminals st0 !! id = Some instance) as Hget0 by (by rewrite Ht).
      destruct (destroyTerminal_fields id st0 instance Hget0) as (-> & _).
      apply lookup_delete_eq.
    + intros _. eexists. split; [reflexivity|].
      destruct (includes "EIO" message || includes "EOF" message); simpl;
        rewrite ?app_nil_r; done.
  - split; [done|]. by intros [? ?].
Qed.

Lemma handlePtyError_destroys_witness :
  is_Some (terminals Samples.two !! "t1") ∧
  terminals (handlePtyError "t1" "read EIO" Samples.two) !! "t1" = None ∧
  effects (handlePtyError "t1" "read EIO" Samples.two) =
    effects Samples.two ++ [ClearReadyTimeout "t1"; PtyKill "t1"; PanelPost (RemoveTab "t1")] ∧
  effects (handlePtyError "t1" "spawn ENOMEM" Samples.two) =
    effects Samples.two ++
    [ShowErrorMessage "Terminal error: spawn ENOMEM"; ClearReadyTimeout "t1";
     PtyKill "t1"; PanelPost (RemoveTab "t1")].
Proof.
  split; [by eexists|].
  split; [exact (proj1 (handlePtyError_destroys "t1" "read EIO" Samples.two))|].
  split; reflexivity.
Defined.

(** ** Restarting on a stored snapshot *)

Section Restart.
Variable workspaceCwd : option string.
Variable resolveColorKey : string → option string.

Lemma createPanelTerminalForHydration_ok persisted st :
  let r := createPanelTerminalForHydration workspaceCwd resolveColorKey
             persisted SpawnOk st in
  ∃ idx,
    (∀ n, Persisted.index persisted = Some n → idx = n) ∧
    r.1 = Some (Persisted.id persisted) ∧
    terminals r.2 =
      <[Persisted.id persisted := hydrated resolveColorKey persisted idx]> (terminals st) ∧
    terminalToGroup r.2 = terminalToGroup st ∧
    activeTerminalId r.2 = activeTerminalId st ∧
    listWidth r.2 = listWidth st.
Proof.
  unfold createPanelTerminalForHydration, spawnPty, armReadyTimeout, hydrated.
  destruct (Persisted.index persisted) as [i|];
    [|destruct (getNextIndex (usedIndices st)) as [i used]];
    exists i; simpl; rewrite insert_insert_eq; repeat split; try done.
  by intros n [= ->].
Qed.

(** The replay loop when every spawn succeeds and the descriptors have
    distinct ids. *)
Lemma hydrateTerminals_ok i todo st :
  NoDup (Persisted.id <$> todo) →
  let st' := hydrateTerminals workspaceCwd resolveColorKey (λ _, SpawnOk) i todo st in
  activeTerminalId st' = activeTerminalId st ∧
  listWidth st' = listWidth st ∧
  (∀ persisted, persisted ∈ todo →
     ∃ idx,
       (∀ n, Persisted.index persisted = Some n → idx = n) ∧
       terminals st' !! Persisted.id persisted =
         Some (hydrated resolveColorKey persisted idx) ∧
       terminalToGroup st' !! Persisted.id persisted =
         match truthyStr (Some (Persisted.id persisted)),
               truthyStr (Persisted.groupId persisted) with
         | Some _, Some g => Some g
         | _, _ => terminalToGroup st !! Persisted.id persisted
         end) ∧
  (∀ id, id ∉ Persisted.id <$> todo →
     terminals st' !! id = terminals st !! id ∧
     terminalToGroup st' !! id = terminalToGroup st !! id).
Proof.
  revert i st. induction todo as [|persisted rest IH]; intros i st Hnodup; simpl.
  - repeat split; try done. intros p Hin. by apply not_elem_of_nil in Hin.
  - rewrite fmap_cons in Hnodup. apply NoDup_cons in Hnodup as [Hfresh Hnodup].
    destruct (createPanelTerminalForHydration_ok persisted st)
      as (idx & Hidx & Hid & Ht & Hg & Ha & Hw).
    destruct (createPanelTerminalForHydration workspaceCwd resolveColorKey
                persisted SpawnOk st) as [newId st1].
    simpl in Hid, Ht, Hg, Ha, Hw. subst newId.
    set (st2 := match truthyStr (Some (Persisted.id persisted)) with
                | Some _ => _
                | None => _
                end).
    assert (terminals st2 = terminals st1 ∧ activeTerminalId st2 = activeTerminalId st1 ∧
            listWidth st2 = listWidth st1 ∧
            ∀ id, terminalToGroup st2 !! id =
                  if decide (id = Persisted.id persisted) then
                    match truthyStr (Some (Persisted.id persisted)),
                          truthyStr (Persisted.groupId persisted) with
                    | Some _, Some g => Some g
                    | _, _ => terminalToGroup st !! id
                    end
                  else terminalToGroup st !! id) as (Ht2 & Ha2 & Hw2 & Hg2).
    { subst st2.
      destruct (truthyStr (Some (Persisted.id persisted))) as [newId|] eqn:Hnew;
        [destruct (truthyStr (Persisted.groupId persisted)) as [g|]|];
        simpl; repeat split; try done; intros id; rewrite ?Hg;
        destruct (decide (id = Persisted.id persisted)) as [->|Hne]; try done.
      - simpl in Hnew. case_decide; [done|]. injection Hnew as <-.
        by rewrite lookup_insert_eq.
      - simpl in Hnew. case_decide; [done|]. injection Hnew as <-.
        by rewrite lookup_insert_ne. }
    clearbody st2.
    destruct (IH (S i) st2 Hnodup) as (Ha' & Hw' & Hin' & Hout').
    split; [by rewrite Ha', Ha2|]. split; [by rewrite Hw', Hw2|]. split.
    + intros p [->|Hin]%elem_of_cons.
      * exists idx. split; [done|].
        destruct (Hout' (Persisted.id persisted) Hfresh) as [-> ->].
        rewrite Ht2, Ht, lookup_insert_eq, Hg2, decide_True by done. done.
      * destruct (Hin' p Hin) as (idx' & Hidx' & Hget' & Hgrp').
        exists idx'. split; [done|]. split; [done|]. rewrite Hgrp', Hg2.
        rewrite decide_False; [done|]. intros Heq. apply Hfresh. rewrite <- Heq.
        by apply list_elem_of_fmap_2.
    + intros id Hnotin. apply not_elem_of_cons in Hnotin as [Hne Hnotin].
      destruct (Hout' id Hnotin) as [-> ->].
      rewrite Ht2, Ht, lookup_insert_ne, Hg2, decide_False by done. done.
Qed.

Lemma JsMap_set_fresh {V} k (v : V) m : k ∉ m.*1 → JsMap.set k v m = m ++ [(k, v)].
Proof.
  induction m as [|[k' v'] m IH]; intros Hfresh; simpl; [done|].
  rewrite fmap_cons in Hfresh. apply not_elem_of_cons in Hfresh as [Hne Hfresh].
  rewrite decide_False by done. by rewrite IH.
Qed.

(** [loadPersistedState] rebuilds a group table from its own values. *)
Lemma loadGroups_values (acc m : list (string * TerminalGroup.t)) :
  NoDup (acc.*1 ++ m.*1) →
  Forall (λ entry, entry.1 = TerminalGroup.id entry.2) m →
  foldl (λ m group,
           JsMap.set (TerminalGroup.id group)
             {| TerminalGroup.id := TerminalGroup.id group;
                TerminalGroup.terminals := TerminalGroup.terminals group |} m)
        acc (JsMap.values m) = acc ++ m.
Proof.
  revert acc. induction m as [|[k g] m IH]; intros acc Hnodup Hkeyed; simpl.
  - by rewrite app_nil_r.
  - apply Forall_cons in Hkeyed as [Hk Hkeyed]. simpl in Hk. subst k.
    rewrite JsMap_set_fresh.
    + unfold JsMap.values in IH. rewrite IH; [|by rewrite fmap_app, <- app_assoc|done].
      rewrite <- app_assoc. by destruct g.
    + rewrite fmap_cons in Hnodup. apply NoDup_app in Hnodup as (_ & Hdisj & _).
      intros Hin. apply (Hdisj _ Hin). left.
Qed.

Lemma emitGroups_frame st :
  terminalToGroup (emitGroups st) = terminalToGroup st ∧
  terminalOrder (emitGroups st) = terminalOrder st ∧
  activeTerminalId (emitGroups st) = activeTerminalId st ∧
  listWidth (emitGroups st) = listWidth st.
Proof.
  unfold emitGroups. generalize (JsMap.values (groups st)). intros l.
  revert st. induction l as [|g l IH]; intros st; simpl; [done|].
  specialize (IH (emit (PanelPost (GroupCreated
                    {| TerminalGroup.id := TerminalGroup.id g;
                       TerminalGroup.terminals := TerminalGroup.terminals g |})) st)).
  destruct IH as (H1 & H2 & H3 & H4). simpl in *. by rewrite H1, H2, H3, H4.
Qed.

Lemma surviving_all i todo : surviving (λ _, SpawnOk) i todo = Persisted.id <$> todo.
Proof. revert i. induction todo as [|p rest IH]; intros i; simpl; [done|]. by rewrite IH. Qed.

(** X13.  Restart round trip.  Let [st] hold at least one panel
    terminal in [terminalOrder], with distinct ids.  A manager
    constructed on the snapshot [savePersistedState] stores, after its
    first [panel-ready] with every spawn succeeding, has exactly the
    panel terminals of [st], in the same order, the same selection and
    list width; each terminal is a fresh, not yet ready panel instance
    with the saved title, icon, color key and ordinal, a color resolved
    again from the color key when there is one, and the saved group
    membership.  The group table is the saved one when every group was
    stored under its own id. *)
Theorem restart_restores autoId autoSpawn st :
  getTerminalIds st ≠ [] →
  NoDup (getTerminalIds st) →
  let st' := restart workspaceCwd resolveColorKey autoId autoSpawn
               (savePersistedState st) in
  terminalOrder st' = getTerminalIds st ∧
  getTerminalIds st' = getTerminalIds st ∧
  activeTerminalId st' = activeTerminalId st ∧
  listWidth st' = listWidth st ∧
  persistedTerminals st' = [] ∧
  (groupsKeyed st → NoDup (groups st).*1 → groups st' = groups st) ∧
  (∀ id instance,
     id ∈ getTerminalIds st → terminals st !! id = Some instance →
     ∃ instance',
       terminals st' !! id = Some instance' ∧
       location instance' = Panel ∧
       ready instance' = false ∧
       dataQueue instance' = [] ∧
       title instance' = title instance ∧
       icon instance' = icon instance ∧
       colorKey instance' = colorKey instance ∧
       color instance' =
         match truthyStr (colorKey instance) with
         | Some k => resolveColorKey k
         | None => color instance
         end ∧
       (∀ n, index instance = Some n → index instance' = Some n) ∧
       (id ≠ "" → terminalToGroup st' !! id = truthyStr (terminalToGroup st !! id))) ∧
  (∀ id, id ∉ getTerminalIds st → terminals st' !! id = None).
Proof.
  intros Hsome Hnodup.
  pose proof (savedTerminals_ids st 0 (terminalOrder st)) as Hids.
  fold (getTerminalIds st) in Hids.
  set (todo := savedTerminals st 0 (terminalOrder st)) in *.
  unfold restart, handlePanelReady. cbv zeta.
  set (loaded := emit (PanelPost (HydrateState _)) (loadPersistedState _ _)).
  assert (terminals loaded = ∅ ∧ terminalToGroup loaded = ∅ ∧ terminalOrder loaded = [] ∧
          activeTerminalId loaded = activeTerminalId st ∧ listWidth loaded = listWidth st ∧
          persistedTerminals loaded = todo)
    as (Ht0 & Hg0 & Ho0 & Ha0 & Hw0 & Hp0) by done.
  assert (groupsKeyed st → NoDup (groups st).*1 → groups loaded = groups st) as Hgroups.
  { intros Hkeyed Hkeys. subst loaded. simpl.
    by rewrite (loadGroups_values [] (groups st)). }
  clearbody loaded. rewrite Hp0.
  destruct (hydrateTerminals_trace workspaceCwd resolveColorKey (λ _, SpawnOk) 0 todo loaded)
    as (Hg1 & Ho1 & _).
  rewrite <- Hids in Hnodup.
  destruct (hydrateTerminals_ok 0 todo loaded Hnodup) as (Ha1 & Hw1 & Hin1 & Hout1).
  set (st1 := hydrateTerminals _ _ _ _ _ _) in *. clearbody st1.
  rewrite surviving_all, Ho0, Hids in Ho1. simpl in Ho1.
  set (st2 := set_persistedTerminals [] (emitGroups st1)).
  assert (terminals st2 = terminals st1 ∧ groups st2 = groups st1 ∧
          terminalToGroup st2 = terminalToGroup st1 ∧
          terminalOrder st2 = terminalOrder st1 ∧
          activeTerminalId st2 = activeTerminalId st1 ∧ listWidth st2 = listWidth st1 ∧
          persistedTerminals st2 = []) as (Ht2 & Hg2 & Hm2 & Ho2 & Ha2 & Hw2 & Hp2).
  { subst st2. simpl. rewrite emitGroups_terminals, emitGroups_groups.
    destruct (emitGroups_frame st1) as (-> & -> & -> & ->). done. }
  assert (∀ id instance,
            id ∈ getTerminalIds st → terminals st !! id = Some instance →
            ∃ persisted idx,
              Persisted.id persisted = id ∧
              terminals st1 !! id = Some (hydrated resolveColorKey persisted idx) ∧
              (∀ n, Persisted.index persisted = Some n → idx = n) ∧
              Persisted.index persisted = index instance ∧
              Persisted.userTitle persisted = Some (title instance) ∧
              Persisted.icon persisted = icon instance ∧
              Persisted.colorKey persisted = colorKey instance ∧
              Persisted.color persisted = color instance ∧
              terminalToGroup st1 !! id =
                match truthyStr (Some id), truthyStr (terminalToGroup st !! id) with
                | Some _, Some g => Some g
                | _, _ => None
                end) as Hlive.
  { intros id instance Hin Hget. rewrite <- Hids in Hin.
    apply list_elem_of_fmap in Hin as (p & -> & Hp).
    destruct (Hin1 p Hp) as (idx & Hidx & Hget1 & Hgrp1).
    destruct (savedTerminals_descriptor st 0 _ p Hp)
      as (_ & instance0 & _ & _ & Hget0 & _ & Hf1 & Hf2 & Hf3 & Hf4 & Hf5 & Hf6).
    rewrite Hget in Hget0. injection Hget0 as <-.
    exists p, idx. repeat split; try done.
    rewrite Hgrp1, Hf6, Hg0, lookup_empty. by repeat case_match. }
  assert (length (panelTerminals st2) ≠ 0) as Hpanel.
  { destruct (getTerminalIds st) as [|id rest] eqn:Hlist; [done|].
    assert (id ∈ getTerminalIds st) as Hin by (rewrite Hlist; left).
    pose proof Hin as Hin'. unfold getTerminalIds in Hin'.
    apply list_elem_of_filter in Hin' as [Hloc _].
    destruct (terminals st !! id) as [instance|] eqn:Hget; [|done].
    rewrite <- Hlist in Hlive.
    destruct (Hlive id instance Hin Hget) as (p & idx & _ & Hget1 & _).
    assert (hydrated resolveColorKey p idx ∈ panelTerminals st2) as Hmem.
    { apply elem_of_panelTerminals. split; [done|]. exists id. by rewrite Ht2. }
    destruct (panelTerminals st2); [by apply not_elem_of_nil in Hmem|done]. }
  clearbody st2.
  rewrite decide_False by done.
  set (st3 := match truthyStr (activeTerminalId loaded) with
              | Some _ => _
              | None => _
              end).
  assert (terminals st3 = terminals st2 ∧ groups st3 = groups st2 ∧
          terminalToGroup st3 = terminalToGroup st2 ∧
          terminalOrder st3 = terminalOrder st2 ∧
          activeTerminalId st3 = activeTerminalId st2 ∧ listWidth st3 = listWidth st2 ∧
          persistedTerminals st3 = persistedTerminals st2)
    as (Ht3 & Hg3 & Hm3 & Ho3 & Ha3 & Hw3 & Hp3).
  { subst st3. destruct (truthyStr (activeTerminalId loaded)); [|done].
    by case_decide. }
  clearbody st3.
  assert (terminalOrder st3 = getTerminalIds st) as Horder
    by (by rewrite Ho3, Ho2, Ho1).
  split; [done|]. split.
  { unfold getTerminalIds at 1. rewrite Horder. apply filter_all.
    apply Forall_forall. intros id Hin.
    pose proof Hin as Hin'. unfold getTerminalIds in Hin'.
    apply list_elem_of_filter in Hin' as [Hloc _].
    destruct (terminals st !! id) as [instance|] eqn:Hget; [|done].
    destruct (Hlive id instance Hin Hget) as (p & idx & _ & Hget1 & _).
    by rewrite Ht3, Ht2, Hget1. }
  split; [by rewrite Ha3, Ha2, Ha1|].
  split; [by rewrite Hw3, Hw2, Hw1|].
  split; [by rewrite Hp3|].
  split; [intros Hkeyed Hkeys; by rewrite Hg3, Hg2, Hg1, Hgroups|].
  split.
  - intros id instance Hin Hget.
    destruct (Hlive id instance Hin Hget)
      as (p & idx & Hid & Hget1 & Hidx & Hf1 & Hf2 & Hf3 & Hf4 & Hf5 & Hgrp).
    exists (hydrated resolveColorKey p idx). rewrite Ht3, Ht2, Hm3, Hm2.
    split; [done|]. unfold hydrated. simpl. rewrite Hf2, Hf3, Hf4, Hf5.
    repeat split; try done.
    + intros n Hn. rewrite <- Hf1 in Hn. by rewrite (Hidx n Hn).
    + intros Hne. rewrite Hgrp. simpl. rewrite decide_False by done.
      by destruct (truthyStr (terminalToGroup st !! id)).
  - intros id Hnotin. rewrite Ht3, Ht2. rewrite <- Hids in Hnotin.
    destruct (Hout1 id Hnotin) as [-> _]. by rewrite Ht0.
Qed.
End Restart.

Lemma restart_restores_witness :
  let st' := restart None (λ _, None) "t9" SpawnOk (savePersistedState Samples.pairAndOne) in
  getTerminalIds Samples.pairAndOne = ["t1"; "t2"; "t3"] ∧
  terminalOrder st' = ["t1"; "t2"; "t3"] ∧
  groups st' = groups Samples.pairAndOne ∧
  activeTerminalId st' = Some "t3".
Proof.
  destruct (restart_restores None (λ _, None) "t9" SpawnOk Samples.pairAndOne)
    as (Ho & _ & Ha & _ & _ & Hg & _).
  - by vm_compute.
  - apply (bool_decide_unpack _). by vm_compute.
  - split; [reflexivity|]. split; [exact Ho|]. split; [|exact Ha].
    apply Hg.
    + repeat constructor.
    + apply (bool_decide_unpack _). by vm_compute.
Defined.

(** ** A later [panel-ready] *)

Lemma emit_all {A} (f : A → HostEffect) (l : list A) st :
  foldl (λ st x, emit (f x) st) st l =
  {| terminals := terminals st; groups := groups st;
     terminalToGroup := terminalToGroup st; terminalOrder := terminalOrder st;
     activeTerminalId := activeTerminalId st; listWidth := listWidth st;
     persistedTerminals := persistedTerminals st; usedIndices := usedIndices st;
     effects := effects st ++ (f <$> l); stored := stored st |}.
Proof.
  revert st. induction l as [|x l IH]; intros st; simpl.
  - rewrite app_nil_r. by destruct st.
  - rewrite IH. simpl. by rewrite <- app_assoc.
Qed.

(** X14.  A [panel-ready] that finds no descriptor left to replay and
    at least one panel terminal (any [panel-ready] after the first one,
    for instance) starts nothing and adds no tab: it only posts the
    list width, one [group-created] per group in map order and, when
    the selected terminal still exists, [activate-tab] and
    [focus-terminal].  No field of the manager changes. *)
Theorem handlePanelReady_again workspaceCwd resolveColorKey spawnAt autoId autoSpawn st :
  persistedTerminals st = [] →
  panelTerminals st ≠ [] →
  handlePanelReady workspaceCwd resolveColorKey spawnAt autoId autoSpawn st =
  {| terminals := terminals st; groups := groups st;
     terminalToGroup := terminalToGroup st; terminalOrder := terminalOrder st;
     activeTerminalId := activeTerminalId st; listWidth := listWidth st;
     persistedTerminals := []; usedIndices := usedIndices st;
     effects :=
       effects st ++
       PanelPost (HydrateState (listWidth st)) ::
       ((λ group, PanelPost (GroupCreated group)) <$> JsMap.values (groups st)) ++
       match truthyStr (activeTerminalId st) with
       | Some active =>
           if decide (is_Some (terminals st !! active))
           then [PanelPost (ActivateTab active); PanelPost FocusTerminal]
           else []
       | None => []
       end;
     stored := stored st |}.
Proof.
  intros Hnone Hpanel. unfold handlePanelReady. cbv zeta.
  change (persistedTerminals (emit (PanelPost (HydrateState (listWidth st))) st))
    with (persistedTerminals st).
  rewrite Hnone. cbn [hydrateTerminals]. unfold emitGroups.
  rewrite (emit_all (λ group, PanelPost (GroupCreated
                       {| TerminalGroup.id := TerminalGroup.id group;
                          TerminalGroup.terminals := TerminalGroup.terminals group |}))).
  assert ((λ group, PanelPost (GroupCreated
             {| TerminalGroup.id := TerminalGroup.id group;
                TerminalGroup.terminals := TerminalGroup.terminals group |})) <$>
          JsMap.values (groups st) =
          (λ group, PanelPost (GroupCreated group)) <$> JsMap.values (groups st)) as Heta.
  { apply list_fmap_ext. intros _ group _. by destruct group. }
  simpl. rewrite Heta.
  rewrite decide_False.
  - destruct (truthyStr (activeTerminalId st)) as [active|]; simpl;
      [destruct (decide (is_Some (terminals st !! active))); simpl|];
      f_equal; rewrite <- ?app_assoc; simpl; rewrite <- ?app_assoc, ?app_nil_r; done.
  - intros Hlen. apply Hpanel. apply nil_length_inv. by rewrite <- Hlen.
Qed.

Lemma handlePanelReady_again_witness :
  persistedTerminals Samples.pair = [] ∧
  effects (handlePanelReady None (λ _, None) (λ _, SpawnOk) "t9" SpawnOk Samples.pair) =
    effects Samples.pair ++
    [PanelPost (HydrateState 180);
     PanelPost (GroupCreated {| TerminalGroup.id := "g1";
                                TerminalGroup.terminals := ["t1"; "t2"] |});
     PanelPost (ActivateTab "t1"); PanelPost FocusTerminal].
Proof.
  split; [reflexivity|].
  rewrite (handlePanelReady_again None (λ _, None) (λ _, SpawnOk) "t9" SpawnOk Samples.pair);
    [reflexivity|reflexivity|by vm_compute].
Defined.


(** ** The color palette *)

(** X16.  [resolveColorKey] is defined exactly for the eight palette
    ids; for those it is never [undefined]: it yields the theme's value
    under the entry's theme key when the theme has one, and the entry's
    fallback otherwise. *)
Theorem resolveColorKey_palette theme colorKey :
  (is_Some (Colors.resolveColorKey theme colorKey) ↔
   colorKey ∈ ["red"; "orange"; "yellow"; "green"; "blue"; "purple"; "magenta"; "cyan"]) ∧
  (∀ colorDef, colorDef ∈ Colors.TERMINAL_COLORS →
     Colors.resolveColorKey theme (Colors.id colorDef) =
       Some (default (Colors.fallback colorDef) (theme (Colors.themeKey colorDef)))).
Proof.
  split.
  - split.
    + intros Hsome. unfold Colors.resolveColorKey in Hsome.
      destruct (list_find _ _) as [[i colorDef]|] eqn:Hfind; [|by destruct Hsome].
      apply list_find_Some in Hfind as (Hi & <- & _).
      apply list_elem_of_lookup_2 in Hi. unfold Colors.TERMINAL_COLORS in Hi.
      repeat (apply elem_of_cons in Hi as [->|Hi];
              [apply (bool_decide_unpack _); by vm_compute|]).
      by apply not_elem_of_nil in Hi.
    + intros Hin.
      repeat (apply elem_of_cons in Hin as [->|Hin];
              [unfold Colors.resolveColorKey; simpl; by destruct (theme _)|]).
      by apply not_elem_of_nil in Hin.
  - intros colorDef Hin. unfold Colors.TERMINAL_COLORS in Hin.
    repeat (apply elem_of_cons in Hin as [->|Hin];
            [unfold Colors.resolveColorKey; simpl; by destruct (theme _)|]).
    by apply not_elem_of_nil in Hin.
Qed.

(** ** The provider's message queue *)

Section Provider.
Import PanelProvider.

Lemma step_drained e p : drained p → drained (step e p).
Proof.
  unfold drained. destruct p as [[[]|] [] queue sent]; destruct e as [[]|[]| | |m];
    simpl; intros Hinv; try done; intros; by rewrite ?Hinv.
Qed.

Lemma step_conserves e p :
  drained p →
  delivered (step e p) ++ messageQueue (step e p) =
  delivered p ++ messageQueue p ++ posted [e].
Proof.
  unfold drained. destruct p as [[[]|] [] queue sent]; destruct e as [[]|[]| | |m];
    simpl; intros Hinv; rewrite ?app_nil_r, <- ?app_assoc; try done.
  by rewrite Hinv.
Qed.

Lemma run_conserves steps p :
  drained p →
  drained (run steps p) ∧
  delivered (run steps p) ++ messageQueue (run steps p) =
  delivered p ++ messageQueue p ++ posted steps.
Proof.
  revert p. induction steps as [|e steps IH]; intros p Hinv.
  - split; [done|]. unfold posted. simpl. by rewrite app_nil_r.
  - destruct (IH (step e p) (step_drained e p Hinv)) as [Hinv' Heq].
    split; [exact Hinv'|]. unfold run in *. simpl. rewrite Heq.
    rewrite (app_assoc (delivered (step e p))), (step_conserves e p Hinv).
    unfold posted. simpl. destruct e; simpl; rewrite <- ?app_assoc, ?app_nil_r; done.
Qed.

(** X17.  The provider neither loses, duplicates nor reorders a
    message: after any sequence of view resolutions, visibility
    changes, disposals, [panel-ready] messages and posts on a new
    provider, the messages handed to the webview followed by the queued
    ones are exactly the posted ones, in posting order; and whenever
    the view is ready and visible the queue is empty, so everything
    posted has been handed over. *)
Theorem postMessage_fifo steps :
  let p := run steps created in
  delivered p ++ messageQueue p = posted steps ∧
  (isReady p = true → view p = Some true → delivered p = posted steps).
Proof.
  assert (drained created) as Hinit by done.
  destruct (run_conserves steps created Hinit) as [Hinv Heq]. simpl in Heq.
  split; [exact Heq|]. intros Hready Hvisible.
  rewrite <- Heq, (Hinv Hready Hvisible). by rewrite app_nil_r.
Qed.
End Provider.

(** ** Groups along a run of panel messages *)

Lemma handleGroupReordered_groupsHaveTwo groupId terminalIds st :
  2 ≤ length terminalIds →
  groupsHaveTwo st → groupsHaveTwo (handleGroupReordered groupId terminalIds st).
Proof.
  intros Hlen Hinv. unfold handleGroupReordered.
  destruct (JsMap.get groupId (groups st)) as [group|]; [|done].
  unfold savePersistedState. intros k g. simpl.
  destruct (decide (groupId = k)) as [->|Hne].
  - rewrite JsMap_get_set_eq. by intros [= <-].
  - rewrite JsMap_get_set_ne by done. apply Hinv.
Qed.

Lemma handleGroupSelectedTerminals_groupsHaveTwo terminalIds groupId st :
  groupsHaveTwo st → groupsHaveTwo (handleGroupSelectedTerminals terminalIds groupId st).
Proof.
  intros Hinv. unfold handleGroupSelectedTerminals.
  destruct (decide (length terminalIds < 2)); [done|].
  set (validIds := filter _ terminalIds).
  destruct (decide (length validIds < 2)); [done|]. cbv zeta.
  destruct (groupSelected_detachAll validIds st) as (Hinv1 & _).
  set (st1 := foldl _ st validIds) in *. clearbody st1.
  unfold savePersistedState. intros k g. simpl.
  destruct (decide (groupId = k)) as [->|Hne].
  - rewrite JsMap_get_set_eq. intros [= <-]. simpl. lia.
  - rewrite JsMap_get_set_ne by done. by apply Hinv1.
Qed.

Section PanelRuns.
Variable workspaceCwd : option string.
Variable resolveColorKey : string → option string.
Variable parseOSC7 : string → Parse.
Variable parseOSC9 : string → option string.
Variable notificationsEnabled : bool.
Variable MAX_DATA_QUEUE_SIZE : nat.

Lemma handlePanelEvent_groupsHaveTwo e st :
  keepsPairs e →
  groupsHaveTwo st →
  groupsHaveTwo
    (handlePanelEvent workspaceCwd resolveColorKey parseOSC7 parseOSC9
       notificationsEnabled MAX_DATA_QUEUE_SIZE e st).
Proof.
  intros Hok Hinv. destruct e as [e|id newTitle|groupId ids|width|ids groupId]; simpl.
  - by apply handleEvent_groupsHaveTwo.
  - unfold handleTabRenamed. by destruct (terminals st !! id).
  - by apply handleGroupReordered_groupsHaveTwo.
  - done.
  - by apply handleGroupSelectedTerminals_groupsHaveTwo.
Qed.

(** X9.  Groups never drop below two members along a run of the
    embedded panel messages and PTY output in which every split's spawn
    succeeds (with a non-empty fresh id) and every [group-reordered]
    message lists at least two ids: starting from a state where each
    group has at least two members, any such sequence of [panel-ready],
    [terminal-ready], [tab-activated], [tab-close-requested],
    [new-tab-requested], [tab-renamed], [terminal-selected],
    [split-requested], [unsplit-requested], [join-requested],
    [terminals-reordered], [group-reordered], [list-width-changed] and
    [group-selected-requested] messages and PTY chunks leaves each
    group in the [groups] map with at least two members. *)
Theorem run_groupsHaveTwo events st :
  Forall keepsPairs events →
  groupsHaveTwo st →
  groupsHaveTwo
    (foldl (λ st e, handlePanelEvent workspaceCwd resolveColorKey parseOSC7 parseOSC9
                      notificationsEnabled MAX_DATA_QUEUE_SIZE e st) st events).
Proof.
  intros Hok. revert st. induction Hok as [|e events He Hok IH]; intros st Hinv; simpl.
  - done.
  - apply IH. by apply handlePanelEvent_groupsHaveTwo.
Qed.
End PanelRuns.

Lemma run_groupsHaveTwo_witness :
  let events :=
    [Embedded (NewTabRequested "t1" SpawnOk);
     Embedded (SplitRequested "t1" "g1" "t2" SpawnOk);
     Embedded (SplitRequested "t2" "g2" "t3" SpawnOk);
     GroupReordered "g1" ["t3"; "t2"; "t1"];
     Embedded (NewTabRequested "t4" SpawnOk);
     GroupSelectedRequested ["t4"; "t1"] "g3";
     Embedded (TabCloseRequested "t1");
     Embedded (JoinRequested "t4" "g1");
     Embedded (UnsplitRequested "t3");
     Embedded (OnData "t2" Samples.malformedOSC7)] in
  let st := foldl (λ st e, handlePanelEvent None (λ _, None) Samples.decodeFails
                             (λ _, None) true 8 e st) initial events in
  Forall keepsPairs events ∧
  groupsHaveTwo initial ∧
  groups st = [("g1", {| TerminalGroup.id := "g1";
                         TerminalGroup.terminals := ["t2"; "t4"] |})] ∧
  groupsHaveTwo st.
Proof.
  assert (groupsHaveTwo initial) as Hinit by (intros k group Hk; done).
  assert (Forall keepsPairs
            [Embedded (NewTabRequested "t1" SpawnOk);
             Embedded (SplitRequested "t1" "g1" "t2" SpawnOk);
             Embedded (SplitRequested "t2" "g2" "t3" SpawnOk);
             GroupReordered "g1" ["t3"; "t2"; "t1"];
             Embedded (NewTabRequested "t4" SpawnOk);
             GroupSelectedRequested ["t4"; "t1"] "g3";
             Embedded (TabCloseRequested "t1");
             Embedded (JoinRequested "t4" "g1");
             Embedded (UnsplitRequested "t3");
             Embedded (OnData "t2" Samples.malformedOSC7)]) as Hok.
  { repeat constructor; simpl; try done; lia. }
  split; [exact Hok|]. split; [exact Hinit|]. split; [by vm_compute|].
  exact (run_groupsHaveTwo None (λ _, None) Samples.decodeFails (λ _, None) true 8
           _ initial Hok Hinit).
Defined.

(** ** Restarting without panel terminals *)

(** X20.  A manager holding no panel terminal in [terminalOrder]
    stores a snapshot without descriptors; a manager restarted on it
    replays nothing and, on its first [panel-ready], opens exactly one
    terminal (the spawn succeeding): ["Terminal 1"] with ordinal 1, not
    yet ready, alone in [terminals] and in [terminalOrder], and
    selected.  The panel is sent the list width, the saved groups and
    an activating [add-tab]. *)
Theorem restart_without_panel_terminals workspaceCwd resolveColorKey autoId st :
  getTerminalIds st = [] →
  let st' := restart workspaceCwd resolveColorKey autoId SpawnOk
               (savePersistedState st) in
  terminals st' =
    {[autoId := {| location := Panel; config_cwd := None; ready := false;
                   dataQueue := []; title := "Terminal 1"; index := Some 1;
                   icon := None; colorKey := None; color := None;
                   currentCwd := None; readyTimeout := true |}]} ∧
  terminalOrder st' = [autoId] ∧
  activeTerminalId st' = Some autoId ∧
  usedIndices st' = {[1]} ∧
  listWidth st' = listWidth st ∧
  effects st' =
    PanelPost (HydrateState (listWidth st)) ::
    ((λ group, PanelPost (GroupCreated group)) <$> JsMap.values (groups st' )) ++
    [PtySpawn autoId None; SetReadyTimeout autoId;
     PanelPost (AddTab autoId "Terminal 1" true None None None None)].
Proof.
  intros Hnone.
  assert (savedTerminals st 0 (terminalOrder st) = []) as Htodo.
  { apply (fmap_nil_inv Persisted.id). by rewrite savedTerminals_ids. }
  set (loaded := loadPersistedState (stored (savePersistedState st)) initial).
  assert (terminals loaded = ∅ ∧ terminalToGroup loaded = ∅ ∧ terminalOrder loaded = [] ∧
          listWidth loaded = listWidth st ∧ persistedTerminals loaded = [] ∧
          usedIndices loaded = ∅ ∧ effects loaded = [] ∧ stored loaded = None)
    as (Ht & Hm & Ho & Hw & Hp & Hu & He & Hs).
  { subst loaded. unfold savePersistedState. simpl. rewrite Htodo. done. }
  intros st'. subst st'. unfold restart. fold loaded. clearbody loaded.
  destruct loaded as [t g m o a w p u e s]. simpl in *. subst.
  unfold handlePanelReady. cbv zeta. cbn [persistedTerminals emit hydrateTerminals].
  unfold emitGroups. rewrite emit_all. cbn [groups set_persistedTerminals].
  assert (getNextIndex (∅ : gset nat) = (1, {[1]} ∪ ∅)) as Hnext by (by vm_compute).
  rewrite decide_True
    by (unfold panelTerminals; cbn [terminals]; by rewrite map_to_list_empty).
  unfold createPanelTerminal. cbn [usedIndices]. rewrite Hnext.
  unfold spawnPty, armReadyTimeout, savePersistedState. simpl.
  rewrite insert_insert_eq.
  split; [done|]. split; [done|]. split; [done|].
  split; [set_solver|]. split; [done|].
  rewrite <- !app_assoc. simpl. f_equal. f_equal.
  apply list_fmap_ext. intros _ group _. by destruct group.
Qed.

Lemma restart_without_panel_terminals_witness :
  let st' := restart None (λ _, None) "t9" SpawnOk (savePersistedState initial) in
  getTerminalIds initial = [] ∧
  terminalOrder st' = ["t9"] ∧
  activeTerminalId st' = Some "t9" ∧
  effects st' =
    [PanelPost (HydrateState 180); PtySpawn "t9" None; SetReadyTimeout "t9";
     PanelPost (AddTab "t9" "Terminal 1" true None None None None)].
Proof.
  destruct (restart_without_panel_terminals None (λ _, None) "t9" initial eq_refl)
    as (_ & Ho & Ha & _ & _ & He).
  split; [reflexivity|]. split; [exact Ho|]. split; [exact Ha|].
  rewrite He. reflexivity.
Defined.

(** * The items of the terminal list *)

Section ListItemsFacts.
Import TerminalList ListItems.

Lemma findItemIndex_indexOf x (l : list Item) :
  findItemIndex x l = indexOf x (TerminalList.id <$> l).
Proof.
  unfold findItemIndex. induction l as [|i l IH]; [done|].
  rewrite fmap_cons. cbn [indexOf list_find].
  destruct (decide (TerminalList.id i = x)); [done|].
  rewrite <- IH. by destruct (list_find _ l) as [[? ?]|].
Qed.

Lemma findItem_Some x (l : list Item) item :
  findItem x l = Some item → item ∈ l ∧ TerminalList.id item = x.
Proof.
  unfold findItem. destruct (list_find _ l) as [[i it]|] eqn:Hfind; [|done].
  intros [= <-]. apply list_find_Some in Hfind as (Hi & Hid & _).
  split; [by eapply list_elem_of_lookup_2|done].
Qed.

Lemma findItem_elem x (l : list Item) :
  x ∈ TerminalList.id <$> l → is_Some (findItem x l).
Proof.
  intros (item & -> & Hin)%list_elem_of_fmap. unfold findItem.
  destruct (list_find_elem_of (λ i, TerminalList.id i = TerminalList.id item) l item)
    as [[i it] ->]; done.
Qed.

Lemma fmap_filter_id (P : string → Prop) `{∀ x, Decision (P x)} (l : list Item) :
  TerminalList.id <$> filter (λ item, P (TerminalList.id item)) l =
  filter P (TerminalList.id <$> l).
Proof.
  induction l as [|i l IH]; [done|].
  rewrite fmap_cons, !filter_cons.
  destruct (decide (P (TerminalList.id i))); [rewrite fmap_cons|]; by rewrite IH.
Qed.

(** Items with distinct ids are told apart by their ids. *)
Lemma item_of_id (l : list Item) i j :
  NoDup (TerminalList.id <$> l) → i ∈ l → j ∈ l →
  TerminalList.id i = TerminalList.id j → i = j.
Proof.
  induction l as [|k l IH]; intros Hnd Hi Hj Heq.
  - by apply not_elem_of_nil in Hi.
  - rewrite fmap_cons in Hnd. apply NoDup_cons in Hnd as [Hk Hnd].
    apply elem_of_cons in Hi as [->|Hi]; apply elem_of_cons in Hj as [->|Hj].
    + done.
    + exfalso. apply Hk. rewrite Heq. by apply list_elem_of_fmap_2.
    + exfalso. apply Hk. rewrite <- Heq. by apply list_elem_of_fmap_2.
    + by apply IH.
Qed.

Lemma insertAfterOrPush_Permutation anchor x l : insertAfterOrPush anchor x l ≡ₚ x :: l.
Proof.
  unfold insertAfterOrPush, spliceIn. destruct (indexOf anchor l) as [i|].
  - rewrite <- (take_drop (S i) l) at 3. simpl. by rewrite Permutation_middle.
  - by rewrite Permutation_app_comm.
Qed.

(** The ids after [addTerminal] of an item whose id is not listed. *)
Lemma addTerminal_ids_new item insertAfter s :
  TerminalList.id item ∉ getTerminalIds s →
  getTerminalIds (addTerminal item insertAfter s) =
    match truthyStr insertAfter with
    | Some anchor => insertAfterOrPush anchor (TerminalList.id item) (getTerminalIds s)
    | None => getTerminalIds s ++ [TerminalList.id item]
    end.
Proof.
  intros Hout. unfold addTerminal, getTerminalIds in *.
  rewrite (findItemIndex_indexOf (TerminalList.id item)).
  rewrite (proj2 (indexOf_None _ _) Hout). simpl.
  destruct (truthyStr insertAfter) as [anchor|]; [|by rewrite fmap_app].
  rewrite (findItemIndex_indexOf anchor). unfold insertAfterOrPush, spliceIn.
  destruct (indexOf anchor (TerminalList.id <$> items s)) as [afterIndex|].
  - by rewrite fmap_app, fmap_cons, fmap_take, fmap_drop.
  - by rewrite fmap_app.
Qed.

(** X21.  [addTerminal] keeps the list in step with the manager's
    order list.  An item whose id is already listed replaces the listed
    item in place, so the ids do not change.  A new item is inserted
    right after the first item with the [insertAfter] id, or appended
    when [insertAfter] is missing, empty or not listed: the ids become
    what [insertAfterOrPush] makes of them, which is how
    [createPanelTerminalForSplit] updates [terminalOrder].  Distinct
    ids stay distinct. *)
Theorem addTerminal_ids item insertAfter s :
  (TerminalList.id item ∈ getTerminalIds s →
   getTerminalIds (addTerminal item insertAfter s) = getTerminalIds s ∧
   findItem (TerminalList.id item) (items (addTerminal item insertAfter s)) =
     Some item) ∧
  (TerminalList.id item ∉ getTerminalIds s →
   getTerminalIds (addTerminal item insertAfter s) =
     match truthyStr insertAfter with
     | Some anchor => insertAfterOrPush anchor (TerminalList.id item) (getTerminalIds s)
     | None => getTerminalIds s ++ [TerminalList.id item]
     end) ∧
  (NoDup (getTerminalIds s) → NoDup (getTerminalIds (addTerminal item insertAfter s))).
Proof.
  assert (TerminalList.id item ∈ getTerminalIds s →
          getTerminalIds (addTerminal item insertAfter s) = getTerminalIds s ∧
          findItem (TerminalList.id item) (items (addTerminal item insertAfter s)) =
            Some item) as Hold.
  { intros Hin. unfold addTerminal, getTerminalIds, findItemIndex, findItem in *.
    apply list_elem_of_fmap in Hin as (it & Heq & Hit).
    destruct (list_find_elem_of (λ i, TerminalList.id i = TerminalList.id item)
                (items s) it Hit) as [[i old] Hfind]; [done|].
    rewrite Hfind. simpl.
    pose proof Hfind as (Hi & Hid & Hbefore)%list_find_Some.
    split.
    - rewrite list_fmap_insert. apply list_insert_id.
      by rewrite list_lookup_fmap, Hi, <- Hid.
    - assert (list_find (λ i0, TerminalList.id i0 = TerminalList.id item)
                (<[i:=item]> (items s)) = Some (i, item)) as ->; [|done].
      apply list_find_Some. split.
      { apply list_lookup_insert_eq. by eapply lookup_lt_Some. }
      split; [done|]. intros j y Hj Hlt.
      rewrite list_lookup_insert_ne in Hj by lia. by apply (Hbefore j). }
  pose proof (addTerminal_ids_new item insertAfter s) as Hnew.
  split; [done|]. split; [done|].
  intros Hnd. destruct (decide (TerminalList.id item ∈ getTerminalIds s)) as [Hin|Hout].
  - by rewrite (proj1 (Hold Hin)).
  - rewrite (Hnew Hout). destruct (truthyStr insertAfter) as [anchor|].
    + rewrite insertAfterOrPush_Permutation. by apply NoDup_cons.
    + rewrite Permutation_app_comm. by apply NoDup_cons.
Qed.
End ListItemsFacts.

(** ** Adopting the manager's order and groups *)

Section ListOrder.
Import TerminalList ListItems.

(** [itemMap.get(x)]: the last item with id [x], if any. *)
Lemma lastWithId x (l : list Item) :
  (x ∈ TerminalList.id <$> l →
   ∃ item, last (filter (λ item, TerminalList.id item = x) l) = Some item ∧
           item ∈ l ∧ TerminalList.id item = x) ∧
  (x ∉ TerminalList.id <$> l →
   last (filter (λ item, TerminalList.id item = x) l) = None).
Proof.
  split.
  - intros (it & -> & Hin)%list_elem_of_fmap.
    destruct (last (filter (λ item, TerminalList.id item = TerminalList.id it) l))
      as [found|] eqn:Hlast.
    + exists found. split; [done|].
      apply last_Some_elem_of, list_elem_of_filter in Hlast as [? ?]. done.
    + apply last_None in Hlast.
      assert (it ∈ filter (λ item, TerminalList.id item = TerminalList.id it) l) as Hmem
        by (by apply list_elem_of_filter).
      rewrite Hlast in Hmem. by apply not_elem_of_nil in Hmem.
  - intros Hout. apply last_None. apply filter_none. apply Forall_forall.
    intros it Hin Heq. apply Hout. rewrite <- Heq. by apply list_elem_of_fmap_2.
Qed.

(** X22.  [reorderItems] adopts the order the manager sends: the list
    afterwards shows, in the order of the message, exactly the ids of
    the message that had an item; ids without an item are skipped and
    items whose id is not in the message are dropped.  When the items
    have distinct ids and the message is a rearrangement of them, the
    items are the same ones, rearranged into the order of the
    message. *)
Theorem reorderItems_ids terminalIds s :
  getTerminalIds (reorderItems terminalIds s) =
    filter (λ x, x ∈ getTerminalIds s) terminalIds ∧
  (NoDup (getTerminalIds s) → terminalIds ≡ₚ getTerminalIds s →
   getTerminalIds (reorderItems terminalIds s) = terminalIds ∧
   items (reorderItems terminalIds s) ≡ₚ items s).
Proof.
  assert (getTerminalIds (reorderItems terminalIds s) =
            filter (λ x, x ∈ getTerminalIds s) terminalIds) as Hids.
  { unfold reorderItems, getTerminalIds. simpl.
    induction terminalIds as [|x rest IH]; [done|].
    rewrite filter_cons. cbn [omap list_omap].
    destruct (lastWithId x (items s)) as [Hin Hout].
    destruct (decide (x ∈ TerminalList.id <$> items s)) as [Hx|Hx].
    - destruct (Hin Hx) as (item & -> & _ & Hid). rewrite fmap_cons, Hid.
      f_equal. exact IH.
    - rewrite (Hout Hx). exact IH. }
  split; [exact Hids|]. intros Hnd Hperm.
  assert (getTerminalIds (reorderItems terminalIds s) = terminalIds) as Hsame.
  { rewrite Hids. apply filter_all. apply Forall_forall. intros x Hx. by rewrite <- Hperm. }
  split; [exact Hsame|].
  apply NoDup_Permutation.
  - apply (NoDup_fmap_1 TerminalList.id). fold (getTerminalIds (reorderItems terminalIds s)).
    rewrite Hsame, Hperm. exact Hnd.
  - by apply (NoDup_fmap_1 TerminalList.id).
  - intros item. unfold reorderItems. simpl. rewrite list_elem_of_omap. split.
    + intros (x & _ & Hlast).
      apply last_Some_elem_of, list_elem_of_filter in Hlast as [_ ?]. done.
    + intros Hin. exists (TerminalList.id item). split.
      * rewrite Hperm. by apply list_elem_of_fmap_2.
      * destruct (proj1 (lastWithId (TerminalList.id item) (items s)))
          as (found & Hlast & Hfound & Hid); [by apply list_elem_of_fmap_2|].
        rewrite Hlast. f_equal. by apply (item_of_id (items s)).
Qed.

Lemma assignGroup_ids x v (l : list Item) :
  TerminalList.id <$> assignGroup x v l = TerminalList.id <$> l.
Proof.
  induction l as [|i l IH]; [done|]. simpl.
  destruct (decide (TerminalList.id i = x)); [done|]. by rewrite !fmap_cons, IH.
Qed.

Lemma assignGroups_ids v members (l : list Item) :
  TerminalList.id <$> foldl (λ l terminalId, assignGroup terminalId v l) l members =
  TerminalList.id <$> l.
Proof.
  revert l. induction members as [|m members IH]; intros l; simpl; [done|].
  by rewrite IH, assignGroup_ids.
Qed.

Lemma orderedGroupItems_ids (groupItems : list Item) (l : list string) :
  (∀ tid, tid ∈ l → tid ∈ TerminalList.id <$> groupItems) →
  TerminalList.id <$> omap (λ tid, findItem tid groupItems) l = l.
Proof.
  induction l as [|tid l IH]; intros Hall; [done|]. cbn [omap list_omap].
  destruct (findItem_elem tid groupItems) as [item Hitem]; [apply Hall; left|].
  rewrite Hitem, fmap_cons. destruct (findItem_Some _ _ _ Hitem) as [_ ->].
  f_equal. apply IH. intros x Hx. apply Hall. by right.
Qed.

Lemma updateGroup_reorder_ids members (l : list Item) :
  (∀ tid, tid ∈ members → tid ∈ TerminalList.id <$> l) →
  TerminalList.id <$> updateGroup_reorder members l =
  regroupOrder members (TerminalList.id <$> l).
Proof.
  intros Hall. unfold updateGroup_reorder.
  destruct (list_find (λ i, TerminalList.id i ∈ members) l) as [[i item]|] eqn:Hfind.
  - assert (list_find (λ x, x ∈ members) (TerminalList.id <$> l) =
            Some (i, TerminalList.id item)) as Hfind'.
    { pose proof Hfind as (Hi & Hmem & Hbefore)%list_find_Some.
      apply list_find_Some. split; [by rewrite list_lookup_fmap, Hi|].
      split; [done|]. intros j y Hj Hlt.
      rewrite list_lookup_fmap in Hj.
      destruct (l !! j) as [other|] eqn:Hother; [|done]. injection Hj as <-.
      by apply (Hbefore j). }
    rewrite (regroupOrder_found _ _ _ _ Hfind').
    destruct (list_find_before _ _ _ _ Hfind) as [Hnone _].
    rewrite !fmap_app.
    rewrite (filter_all (λ i0, TerminalList.id i0 ∉ members) (take i l)) by done.
    rewrite fmap_take. f_equal. f_equal.
    + apply orderedGroupItems_ids. intros tid Htid.
      pose proof (fmap_filter_id (λ x, x ∈ members) l) as Heq. simpl in Heq.
      rewrite Heq. apply list_elem_of_filter. split; [done|]. by apply Hall.
    + rewrite <- fmap_drop. exact (fmap_filter_id (λ x, x ∉ members) (drop i l)).
  - unfold regroupOrder.
    assert (list_find (λ x, x ∈ members) (TerminalList.id <$> l) = None) as ->; [|done].
    apply list_find_None. apply list_find_None in Hfind.
    apply Forall_fmap. exact Hfind.
Qed.

(** X23.  [updateGroup] keeps the list in step with the manager's
    regrouping: when every member of the posted group has an item, the
    ids of the list afterwards are what [regroupOrder] (the reordering
    of [handleGroupReordered] and [handleGroupSelectedTerminals]) makes
    of the ids before: the members stand together, in group order, at
    the place of the first of them, every other item keeping its
    relative place.  The posted group is the group the list holds under
    its id. *)
Theorem updateGroup_ids group s :
  (∀ tid, tid ∈ TerminalGroup.terminals group → tid ∈ getTerminalIds s) →
  getTerminalIds (updateGroup group s) =
    regroupOrder (TerminalGroup.terminals group) (getTerminalIds s) ∧
  findGroup (TerminalGroup.id group) (groups (updateGroup group s)) = Some group.
Proof.
  intros Hall. unfold updateGroup, getTerminalIds in *. simpl. split.
  - rewrite updateGroup_reorder_ids; rewrite assignGroups_ids; done.
  - unfold findGroup.
    destruct (list_find (λ g, TerminalGroup.id g = TerminalGroup.id group) (groups s))
      as [[i old]|] eqn:Hfind.
    + assert (list_find (λ g, TerminalGroup.id g = TerminalGroup.id group)
                (<[i:=group]> (groups s)) = Some (i, group)) as ->; [|done].
      pose proof Hfind as (Hi & Hid & Hbefore)%list_find_Some.
      apply list_find_Some. split.
      { apply list_lookup_insert_eq. by eapply lookup_lt_Some. }
      split; [done|]. intros j y Hj Hlt.
      rewrite list_lookup_insert_ne in Hj by lia. by apply (Hbefore j).
    + rewrite (list_find_app_r _ _ _ Hfind). simpl. by rewrite decide_True.
Qed.
End ListOrder.

Lemma reorderItems_ids_witness :
  let s := {| TerminalList.items := [Samples.listItem "a"; Samples.listItem "b";
                                     Samples.listItem "c"];
              TerminalList.groups := []; TerminalList.listWidth := 180;
              TerminalList.selectedTerminalIds := [];
              TerminalList.focusedTerminalId := None;
              TerminalList.lastSelectedId := None;
              TerminalList.activeTerminalId := None |} in
  ListItems.getTerminalIds (ListItems.reorderItems ["c"; "a"; "b"] s) = ["c"; "a"; "b"] ∧
  ListItems.getTerminalIds (ListItems.reorderItems ["c"; "x"] s) = ["c"].
Proof.
  intros s. split.
  - apply (proj2 (reorderItems_ids ["c"; "a"; "b"] s)).
    + apply (bool_decide_unpack _). by vm_compute.
    + change (ListItems.getTerminalIds s) with ["a"; "b"; "c"].
      by rewrite (Permutation_app_comm ["a"; "b"] ["c"]).
  - reflexivity.
Defined.

Lemma updateGroup_ids_witness :
  let s := {| TerminalList.items := [Samples.listItem "a"; Samples.listItem "b";
                                     Samples.listItem "c"];
              TerminalList.groups := []; TerminalList.listWidth := 180;
              TerminalList.selectedTerminalIds := [];
              TerminalList.focusedTerminalId := None;
              TerminalList.lastSelectedId := None;
              TerminalList.activeTerminalId := None |} in
  let group := {| TerminalGroup.id := "g"; TerminalGroup.terminals := ["c"; "a"] |} in
  ListItems.getTerminalIds (ListItems.updateGroup group s) = ["c"; "a"; "b"] ∧
  regroupOrder ["c"; "a"] ["a"; "b"; "c"] = ["c"; "a"; "b"].
Proof.
  intros s group. split; [|reflexivity].
  rewrite (proj1 (updateGroup_ids group s
                    ltac:(intros tid Hin;
                          repeat (apply elem_of_cons in Hin as [->|Hin];
                                  [apply (bool_decide_unpack _); by vm_compute|]);
                          by apply not_elem_of_nil in Hin))).
  reflexivity.
Defined.

(** ** Clicks and drops *)

Section ListClicks.
Import TerminalList ListItems.

Lemma clearBell_ids x (l : list Item) :
  TerminalList.id <$> clearBell x l = TerminalList.id <$> l.
Proof.
  induction l as [|i l IH]; [done|]. simpl.
  destruct (decide (TerminalList.id i = x)); [done|]. by rewrite !fmap_cons, IH.
Qed.

Lemma setAdd_elem x y (sel : list string) : y ∈ setAdd x sel ↔ y = x ∨ y ∈ sel.
Proof.
  unfold setAdd. destruct (decide (x ∈ sel)).
  - split; [by right|]. by intros [->|?].
  - rewrite elem_of_app, list_elem_of_singleton. tauto.
Qed.

(** X24.  A click on a list item either changes nothing and reports
    nothing, or leaves no terminal focused: every branch of
    [handleItemClick] that writes the state clears [focusedTerminalId].
    The ids and groups of the list never change.  [onSelect] is emitted
    at most once, and only by a plain click that makes the clicked
    terminal the only selected one, the last selected one and the
    active one.  A Ctrl/Cmd click toggles the clicked id in the
    selection, leaves the other selected ids and the active terminal
    alone and emits nothing. *)
Theorem handleItemClick_spec x isMac metaKey ctrlKey shiftKey s :
  let r := handleItemClick x isMac metaKey ctrlKey shiftKey s in
  (r = (s, []) ∨ focusedTerminalId r.1 = None) ∧
  getTerminalIds r.1 = getTerminalIds s ∧
  groups r.1 = groups s ∧
  (r.2 = [] ∨
   (r.2 = [OnSelect x] ∧ (if isMac then metaKey else ctrlKey) = false ∧
    selectedTerminalIds r.1 = [x] ∧ lastSelectedId r.1 = Some x ∧
    activeTerminalId r.1 = Some x)) ∧
  ((if isMac then metaKey else ctrlKey) = true →
   r.2 = [] ∧
   (x ∈ selectedTerminalIds r.1 ↔ x ∉ selectedTerminalIds s) ∧
   (∀ y, y ≠ x → y ∈ selectedTerminalIds r.1 ↔ y ∈ selectedTerminalIds s) ∧
   activeTerminalId r.1 = activeTerminalId s).
Proof.
  intros r. subst r. unfold handleItemClick, getTerminalIds.
  destruct (if isMac then metaKey else ctrlKey) eqn:Hctrl.
  - destruct (decide (x ∈ selectedTerminalIds s)) as [Hsel|Hsel]; simpl.
    + split; [by right|]. split; [done|]. split; [done|]. split; [by left|].
      intros _. split; [done|]. split; [|split; [|done]].
      * rewrite list_elem_of_filter. split; [by intros []|done].
      * intros y Hy. rewrite list_elem_of_filter. tauto.
    + split; [by right|]. split; [done|]. split; [done|]. split; [by left|].
      intros _. split; [done|]. split; [|split; [|done]].
      * rewrite setAdd_elem. split; [done|]. intros _. by left.
      * intros y Hy. rewrite setAdd_elem. tauto.
  - destruct (if shiftKey then truthyStr (lastSelectedId s) else None) as [anchor|].
    + destruct (findItemIndex anchor (items s)) as [startIndex|];
        [destruct (findItemIndex x (items s)) as [endIndex|]|]; simpl.
      * split; [by right|]. split; [done|]. split; [done|]. split; [by left|]. done.
      * split; [by left|]. split; [done|]. split; [done|]. split; [by left|]. done.
      * split; [by left|]. split; [done|]. split; [done|]. split; [by left|]. done.
    + match goal with
      | |- context [if ?b then (s, []) else _] => destruct b
      end; simpl.
      * split; [by left|]. split; [done|]. split; [done|]. split; [by left|]. done.
      * split; [by right|]. split; [apply clearBell_ids|]. split; [done|].
        split; [|done]. right. done.
Qed.

(** X25.  A drop on another item that is not a move inside one group
    (the dragged item has no group id, or a group id other than the
    target's) never loses or duplicates an item: when both items are in
    the list, the items afterwards are a rearrangement of the items
    before, the groups are untouched, and the owner is told the new
    order of ids once ([onReorder]); when either item is missing,
    nothing changes and nothing is reported. *)
Theorem handleReorder_permutation sourceId targetId sourceGroupId targetGroupId s :
  (truthyStr sourceGroupId = None ∨ sourceGroupId ≠ targetGroupId) →
  let r := handleReorder sourceId targetId sourceGroupId targetGroupId s in
  (is_Some (findItem sourceId (items s)) → is_Some (findItem targetId (items s)) →
   items r.1 ≡ₚ items s ∧
   groups r.1 = groups s ∧
   selectedTerminalIds r.1 = selectedTerminalIds s ∧
   r.2 = [OnReorder (getTerminalIds r.1)]) ∧
  (findItem sourceId (items s) = None ∨ findItem targetId (items s) = None →
   r = (s, [])).
Proof.
  intros Hcase r. subst r. unfold handleReorder, getTerminalIds. split.
  - intros [source Hsource] [target Htarget]. rewrite Hsource, Htarget.
    destruct (truthyStr sourceGroupId) as [g|] eqn:Hg.
    + destruct Hcase as [|Hne]; [done|]. rewrite decide_False by done.
      destruct (findGroup g (groups s)); [|done].
      destruct (findItemIndex targetId _) as [targetIndex|]; simpl.
      * split; [|done].
        rewrite Permutation_app_swap_app, take_drop.
        apply (filter_app_complement (λ i, groupId i = Some g) (items s)).
      * split; [|done]. rewrite Permutation_app_comm.
        apply (filter_app_complement (λ i, groupId i = Some g) (items s)).
    + destruct (findItemIndex sourceId (items s)) as [sourceIndex|]; [|done].
      destruct (findItemIndex targetId (items s)) as [targetIndex|]; [|done].
      destruct (items s !! sourceIndex) as [removed|] eqn:Hremoved; [|done].
      simpl. split; [|done].
      rewrite <- Permutation_middle, take_drop. symmetry.
      by apply delete_Permutation.
  - intros [Hnone|Hnone]; rewrite Hnone; [done|]. by destruct (findItem sourceId _).
Qed.
End ListClicks.

Lemma handleReorder_permutation_witness :
  let s := {| TerminalList.items := [Samples.listItem "a"; Samples.listItem "b";
                                     Samples.listItem "c"];
              TerminalList.groups := []; TerminalList.listWidth := 180;
              TerminalList.selectedTerminalIds := [];
              TerminalList.focusedTerminalId := None;
              TerminalList.lastSelectedId := None;
              TerminalList.activeTerminalId := None |} in
  (ListItems.handleReorder "c" "a" None None s).2 = [ListItems.OnReorder ["c"; "a"; "b"]] ∧
  TerminalList.items (ListItems.handleReorder "c" "a" None None s).1 ≡ₚ
    TerminalList.items s.
Proof.
  intros s.
  destruct (handleReorder_permutation "c" "a" None None s (or_introl eq_refl))
    as [Hfound _].
  destruct Hfound as (Hperm & _ & _ & Hemit); [by eexists|by eexists|].
  split; [reflexivity|exact Hperm].
Defined.

(** ** Removing an item, and items against groups *)

Section ListRemoval.
Import TerminalList ListItems.

(** X26.  [removeTerminal] leaves no trace of the id in what the list
    shows and selects: the id is not among the ids, not selected, not
    focused and not the last selected one; the other ids keep their
    order, and the active terminal is not touched.  Adding an unlisted
    item and removing it again gives back the ids as they were. *)
Theorem removeTerminal_spec x item insertAfter s :
  getTerminalIds (removeTerminal x s) = filter (λ y, y ≠ x) (getTerminalIds s) ∧
  (x ∉ getTerminalIds (removeTerminal x s)) ∧
  (x ∉ selectedTerminalIds (removeTerminal x s)) ∧
  focusedTerminalId (removeTerminal x s) ≠ Some x ∧
  lastSelectedId (removeTerminal x s) ≠ Some x ∧
  activeTerminalId (removeTerminal x s) = activeTerminalId s ∧
  (TerminalList.id item ∉ getTerminalIds s →
   getTerminalIds (removeTerminal (TerminalList.id item)
                     (addTerminal item insertAfter s)) = getTerminalIds s).
Proof.
  assert (∀ y s0, getTerminalIds (removeTerminal y s0) =
                  filter (λ z, z ≠ y) (getTerminalIds s0)) as Hids.
  { intros y s0. unfold removeTerminal, getTerminalIds. simpl.
    exact (fmap_filter_id (λ z, z ≠ y) (items s0)). }
  split; [apply Hids|]. split.
  { rewrite Hids, list_elem_of_filter. by intros []. }
  split.
  { unfold removeTerminal. simpl. rewrite list_elem_of_filter. by intros []. }
  split; [unfold removeTerminal; simpl; by case_decide|].
  split; [unfold removeTerminal; simpl; by case_decide|]. split; [done|].
  intros Hout. rewrite Hids, (addTerminal_ids_new item insertAfter s Hout).
  assert (filter (λ z, z ≠ TerminalList.id item) (getTerminalIds s) = getTerminalIds s)
    as Hkeep.
  { apply filter_all, Forall_forall. by intros z Hz ->. }
  assert (∀ l : list string,
            filter (λ z, z ≠ TerminalList.id item) (l ++ [TerminalList.id item]) =
            filter (λ z, z ≠ TerminalList.id item) l) as Hdrop.
  { intros l. rewrite filter_app, filter_cons, decide_False by (by intros Hn; apply Hn).
    by rewrite filter_nil, app_nil_r. }
  destruct (truthyStr insertAfter) as [anchor|]; [|by rewrite Hdrop].
  unfold insertAfterOrPush, spliceIn.
  destruct (indexOf anchor (getTerminalIds s)) as [i|]; [|by rewrite Hdrop].
  rewrite !filter_app, filter_cons, decide_False by (by intros Hn; apply Hn).
  rewrite filter_nil. simpl. rewrite <- filter_app, take_drop. exact Hkeep.
Qed.

End ListRemoval.

(** ** Items against groups *)

Section ListMatching.
Import TerminalList ListItems.

Lemma matched_push s acc item :
  matched s acc → item ∈ items s → (TerminalList.id item ∉ acc.2) →
  matched s (acc.1 ++ [item], setAdd (TerminalList.id item) acc.2).
Proof.
  intros (Hids & Hnd & Hsub) Hin Hnew. unfold matched, setAdd. simpl.
  rewrite decide_False by done. split; [by rewrite fmap_app, Hids|]. split.
  - rewrite Permutation_app_comm. by apply NoDup_cons.
  - intros other Hother. apply elem_of_app in Hother as [?|Hother]; [by apply Hsub|].
    by apply list_elem_of_singleton in Hother as ->.
Qed.

Lemma setAdd_grows x y (l : list string) : y ∈ l → y ∈ setAdd x l.
Proof. intros Hy. apply setAdd_elem. by right. Qed.

(** The inner loop over the members of a group. *)
Lemma matchGroups_members s members acc :
  matched s acc →
  let acc' :=
    foldl (λ acc tid,
             match findItem tid (items s) with
             | Some groupItem =>
                 if decide (tid ∈ acc.2) then acc
                 else (acc.1 ++ [groupItem], setAdd tid acc.2)
             | None => acc
             end) acc members in
  matched s acc' ∧ ∀ y, y ∈ acc.2 → y ∈ acc'.2.
Proof.
  revert acc. induction members as [|tid members IH]; intros acc Hacc; simpl; [done|].
  destruct (findItem tid (items s)) as [groupItem|] eqn:Hfind; [|by apply IH].
  destruct (decide (tid ∈ acc.2)) as [Hin|Hout]; [by apply IH|].
  destruct (findItem_Some _ _ _ Hfind) as [Hitem Hid].
  destruct (IH (acc.1 ++ [groupItem], setAdd tid acc.2)) as [Hm Hgrow].
  { rewrite <- Hid. apply matched_push; [done|done|by rewrite Hid]. }
  split; [exact Hm|]. intros y Hy. apply Hgrow. simpl. by apply setAdd_grows.
Qed.

Lemma matchGroups_step_spec s acc item :
  matched s acc → item ∈ items s →
  matched s (matchGroups_step s acc item) ∧
  (∀ y, y ∈ acc.2 → y ∈ (matchGroups_step s acc item).2) ∧
  (truthyStr (groupId item) = None →
   TerminalList.id item ∈ (matchGroups_step s acc item).2).
Proof.
  intros Hacc Hin. unfold matchGroups_step. destruct acc as [newItems renderedIds].
  destruct (decide (TerminalList.id item ∈ renderedIds)) as [Hdone|Hnew]; [done|].
  destruct (truthyStr (groupId item)) as [g|].
  - destruct (findGroup g (groups s)) as [group|]; [|done].
    destruct (matchGroups_members s (TerminalGroup.terminals group)
                (newItems, renderedIds) Hacc) as [Hm Hgrow].
    done.
  - split; [by apply (matched_push s (newItems, renderedIds))|].
    split; [intros y Hy; by apply setAdd_grows|].
    intros _. simpl. apply setAdd_elem. by left.
Qed.

Lemma matchGroups_fold s l acc :
  matched s acc → (∀ item, item ∈ l → item ∈ items s) →
  matched s (foldl (matchGroups_step s) acc l) ∧
  (∀ y, y ∈ acc.2 → y ∈ (foldl (matchGroups_step s) acc l).2) ∧
  (∀ item, item ∈ l → truthyStr (groupId item) = None →
           TerminalList.id item ∈ (foldl (matchGroups_step s) acc l).2).
Proof.
  revert acc. induction l as [|item l IH]; intros acc Hacc Hsub; simpl.
  - split; [done|]. split; [done|]. intros item Hin. by apply not_elem_of_nil in Hin.
  - destruct (matchGroups_step_spec s acc item Hacc) as (Hm & Hgrow & Hself);
      [apply Hsub; left|].
    destruct (IH (matchGroups_step s acc item) Hm) as (Hm' & Hgrow' & Hall);
      [intros other Hother; apply Hsub; by right|].
    split; [exact Hm'|]. split; [intros y Hy; by apply Hgrow', Hgrow|].
    intros other [->|Hother]%elem_of_cons Hfree.
    + by apply Hgrow', Hself.
    + by apply Hall.
Qed.

(** X27.  [reorderItemsToMatchGroups] never shows an id twice and never
    invents an item: the ids of the list afterwards are pairwise
    distinct, whatever the list held before, and every item afterwards
    is an item of the list before.  The id of every item without group
    id is still listed. *)
Theorem reorderItemsToMatchGroups_spec s :
  NoDup (getTerminalIds (reorderItemsToMatchGroups s)) ∧
  (∀ item, item ∈ items (reorderItemsToMatchGroups s) → item ∈ items s) ∧
  (∀ item, item ∈ items s → truthyStr (groupId item) = None →
           TerminalList.id item ∈ getTerminalIds (reorderItemsToMatchGroups s)).
Proof.
  assert (matched s ([], [])) as Hinit.
  { split; [done|]. split; [constructor|]. intros item Hin.
    by apply not_elem_of_nil in Hin. }
  destruct (matchGroups_fold s (items s) ([], []) Hinit) as ((Hids & Hnd & Hsub) & _ & Hall);
    [done|].
  unfold reorderItemsToMatchGroups, getTerminalIds. simpl. rewrite Hids.
  split; [exact Hnd|]. split; [exact Hsub|exact Hall].
Qed.
End ListMatching.
